(** * Release-gating pipeline: verify, AI review, ship

    A shallow embedding of the three scripts of the project template
    ([scripts/verify.js], [scripts/ai-review.js], [scripts/ship.js]) and the
    properties of their gate aggregation, review-response parsing and
    ship-time integrity check.

    JavaScript values are embedded as an inductive type with the language's
    truthiness; exceptions and [try]/[catch] as a completion type; the
    built-ins the scripts call ([JSON.parse], SHA-256, the coercions of the
    relational operator, the engine's error texts, [Date]) as a class of
    runtime operations. *)

From Stdlib Require Import String Ascii.
From Stdlib Require Import List ZArith NArith Bool Lia.
From Stdlib Require Import PrimFloat Uint63 SpecFloat FloatOps.
Import ListNotations.

Set Warnings "-register-all".

(* ================================================================== *)
(** * JavaScript strings, values and completions *)
(* ================================================================== *)

Module JS.

(** A string is a sequence of UTF-16 code units. *)
Definition char := N.
Definition jstring := list char.

Definition ch (a : ascii) : char := N_of_ascii a.

(** Literals of the scripts are written [str "..."]. *)
Definition str (s : string) : jstring := map N_of_ascii (list_ascii_of_string s).

Fixpoint jstring_eqb (a b : jstring) : bool :=
  match a, b with
  | [], [] => true
  | x :: a', y :: b' => N.eqb x y && jstring_eqb a' b'
  | _, _ => false
  end.

(** WhiteSpace and LineTerminator code units: what [String.prototype.trim]
    strips and what the regular-expression class [\s] matches. *)
Definition isWhiteSpace (c : char) : bool :=
  (existsb (N.eqb c)
     [9; 10; 11; 12; 13; 32; 160; 5760; 8232; 8233; 8239; 8287; 12288; 65279]
   || (N.leb 8192 c && N.leb c 8202))%N.

Fixpoint trimStart (s : jstring) : jstring :=
  match s with
  | c :: s' => if isWhiteSpace c then trimStart s' else s
  | [] => []
  end.

Definition trimEnd (s : jstring) : jstring := rev (trimStart (rev s)).

Definition trim (s : jstring) : jstring := trimEnd (trimStart s).

Fixpoint startsWith (p s : jstring) : bool :=
  match p, s with
  | [], _ => true
  | a :: p', b :: s' => N.eqb a b && startsWith p' s'
  | _ :: _, [] => false
  end.

(** [s.includes(p)] *)
Fixpoint includes (s p : jstring) : bool :=
  startsWith p s ||
  match s with
  | [] => false
  | _ :: s' => includes s' p
  end.

(** [s.substring(0, n)] *)
Definition substring0 (n : nat) (s : jstring) : jstring := firstn n s.

(** [s.indexOf(c)] for a one-character needle; [None] stands for [-1]. *)
Fixpoint indexOf (c : char) (s : jstring) : option nat :=
  match s with
  | [] => None
  | x :: s' => if N.eqb x c then Some O else option_map S (indexOf c s')
  end.

(** [args.includes(flag)] on an array of strings. *)
Definition array_includes (xs : list jstring) (x : jstring) : bool :=
  existsb (jstring_eqb x) xs.

(** Values: what [JSON.parse] produces, plus [undefined]. An object is the
    list of its own properties in property order. *)
Inductive value :=
| VUndef
| VNull
| VBool (b : bool)
| VNum (f : float)
| VStr (s : jstring)
| VArr (elems : list value)
| VObj (props : list (jstring * value)).

(** ToBoolean *)
Definition truthy (v : value) : bool :=
  match v with
  | VUndef | VNull => false
  | VBool b => b
  | VNum f => negb (PrimFloat.eqb f 0 || PrimFloat.is_nan f)
  | VStr s => match s with [] => false | _ :: _ => true end
  | VArr _ | VObj _ => true
  end.

(** [a || b] and [a && b] return one of their operands. *)
Definition js_or (a b : value) : value := if truthy a then a else b.
Definition js_and (a b : value) : value := if truthy a then b else a.
Definition js_not (a : value) : bool := negb (truthy a).

Fixpoint lookup (k : jstring) (props : list (jstring * value)) : value :=
  match props with
  | [] => VUndef
  | (k', v) :: rest => if jstring_eqb k k' then v else lookup k rest
  end.

Definition has_key (k : jstring) (props : list (jstring * value)) : bool :=
  existsb (fun kv => jstring_eqb k (fst kv)) props.

(** A completion: a statement or call either returns or throws an [Error]
    with a message. *)
Inductive completion (A : Type) :=
| Normal (a : A)
| Throw (message : jstring).
Arguments Normal {A} a.
Arguments Throw {A} message.

Definition bind {A B} (c : completion A) (k : A -> completion B) : completion B :=
  match c with
  | Normal a => k a
  | Throw m => Throw m
  end.

Notation "x <- c ;; k" := (bind c (fun x => k))
  (at level 61, c at next level, right associativity).

Definition number_of_nat (n : nat) : float :=
  PrimFloat.of_uint63 (Uint63.of_Z (Z.of_nat n)).

(** ToString on an object or array throws a TypeError exactly when an own,
    hence non-callable, [toString] property shadows the inherited method:
    [valueOf] never yields a primitive for a parsed value, and
    [Array.prototype.join] converts every element that is not [null]. *)
Fixpoint toString_throws (v : value) : bool :=
  match v with
  | VObj props => has_key (str "toString") props
  | VArr elems =>
      (fix any (l : list value) : bool :=
         match l with
         | [] => false
         | x :: l' => toString_throws x || any l'
         end) elems
  | _ => false
  end.

End JS.
Export JS.

(* ================================================================== *)
(** * The runtime the scripts run on *)
(* ================================================================== *)

(** Built-ins of the JavaScript engine and of Node that the scripts call and
    that are not code of the repository. *)
Class Runtime := {
  (** [JSON.parse(text)]; [None] when it throws a SyntaxError. *)
  JSON_parse : jstring -> option value;
  (** The message of the TypeError the engine raises on a value (a property
      read on [null] or [undefined], a call of a missing method, iteration
      of a non-iterable, a failed conversion to a primitive). *)
  type_error_message : value -> jstring;
  (** [v > 0] for a string, array or object [v], after ToPrimitive and
      ToNumber; it throws when the conversion does. *)
  coerced_gt_zero : value -> completion bool;
  (** [crypto.createHash('sha256').update(content).digest('hex')] *)
  sha256_hex : list Byte.byte -> jstring;
  (** [new Date(v).getTime()] in milliseconds; [None] for NaN. *)
  Date_getTime : value -> option Z
}.

Section PropertyAccess.
Context {RT : Runtime}.

(** [v.key] for a key that is neither an index nor inherited from a
    prototype, and [v.length]. *)
Definition getProp (v : value) (key : jstring) : completion value :=
  match v with
  | VUndef | VNull => Throw (type_error_message v)
  | VObj props => Normal (lookup key props)
  | VArr elems =>
      if jstring_eqb key (str "length") then Normal (VNum (number_of_nat (length elems)))
      else Normal VUndef
  | VStr s =>
      if jstring_eqb key (str "length") then Normal (VNum (number_of_nat (length s)))
      else Normal VUndef
  | VBool _ | VNum _ => Normal VUndef
  end.

(** [v?.key] *)
Definition getPropOpt (v : value) (key : jstring) : completion value :=
  match v with
  | VUndef | VNull => Normal VUndef
  | _ => getProp v key
  end.

(** [v > 0] *)
Definition js_gt_zero (v : value) : completion bool :=
  match v with
  | VUndef | VNull => Normal false
  | VBool b => Normal b
  | VNum f => Normal (PrimFloat.ltb 0 f)
  | VStr _ | VArr _ | VObj _ => coerced_gt_zero v
  end.

(** ['text' + v]: only whether the conversion throws matters here. *)
Definition concat_check (v : value) : completion unit :=
  if toString_throws v then Throw (type_error_message v) else Normal tt.

End PropertyAccess.

(* ================================================================== *)
(** * scripts/ai-review.js *)
(* ================================================================== *)

Module AiReview.

(** ** A backtracking matcher for the regular expressions of the script *)

Inductive regex :=
| Eps
| Chr (c : char)
| Seq (r1 r2 : regex)
| Opt (r : regex)                    (* (?:r)?  greedy *)
| Star (p : char -> bool)            (* p*      greedy *)
| StarLazy (p : char -> bool)        (* p*?     lazy   *)
| Group (r : regex).                 (* ( r ), capture group 1 *)

(** [rmatch r s cap k]: match [r] at the head of [s], then continue with
    [k] on the rest; alternatives are tried in the order of a backtracking
    engine and the first success is returned. *)
Fixpoint rmatch {A} (r : regex) (s : jstring) (cap : option jstring)
         (k : jstring -> option jstring -> option A) {struct r} : option A :=
  match r with
  | Eps => k s cap
  | Chr c =>
      match s with
      | x :: s' => if N.eqb x c then k s' cap else None
      | [] => None
      end
  | Seq r1 r2 => rmatch r1 s cap (fun s1 cap1 => rmatch r2 s1 cap1 k)
  | Opt r1 =>
      match rmatch r1 s cap k with
      | Some a => Some a
      | None => k s cap
      end
  | Star p =>
      (fix go (t : jstring) : option A :=
         match t with
         | x :: t' =>
             if p x then
               match go t' with
               | Some a => Some a
               | None => k t cap
               end
             else k t cap
         | [] => k t cap
         end) s
  | StarLazy p =>
      (fix go (t : jstring) : option A :=
         match k t cap with
         | Some a => Some a
         | None =>
             match t with
             | x :: t' => if p x then go t' else None
             | [] => None
             end
         end) s
  | Group r1 =>
      rmatch r1 s cap
        (fun s1 _ => k s1 (Some (firstn (length s - length s1) s)))
  end.

(** [s.match(r)]: the leftmost match; the result is capture group 1. *)
Fixpoint regex_match (r : regex) (s : jstring) : option (option jstring) :=
  match rmatch r s None (fun _ cap => Some cap) with
  | Some cap => Some cap
  | None =>
      match s with
      | [] => None
      | _ :: s' => regex_match r s'
      end
  end.

Fixpoint lit (s : jstring) : regex :=
  match s with
  | [] => Eps
  | c :: s' => Seq (Chr c) (lit s')
  end.

Definition anyChar (c : char) : bool := true.   (* [\s\S] *)

Definition backtick : char := 96%N.
Definition newline : char := 10%N.
Definition lbrace : char := 123%N.
Definition rbrace : char := 125%N.

(** [/```(?:json)?\s*\n(\{[\s\S]*?\})\s*\n```/] *)
Definition fenceRegex : regex :=
  Seq (lit (str "```"))
 (Seq (Opt (lit (str "json")))
 (Seq (Star isWhiteSpace)
 (Seq (Chr newline)
 (Seq (Group (Seq (Chr lbrace) (Seq (StarLazy anyChar) (Chr rbrace))))
 (Seq (Star isWhiteSpace)
 (Seq (Chr newline)
      (lit (str "```")))))))).

Section Parser.
Context {RT : Runtime}.

(** ** parseGeminiResponse *)

(** Strategy 1: the whole trimmed response. *)
Definition strategy1 (response : jstring) : option value :=
  JSON_parse (trim response).

(** Strategy 2: the interior of a fenced block. *)
Definition strategy2 (response : jstring) : option value :=
  match regex_match fenceRegex response with
  | Some (Some inner) => JSON_parse inner
  | Some None => None
  | None => None
  end.

(** The loop of strategy 3 from index [start]: the characters up to and
    including the one at which [depth] is back to zero. *)
Fixpoint balancedPrefix (depth : Z) (s : jstring) : option jstring :=
  match s with
  | [] => None
  | c :: s' =>
      let depth' :=
        if N.eqb c lbrace then (depth + 1)%Z
        else if N.eqb c rbrace then (depth - 1)%Z
        else depth in
      if (depth' =? 0)%Z then Some [c]
      else option_map (cons c) (balancedPrefix depth' s')
  end.

(** Strategy 3: the first balanced run of braces; a run that does not parse
    ends the loop. *)
Definition strategy3 (response : jstring) : option value :=
  match indexOf lbrace response with
  | None => None
  | Some start =>
      match balancedPrefix 0 (skipn start response) with
      | Some sub => JSON_parse sub
      | None => None
      end
  end.

(** The fallback verdict: [{ summary: response, issues: [], raw: true }] *)
Definition rawVerdict (response : jstring) : value :=
  VObj [(str "summary", VStr response);
        (str "issues", VArr []);
        (str "raw", VBool true)].

Definition parseString (response : jstring) : value :=
  match strategy1 response with
  | Some v => v
  | None =>
      match strategy2 response with
      | Some v => v
      | None =>
          match strategy3 response with
          | Some v => v
          | None => rawVerdict response
          end
      end
  end.

(** On a value that is not a string, [response.trim()] throws inside the
    first [try] and [response.match] throws outside of any. *)
Definition parseGeminiResponse (response : value) : completion value :=
  match response with
  | VStr s => Normal (parseString s)
  | _ => Throw (type_error_message response)
  end.

(** ** Command-line options *)

Record options := {
  useDiff : bool;
  securityFocus : bool;
  outputPath : jstring;
  files : list jstring
}.

Definition OUTPUT_PATH : jstring := str ".workflow/state/ai-review.json".

(** [args[args.indexOf(flag) + 1]] *)
Fixpoint argAfter (flag : jstring) (args : list jstring) : option jstring :=
  match args with
  | [] => None
  | a :: rest =>
      if jstring_eqb a flag then
        match rest with
        | v :: _ => Some v
        | [] => None
        end
      else argAfter flag rest
  end.

(** [s.split(',')] *)
Fixpoint splitComma (cur : jstring) (s : jstring) : list jstring :=
  match s with
  | [] => [rev cur]
  | c :: s' =>
      if N.eqb c 44 then rev cur :: splitComma [] s'
      else splitComma (c :: cur) s'
  end.

Definition parseOptions (args : list jstring) : options :=
  {| useDiff := array_includes args (str "--diff");
     securityFocus := array_includes args (str "--security-focus");
     outputPath :=
       match argAfter (str "--output") args with
       | Some (c :: p) => c :: p
       | _ => OUTPUT_PATH
       end;
     files :=
       match argAfter (str "--files") args with
       | Some (c :: p) => map trim (splitComma [] (c :: p))
       | _ => []
       end |}.

(** ** The Reviewer Client *)

(** The ways the promise of [callGemini] is rejected. *)
Inductive client_failure :=
| ApiError (message : jstring)
| UnexpectedFormat
| ResponseParseFailure (message : jstring)
| TransportError (message : jstring)
| Timeout.

Definition failure_message (f : client_failure) : jstring :=
  match f with
  | ApiError m => str "Gemini API error: " ++ m
  | UnexpectedFormat => str "Unexpected response format from Gemini"
  | ResponseParseFailure m => str "Failed to parse Gemini response: " ++ m
  | TransportError m => str "Request failed: " ++ m
  | Timeout => str "Gemini API request timed out after 30 seconds"
  end.

Inductive call_result :=
| Resolved (text : value)
| Rejected (f : client_failure).

(** ** The review result *)

Record review_summary := {
  securityRisk : value;
  codeQuality : value;
  passesReview : value
}.

Record review_results := {
  securityReview : value;
  qualityReview : value;
  summary : review_summary
}.

Definition initialResults : review_results :=
  {| securityReview := VNull;
     qualityReview := VNull;
     summary := {| securityRisk := VStr (str "UNKNOWN");
                   codeQuality := VStr (str "UNKNOWN");
                   passesReview := VBool false |} |}.

Definition set_securityReview (v : value) (r : review_results) : review_results :=
  {| securityReview := v; qualityReview := qualityReview r; summary := summary r |}.

Definition set_qualityReview (v : value) (r : review_results) : review_results :=
  {| securityReview := securityReview r; qualityReview := v; summary := summary r |}.

Definition set_securityRisk (v : value) (r : review_results) : review_results :=
  {| securityReview := securityReview r; qualityReview := qualityReview r;
     summary := {| securityRisk := v;
                   codeQuality := codeQuality (summary r);
                   passesReview := passesReview (summary r) |} |}.

Definition set_codeQuality (v : value) (r : review_results) : review_results :=
  {| securityReview := securityReview r; qualityReview := qualityReview r;
     summary := {| securityRisk := securityRisk (summary r);
                   codeQuality := v;
                   passesReview := passesReview (summary r) |} |}.

Definition set_passesReview (v : value) (r : review_results) : review_results :=
  {| securityReview := securityReview r; qualityReview := qualityReview r;
     summary := {| securityRisk := securityRisk (summary r);
                   codeQuality := codeQuality (summary r);
                   passesReview := v |} |}.

(** [{ error: error.message }] *)
Definition errorVerdict (message : jstring) : value :=
  VObj [(str "error", VStr message)].

(** ** Logging the issues of a verdict *)

(** ['  [' + issue.severity + '] ' + issue.location + ': ' + issue.description] *)
Definition logIssue (labelKey : jstring) (issue : value) : completion unit :=
  label <- getProp issue labelKey ;;
  _ <- concat_check label ;;
  location <- getProp issue (str "location") ;;
  _ <- concat_check location ;;
  description <- getProp issue (str "description") ;;
  concat_check description.

Fixpoint forEach (f : value -> completion unit) (l : list value) : completion unit :=
  match l with
  | [] => Normal tt
  | x :: l' => _ <- f x ;; forEach f l'
  end.

(** [if (tier) { ...; console.log('Security Risk: ' + tier) }] *)
Definition logTier (tier : value) : completion unit :=
  if truthy tier then concat_check tier else Normal tt.

(** ['Security Issues Found: ' + issues.length], then the loop. *)
Definition logFound (labelKey : jstring) (issues len : value) : completion unit :=
  _ <- concat_check len ;;
  match issues with
  | VArr l => forEach (logIssue labelKey) l
  | VStr s => forEach (logIssue labelKey) (map (fun c => VStr [c]) s)
  | _ => Throw (type_error_message issues)
  end.

(** [if (v.issues && v.issues.length > 0) { for (const issue of v.issues) ... }].
    A string iterates over its characters; an object is not iterable. *)
Definition logIssues (labelKey : jstring) (verdict : value) : completion unit :=
  issues <- getProp verdict (str "issues") ;;
  if truthy issues then
    len <- getProp issues (str "length") ;;
    positive <- js_gt_zero len ;;
    if positive then logFound labelKey issues len else Normal tt
  else Normal tt.

(** ** One review: the [try] block and its [catch] *)

(** The statements of a [try] block change [results] one after the other;
    what was assigned before a throw stays assigned, and the handler then
    replaces the verdict by [{ error: error.message }]. *)
Definition reviewStep (tierKey labelKey : jstring)
    (setVerdict setTier : value -> review_results -> review_results)
    (call : call_result) (results : review_results) : review_results :=
  match call with
  | Rejected f => setVerdict (errorVerdict (failure_message f)) results
  | Resolved text =>
      match parseGeminiResponse text with
      | Throw m => setVerdict (errorVerdict m) results
      | Normal verdict =>
          let r1 := setVerdict verdict results in
          match getProp verdict tierKey with
          | Throw m => setVerdict (errorVerdict m) r1
          | Normal tier =>
              let r2 := if truthy tier then setTier tier r1 else r1 in
              match (_ <- logTier tier ;; logIssues labelKey verdict) with
              | Throw m => setVerdict (errorVerdict m) r2
              | Normal _ => r2
              end
          end
      end
  end.

Definition securityStep : call_result -> review_results -> review_results :=
  reviewStep (str "overallRisk") (str "severity") set_securityReview set_securityRisk.

Definition qualityStep : call_result -> review_results -> review_results :=
  reviewStep (str "overallQuality") (str "priority") set_qualityReview set_codeQuality.

(** ** Does the review pass *)

(** [!tier || accepted.includes(tier)] *)
Definition tierPass (accepted : list jstring) (tier : value) : bool :=
  js_not tier ||
  match tier with
  | VStr s => array_includes accepted s
  | _ => false
  end.

Definition ACCEPTED_RISK : list jstring := [str "LOW"; str "MEDIUM"].
Definition ACCEPTED_QUALITY : list jstring :=
  [str "EXCELLENT"; str "GOOD"; str "ACCEPTABLE"].

Definition securityPass (results : review_results) : completion bool :=
  risk <- getProp (securityReview results) (str "overallRisk") ;;
  Normal (tierPass ACCEPTED_RISK risk).

Definition qualityPass (results : review_results) : completion bool :=
  if js_not (qualityReview results) then Normal true
  else
    quality <- getProp (qualityReview results) (str "overallQuality") ;;
    Normal (tierPass ACCEPTED_QUALITY quality).

(** ** main *)

(** What a run of the script leaves behind: the result file it wrote, if
    any, and its exit code. *)
Record run := {
  written : option (jstring * review_results);
  exitCode : Z
}.

Definition noCode (codeContext : jstring) : bool :=
  match codeContext with
  | [] => true
  | _ :: _ => Nat.ltb (length (trim codeContext)) 50
  end.

(** The summary that is printed after the result file is written:
    ['Security Risk:  ' + results.summary.securityRisk] and
    ['Code Quality:   ' + results.summary.codeQuality]. *)
Definition printSummary (results : review_results) : completion unit :=
  _ <- concat_check (securityRisk (summary results)) ;;
  concat_check (codeQuality (summary results)).

(** [codeContext] is the text gathered from the files or the diff. An
    exception that reaches [main().catch] ends the run with code 1, also
    when the result file is already written. *)
Definition main (opts : options) (codeContext : jstring)
    (securityCall qualityCall : call_result) : run :=
  if noCode codeContext then {| written := None; exitCode := 0 |}
  else
    let r1 := securityStep securityCall initialResults in
    let r2 := if negb (securityFocus opts) then qualityStep qualityCall r1 else r1 in
    match (sp <- securityPass r2 ;; qp <- qualityPass r2 ;; Normal (sp && qp)) with
    | Throw _ => {| written := None; exitCode := 1 |}
    | Normal passes =>
        let results := set_passesReview (VBool passes) r2 in
        {| written := Some (outputPath opts, results);
           exitCode :=
             match printSummary results with
             | Throw _ => 1
             | Normal _ => if passes then 0 else 1
             end |}
    end.

End Parser.
End AiReview.

(* ================================================================== *)
(** * Files, commands and persisted documents *)
(* ================================================================== *)

(** What a path holds: nothing, something [readFileSync] throws on (a
    directory, a file without read permission), or bytes. *)
Inductive file :=
| Missing
| Unreadable
| Content (bytes : list Byte.byte).

Definition filesystem := jstring -> file.

(** [execSync(command, { encoding: 'utf-8', stdio: 'pipe' })]: it returns the
    standard output, or throws an error that carries what was captured. *)
Inductive exec_result :=
| Returned (stdout : jstring)
| Failed (stdout stderr : option jstring) (message : jstring).

(** [JSON.parse(JSON.stringify(v))]: a number that is not finite is written
    as [null], negative zero as [0], an [undefined] element as [null] and an
    [undefined] property is left out. *)
Fixpoint persist (v : value) : value :=
  match v with
  | VNum f =>
      if PrimFloat.is_nan f || PrimFloat.is_infinity f then VNull
      else if PrimFloat.is_zero f then VNum 0%float
      else VNum f
  | VArr elems =>
      VArr ((fix each (l : list value) : list value :=
               match l with
               | [] => []
               | x :: l' =>
                   match x with
                   | VUndef => VNull
                   | _ => persist x
                   end :: each l'
               end) elems)
  | VObj props =>
      VObj ((fix each (l : list (jstring * value)) : list (jstring * value) :=
               match l with
               | [] => []
               | (k, x) :: l' =>
                   match x with
                   | VUndef => each l'
                   | _ => (k, persist x) :: each l'
                   end
               end) props)
  | _ => v
  end.

Definition persistResults (r : AiReview.review_results) : AiReview.review_results :=
  {| AiReview.securityReview := persist (AiReview.securityReview r);
     AiReview.qualityReview := persist (AiReview.qualityReview r);
     AiReview.summary :=
       {| AiReview.securityRisk := persist (AiReview.securityRisk (AiReview.summary r));
          AiReview.codeQuality := persist (AiReview.codeQuality (AiReview.summary r));
          AiReview.passesReview := persist (AiReview.passesReview (AiReview.summary r)) |} |}.

(** [.workflow/state/ai-review.json] as [runAiReview] finds it: absent,
    something the read, the parse or [aiResults.summary.passesReview] throws
    on, or a review result. *)
Inductive result_file :=
| FileAbsent
| FileThrows (message : jstring)
| FileResults (r : AiReview.review_results).

(** The file a run of the review script leaves: the one it wrote, or the one
    that was there. *)
Definition fileAfter (before : result_file) (r : AiReview.run) : result_file :=
  match AiReview.written r with
  | Some (path, results) =>
      if jstring_eqb path AiReview.OUTPUT_PATH then FileResults (persistResults results)
      else before
  | None => before
  end.

(* ================================================================== *)
(** * scripts/verify.js *)
(* ================================================================== *)

Module Verify.

Record options := {
  skipTests : bool;
  skipLint : bool;
  skipAiReview : bool;
  securityFocus : bool;
  outputPath : jstring
}.

Definition OUTPUT_PATH : jstring := str ".workflow/state/verify-state.json".

Definition parseOptions (args : list jstring) : options :=
  {| skipTests := array_includes args (str "--skip-tests");
     skipLint := array_includes args (str "--skip-lint");
     skipAiReview := array_includes args (str "--skip-ai-review");
     securityFocus := array_includes args (str "--security-focus");
     outputPath := OUTPUT_PATH |}.

(** What [runCommand] returns. [error] is absent on success. *)
Record command_result := {
  cmd_success : bool;
  cmd_output : jstring;
  cmd_error : value
}.

(** The result object of a gate; a property that is absent reads as
    [undefined]. *)
Record gate_result := {
  skipped : value;
  reason : value;
  success : value;
  output : value;
  error : value;
  (* only the AI review sets these *)
  securityRisk : value;
  codeQuality : value;
  securityIssues : value;
  qualityIssues : value;
  needsAttention : value
}.

Definition emptyGate : gate_result :=
  {| skipped := VUndef; reason := VUndef; success := VUndef; output := VUndef;
     error := VUndef; securityRisk := VUndef; codeQuality := VUndef;
     securityIssues := VUndef; qualityIssues := VUndef; needsAttention := VUndef |}.

(** [{ skipped: true }] and [{ skipped: true, reason }] *)
Definition skippedGate (why : value) : gate_result :=
  {| skipped := VBool true; reason := why; success := VUndef; output := VUndef;
     error := VUndef; securityRisk := VUndef; codeQuality := VUndef;
     securityIssues := VUndef; qualityIssues := VUndef; needsAttention := VUndef |}.

(** [{ success: result.success, output: result.output, error: result.error }] *)
Definition commandGate (r : command_result) : gate_result :=
  {| skipped := VUndef; reason := VUndef;
     success := VBool (cmd_success r); output := VStr (cmd_output r);
     error := cmd_error r; securityRisk := VUndef; codeQuality := VUndef;
     securityIssues := VUndef; qualityIssues := VUndef; needsAttention := VUndef |}.

Record state_summary := {
  filesHashed : nat;
  testsPass : value;
  lintPass : value;
  auditPass : value;
  aiReviewPass : value;
  overallPass : value
}.

(** The verification state that is written to [options.outputPath]. *)
Record state := {
  version : jstring;
  timestamp : jstring;
  count : nat;
  hashes : list (jstring * jstring);
  tests : gate_result;
  lint : gate_result;
  audit : gate_result;
  aiReview : gate_result;
  summary : state_summary
}.

(** Everything a run reads from outside. *)
Record world := {
  now : jstring;                          (* new Date().toISOString() *)
  found : list jstring;                   (* findFiles('.') *)
  fs : filesystem;
  packageJson : option value;             (* None: the read or the parse throws *)
  exec : jstring -> exec_result;
  apiKey : bool;                          (* process.env.GEMINI_API_KEY is set *)
  reviewScriptExists : bool;
  (* running [node ai-review.js] with the given arguments: what execSync
     does and the result file found afterwards *)
  reviewChild : list jstring -> exec_result * result_file
}.

Section Verify.
Context {RT : Runtime}.

Definition hashFile (disk : filesystem) (filePath : jstring) : value :=
  match disk filePath with
  | Content bytes => VStr (sha256_hex bytes)
  | Missing | Unreadable => VNull
  end.

(** [error.stdout ? error.stdout.trim() : ''] *)
Definition trimmedOrEmpty (s : option jstring) : jstring :=
  match s with
  | Some (c :: t) => trim (c :: t)
  | _ => []
  end.

Definition runCommand (r : exec_result) : completion command_result :=
  match r with
  | Returned stdout =>
      Normal {| cmd_success := true; cmd_output := trim stdout; cmd_error := VUndef |}
  | Failed stdout stderr message =>
      Normal {| cmd_success := false;
                cmd_output := trimmedOrEmpty stdout;
                cmd_error :=
                  VStr match stderr with
                       | Some (c :: t) => trim (c :: t)
                       | _ => message
                       end |}
  end.

(** An exception out of a gate function would reach [main().catch]. *)
Definition commandResult (r : exec_result) : completion gate_result :=
  result <- runCommand r ;;
  Normal (commandGate result).

(** The [try] block over [package.json] in [runTests] and [runLint]. *)
Inductive script_check := NoPackageJson | NoScript | HasScript.

Definition checkScript (name : jstring) (pkg : option value) : script_check :=
  match pkg with
  | None => NoPackageJson
  | Some p =>
      match getProp p (str "scripts") with
      | Throw _ => NoPackageJson
      | Normal scripts =>
          if js_not scripts then NoScript
          else
            match getProp scripts name with
            | Throw _ => NoPackageJson
            | Normal script => if js_not script then NoScript else HasScript
            end
      end
  end.

Definition runTests (opts : options) (w : world) : completion gate_result :=
  if skipTests opts then Normal (skippedGate VUndef)
  else
    match checkScript (str "test") (packageJson w) with
    | NoScript => Normal (skippedGate (VStr (str "no test script")))
    | NoPackageJson => Normal (skippedGate (VStr (str "no package.json")))
    | HasScript => commandResult (exec w (str "npm test 2>&1"))
    end.

Definition runLint (opts : options) (w : world) : completion gate_result :=
  if skipLint opts then Normal (skippedGate VUndef)
  else
    match checkScript (str "lint") (packageJson w) with
    | NoScript => Normal (skippedGate (VStr (str "no lint script")))
    | NoPackageJson => Normal (skippedGate (VStr (str "no package.json")))
    | HasScript => commandResult (exec w (str "npm run lint 2>&1"))
    end.

Definition auditGate (result : command_result) : gate_result :=
  let output := cmd_output result in
  let hasHighCritical :=
    includes output (str "high") || includes output (str "critical") in
  {| skipped := VUndef; reason := VUndef;
     success := VBool (negb hasHighCritical || cmd_success result);
     output := VStr (substring0 500 output);
     error := VUndef; securityRisk := VUndef; codeQuality := VUndef;
     securityIssues := VUndef; qualityIssues := VUndef; needsAttention := VUndef |}.

Definition runAudit (w : world) : completion gate_result :=
  result <- runCommand (exec w (str "npm audit --audit-level=high 2>&1")) ;;
  Normal (auditGate result).

(** [aiResults.securityReview?.issues?.length || 0] *)
Definition issueCount (review : value) : completion value :=
  issues <- getPropOpt review (str "issues") ;;
  len <- getPropOpt issues (str "length") ;;
  Normal (js_or len (VNum 0%float)).

(** The object built from the review result file; [attention] is the
    [needsAttention] property of the [catch] path. *)
Definition reviewGate (aiResults : AiReview.review_results) (attention : bool)
  : completion gate_result :=
  let s := AiReview.summary aiResults in
  si <- issueCount (AiReview.securityReview aiResults) ;;
  qi <- issueCount (AiReview.qualityReview aiResults) ;;
  Normal {| skipped := VUndef; reason := VUndef;
            success := AiReview.passesReview s;
            output := VUndef; error := VUndef;
            securityRisk := AiReview.securityRisk s;
            codeQuality := AiReview.codeQuality s;
            securityIssues := si; qualityIssues := qi;
            needsAttention :=
              if attention then VBool (js_not (AiReview.passesReview s)) else VUndef |}.

(** [{ success: false, error: error.message }] *)
Definition failedReview (message : jstring) : gate_result :=
  {| skipped := VUndef; reason := VUndef; success := VBool false; output := VUndef;
     error := VStr message; securityRisk := VUndef; codeQuality := VUndef;
     securityIssues := VUndef; qualityIssues := VUndef; needsAttention := VUndef |}.

(** The [catch] block of [runAiReview]: it still reads the result file, and
    ignores what that read throws. *)
Definition reviewCatch (message : jstring) (f : result_file) : gate_result :=
  match f with
  | FileResults aiResults =>
      match reviewGate aiResults true with
      | Normal g => g
      | Throw _ => failedReview message
      end
  | FileThrows _ | FileAbsent => failedReview message
  end.

Definition runAiReview (opts : options) (w : world) : gate_result :=
  if skipAiReview opts then skippedGate VUndef
  else if negb (apiKey w) then skippedGate (VStr (str "no API key"))
  else if negb (reviewScriptExists w) then skippedGate (VStr (str "script not found"))
  else
    let aiArgs := if securityFocus opts then [str "--security-focus"] else [] in
    match reviewChild w aiArgs with
    | (Returned result, f) =>
        match f with
        | FileResults aiResults =>
            match reviewGate aiResults false with
            | Normal g => g
            | Throw m => reviewCatch m f
            end
        | FileThrows m => reviewCatch m f
        | FileAbsent =>
            {| skipped := VUndef; reason := VUndef; success := VBool true;
               output := VStr result; error := VUndef; securityRisk := VUndef;
               codeQuality := VUndef; securityIssues := VUndef;
               qualityIssues := VUndef; needsAttention := VUndef |}
        end
    | (Failed _ _ message, f) => reviewCatch message f
    end.

(** [fileHashes[file] = hash] *)
Fixpoint setHash (k v : jstring) (m : list (jstring * jstring)) : list (jstring * jstring) :=
  match m with
  | [] => [(k, v)]
  | (k', v') :: rest =>
      if jstring_eqb k k' then (k', v) :: rest else (k', v') :: setHash k v rest
  end.

(** The loop over the files that were found. *)
Fixpoint hashAll (disk : filesystem) (files : list jstring)
         (fileHashes : list (jstring * jstring)) : list (jstring * jstring) :=
  match files with
  | [] => fileHashes
  | f :: rest =>
      let hash := hashFile disk f in
      hashAll disk rest
        (if truthy hash then
           match hash with
           | VStr h => setHash f h fileHashes
           | _ => fileHashes
           end
         else fileHashes)
  end.

Definition passed (g : gate_result) : value := js_or (success g) (skipped g).

Definition summarize (fileHashes : list (jstring * jstring))
    (testResults lintResults auditResults aiReviewResults : gate_result) : state_summary :=
  {| filesHashed := length fileHashes;
     testsPass := passed testResults;
     lintPass := passed lintResults;
     auditPass := success auditResults;
     aiReviewPass := passed aiReviewResults;
     overallPass :=
       js_and (js_and (js_and (passed testResults) (passed lintResults))
                      (success auditResults))
              (passed aiReviewResults) |}.

(** What a run leaves: the state it wrote and its exit code. The state is
    written whether the gates passed or not. *)
Record run := {
  written : option (jstring * state);
  exitCode : Z
}.

(** [if (tier) { console.log('  Security Risk: ' + tier) }] *)
Definition printTier (tier : value) : completion unit :=
  if truthy tier then concat_check tier else Normal tt.

(** The tiers of the review that are printed after the state is written. *)
Definition printTiers (aiReviewResults : gate_result) : completion unit :=
  _ <- printTier (securityRisk aiReviewResults) ;;
  printTier (codeQuality aiReviewResults).

(** An exception that reaches [main().catch] ends the run with code 1,
    also when the state is already written. *)
Definition main (opts : options) (w : world) : run :=
  let fileHashes := hashAll (fs w) (found w) [] in
  match (testResults <- runTests opts w ;;
         lintResults <- runLint opts w ;;
         auditResults <- runAudit w ;;
         Normal (testResults, lintResults, auditResults)) with
  | Throw _ => {| written := None; exitCode := 1 |}
  | Normal (testResults, lintResults, auditResults) =>
      let aiReviewResults := runAiReview opts w in
      let verifyState :=
        {| version := str "1.1.0";
           timestamp := now w;
           count := length fileHashes;
           hashes := fileHashes;
           tests := testResults;
           lint := lintResults;
           audit := auditResults;
           aiReview := aiReviewResults;
           summary := summarize fileHashes testResults lintResults auditResults
                                aiReviewResults |} in
      {| written := Some (outputPath opts, verifyState);
         exitCode :=
           match printTiers aiReviewResults with
           | Throw _ => 1
           | Normal _ => if truthy (overallPass (summary verifyState)) then 0 else 1
           end |}
  end.

End Verify.
End Verify.

(* ================================================================== *)
(** * scripts/ship.js *)
(* ================================================================== *)

Module Ship.

Record options := {
  createPR : bool;
  dryRun : bool;
  statePath : jstring
}.

Definition DEFAULT_STATE_PATH : jstring := str ".workflow/state/verify-state.json".

Definition parseOptions (args : list jstring) : options :=
  {| createPR := array_includes args (str "--create-pr");
     dryRun := array_includes args (str "--dry-run");
     statePath := DEFAULT_STATE_PATH |}.

(** The flags of [state.summary]. *)
Record state_summary := {
  testsPass : value;
  lintPass : value;
  auditPass : value;
  aiReviewPass : value;
  overallPass : value
}.

(** The loaded verification state, as far as the script reads it. *)
Record state := {
  timestamp : value;
  hashes : list (jstring * jstring);      (* Object.entries(state.files.hashes) *)
  summary : option state_summary          (* None: no summary property *)
}.

(** What [options.statePath] holds. *)
Inductive state_file :=
| NoStateFile
| BadStateFile (message : jstring)         (* the read or the parse throws *)
| FalsyState                               (* null, false, 0 or an empty string *)
| StateFile (s : state).

(** The verification state that verify wrote, read back from its file. *)
Definition load (s : Verify.state) : state :=
  {| timestamp := VStr (Verify.timestamp s);
     hashes := Verify.hashes s;
     summary :=
       Some {| testsPass := persist (Verify.testsPass (Verify.summary s));
               lintPass := persist (Verify.lintPass (Verify.summary s));
               auditPass := persist (Verify.auditPass (Verify.summary s));
               aiReviewPass := persist (Verify.aiReviewPass (Verify.summary s));
               overallPass := persist (Verify.overallPass (Verify.summary s)) |} |}.

Record command_result := {
  cmd_success : bool;
  cmd_output : jstring;
  cmd_error : value
}.

Record modification := {
  mod_file : jstring;
  expected : jstring;
  actual : jstring
}.

Record integrity := {
  verified : nat;
  modified : list modification;
  missing : list jstring;
  total : nat
}.

(** What the body of the pull request is generated from. *)
Record pr_body := {
  body_timestamp : value;
  body_verified : nat;
  body_total : nat;
  body_tests : bool;
  body_lint : bool;
  body_audit : bool
}.

(** What a run prints and does, in order. *)
Inductive event :=
| Banner
| DryRunNotice
| StateNotFound (path : jstring)
| StateParseError (message : jstring)
| Loaded (path : jstring) (timestamp : value)
| StaleWarning
| GateStatus (gate : jstring) (passed : bool)
| GatesFailed
| IntegritySummary (verified total : nat)
| ModifiedReport (m : modification)
| MissingReport (path : jstring)
| ReadyToShip
| NextSteps
| PreparingPR
| Ran (command : jstring)                          (* execSync(command) *)
| NoBranch
| OnDefaultBranch (branch : jstring)
| NoGh
| DryRunEcho (title base : jstring) (body : pr_body)   (* [DRY RUN] Would execute: gh ... *)
| GhPrCreate (title base : jstring) (body : pr_body)   (* execFileSync('gh', ghArgs) *)
| PrCreated (url : jstring)
| PrFailed (message : jstring).

Record world := {
  now : Z;                                 (* Date.now() *)
  stateAt : jstring -> state_file;
  fs : filesystem;
  exec : jstring -> exec_result;
  gh : jstring -> jstring -> pr_body -> exec_result   (* gh pr create *)
}.

Record run := {
  trace : list event;
  exitCode : Z
}.

Section Ship.
Context {RT : Runtime}.

Definition hashFile (disk : filesystem) (filePath : jstring) : value :=
  match disk filePath with
  | Content bytes => VStr (sha256_hex bytes)
  | Missing | Unreadable => VNull
  end.

(** [s?.trim() || fallback] *)
Definition trimmedOr (s : option jstring) (fallback : jstring) : jstring :=
  match s with
  | Some t => match trim t with [] => fallback | c :: u => c :: u end
  | None => fallback
  end.

(** [runCommand(command)] with [dryRun] left at its default, [false]. *)
Definition runCommand (w : world) (command : jstring) : list event * command_result :=
  ([Ran command],
   match exec w command with
   | Returned stdout =>
       {| cmd_success := true; cmd_output := trim stdout; cmd_error := VUndef |}
   | Failed stdout stderr message =>
       {| cmd_success := false;
          cmd_output := trimmedOr stdout [];
          cmd_error := VStr (trimmedOr stderr message) |}
   end).

Definition loadVerifyState (opts : options) (w : world) : list event * option state :=
  match stateAt w (statePath opts) with
  | NoStateFile => ([StateNotFound (statePath opts)], None)
  | BadStateFile message => ([StateParseError message], None)
  | FalsyState => ([], None)
  | StateFile s => ([], Some s)
  end.

(** [fs.existsSync(filePath)] *)
Definition existsSync (disk : filesystem) (filePath : jstring) : bool :=
  match disk filePath with
  | Missing => false
  | Unreadable | Content _ => true
  end.

(** [currentHash === expectedHash] *)
Definition sameHash (currentHash : value) (expectedHash : jstring) : bool :=
  match currentHash with
  | VStr h => jstring_eqb h expectedHash
  | _ => false
  end.

(** [currentHash?.substring(0, 8) + '...' || 'null']: the sum is never
    empty, so the alternative is never taken. *)
Definition actualPrefix (currentHash : value) : jstring :=
  match currentHash with
  | VStr h => substring0 8 h ++ str "..."
  | _ => str "undefined..."
  end.

(** The loop of [verifyFileIntegrity] over the entries that are left. *)
Fixpoint checkEntries (disk : filesystem) (entries : list (jstring * jstring))
         (results : integrity) : integrity :=
  match entries with
  | [] => results
  | (filePath, expectedHash) :: rest =>
      checkEntries disk rest
        (if negb (existsSync disk filePath) then
           {| verified := verified results;
              modified := modified results;
              missing := missing results ++ [filePath];
              total := total results |}
         else
           let currentHash := hashFile disk filePath in
           if sameHash currentHash expectedHash then
             {| verified := S (verified results);
                modified := modified results;
                missing := missing results;
                total := total results |}
           else
             {| verified := verified results;
                modified := modified results ++
                  [{| mod_file := filePath;
                      expected := substring0 8 expectedHash ++ str "...";
                      actual := actualPrefix currentHash |}];
                missing := missing results;
                total := total results |})
  end.

Definition verifyFileIntegrity (s : state) (disk : filesystem) : integrity :=
  checkEntries disk (hashes s)
    {| verified := 0; modified := []; missing := []; total := length (hashes s) |}.

(** [state.summary?.flag || false] *)
Definition flag (s : state) (get : state_summary -> value) : value :=
  js_or (match summary s with Some sm => get sm | None => VUndef end) (VBool false).

(** The entries of the [gates] object, in property order. *)
Definition checkGates (s : state) : list (jstring * value) :=
  [(str "verificationPassed", flag s overallPass);
   (str "testsPass", flag s testsPass);
   (str "lintPass", flag s lintPass);
   (str "auditPass", flag s auditPass)].

Definition getCurrentBranch (w : world) : list event * option jstring :=
  let (t, result) := runCommand w (str "git branch --show-current") in
  (t, if cmd_success result then Some (cmd_output result) else None).

Definition getDefaultBranch (w : world) : list event * jstring :=
  let (t1, result) :=
    runCommand w
      (str "git remote show origin 2>/dev/null | grep " ++ [34%N]
         ++ str "HEAD branch" ++ [34%N] ++ str " | cut -d: -f2") in
  match cmd_success result, cmd_output result with
  | true, c :: o => (t1, trim (c :: o))
  | _, _ =>
      let (t2, mainExists) :=
        runCommand w (str "git show-ref --verify --quiet refs/heads/main") in
      (t1 ++ t2, if cmd_success mainExists then str "main" else str "master")
  end.

(** [state.summary.flag ? 'PASS' : 'FAIL'] in the body of the pull request;
    it throws when there is no summary. *)
Definition bodyOf (s : state) (results : integrity) : completion pr_body :=
  match summary s with
  | None => Throw (type_error_message VUndef)
  | Some sm =>
      Normal {| body_timestamp := timestamp s;
                body_verified := verified results;
                body_total := total results;
                body_tests := truthy (testsPass sm);
                body_lint := truthy (lintPass sm);
                body_audit := truthy (auditPass sm) |}
  end.

Definition createPullRequest (opts : options) (w : world) (s : state)
    (integrityResults : integrity) : list event * completion bool :=
  let (t1, branch) := getCurrentBranch w in
  let (t2, defaultBranch) := getDefaultBranch w in
  let t := [PreparingPR] ++ t1 ++ t2 in
  match branch with
  | None | Some [] => (t ++ [NoBranch], Normal false)
  | Some (c :: b) =>
      let branch := c :: b in
      if jstring_eqb branch defaultBranch then
        (t ++ [OnDefaultBranch defaultBranch], Normal false)
      else
        let (t3, ghCheck) := runCommand w (str "which gh") in
        if negb (cmd_success ghCheck) then (t ++ t3 ++ [NoGh], Normal false)
        else
          match bodyOf s integrityResults with
          | Throw m => (t ++ t3, Throw m)
          | Normal prBody =>
              let prTitle := str "[Verified] " ++ branch in
              if dryRun opts then
                (t ++ t3 ++ [DryRunEcho prTitle defaultBranch prBody], Normal true)
              else
                match gh w prTitle defaultBranch prBody with
                | Returned out =>
                    (t ++ t3 ++ [GhPrCreate prTitle defaultBranch prBody;
                                 PrCreated (trim out)],
                     Normal true)
                | Failed _ stderr message =>
                    (t ++ t3 ++ [GhPrCreate prTitle defaultBranch prBody;
                                 PrFailed (trimmedOr stderr message)],
                     Normal false)
                end
          end
  end.

(** [hoursSinceVerify > 4], with the age in milliseconds: both times are
    whole numbers of milliseconds, and the quotient by 3600000 exceeds 4
    exactly when the difference exceeds 14400000. *)
Definition stale (w : world) (s : state) : bool :=
  match Date_getTime (timestamp s) with
  | Some verifyTime => (14400000 <? now w - verifyTime)%Z
  | None => false
  end.

Definition gateEvents (gates : list (jstring * value)) : list event :=
  map (fun g => GateStatus (fst g) (truthy (snd g))) gates.

Definition gatesPass (gates : list (jstring * value)) : bool :=
  forallb (fun g => truthy (snd g)) gates.

(** [process.exit] ends the run where it is called; an exception reaches
    [main().catch], which exits with code 1. *)
Definition main (opts : options) (w : world) : run :=
  let t0 := [Banner] ++ (if dryRun opts then [DryRunNotice] else []) in
  match loadVerifyState opts w with
  | (tl, None) => {| trace := t0 ++ tl; exitCode := 1 |}
  | (tl, Some s) =>
      let t1 := t0 ++ tl ++ [Loaded (statePath opts) (timestamp s)]
                   ++ (if stale w s then [StaleWarning] else []) in
      let gates := checkGates s in
      let t2 := t1 ++ gateEvents gates in
      if negb (gatesPass gates) then
        {| trace := t2 ++ [GatesFailed]; exitCode := 1 |}
      else
        let integrityResults := verifyFileIntegrity s (fs w) in
        let t3 := t2 ++ [IntegritySummary (verified integrityResults)
                                          (total integrityResults)] in
        match modified integrityResults with
        | _ :: _ =>
            {| trace := t3 ++ map ModifiedReport (modified integrityResults);
               exitCode := 1 |}
        | [] =>
            match missing integrityResults with
            | _ :: _ =>
                {| trace := t3 ++ map MissingReport (missing integrityResults);
                   exitCode := 1 |}
            | [] =>
                let t4 := t3 ++ [ReadyToShip] in
                if createPR opts then
                  match createPullRequest opts w s integrityResults with
                  | (tp, Throw _) => {| trace := t4 ++ tp; exitCode := 1 |}
                  | (tp, Normal prSuccess) =>
                      {| trace := t4 ++ tp;
                         exitCode :=
                           if negb prSuccess && negb (dryRun opts) then 1 else 0 |}
                  end
                else {| trace := t4 ++ [NextSteps]; exitCode := 0 |}
            end
        end
  end.

End Ship.
End Ship.

(* ================================================================== *)
(** * A reference runtime *)
(* ================================================================== *)

(** Executable versions of the built-ins, to run the scripts on concrete
    inputs. *)
Module Reference.

Definition isDigit (c : char) : bool := (N.leb 48 c && N.leb c 57)%N.
Definition digitValue (c : char) : Z := Z.of_N (c - 48).

(** A run of decimal digits: its value after [acc], how many, and the rest. *)
Fixpoint digits (acc : Z) (n : Z) (s : jstring) : Z * Z * jstring :=
  match s with
  | c :: s' =>
      if isDigit c then digits (10 * acc + digitValue c)%Z (n + 1)%Z s'
      else (acc, n, s)
  | [] => (acc, n, s)
  end.

(** The double nearest to [m * 10^e], ties to even. A negative exponent is
    handled by a quotient with 1200 extra binary places and a sticky bit. *)
Definition decimalToFloat (negative : bool) (m e : Z) : float :=
  (if m =? 0 then (if negative then neg_zero else zero)
   else if 310 <? e + Z.log2 m / 4 then (if negative then neg_infinity else infinity)
   else if e + Z.log2 m / 3 + 1 <? -330 then (if negative then neg_zero else zero)
   else if 0 <=? e then
     SF2Prim (binary_round prec emax negative (Z.to_pos (m * 10 ^ e)) 0)
   else
     let d := 10 ^ (- e) in
     let s := 1200 + Z.log2_up d in
     let q := (m * 2 ^ s) / d in
     let r := (m * 2 ^ s) mod d in
     let m2 := 2 * q + (if r =? 0 then 0 else 1) in
     SF2Prim (binary_round prec emax negative (Z.to_pos m2) (- (s + 1))))%Z.

(** A JSON number: an optional minus sign, an integer part without a leading
    zero, an optional fraction and an optional exponent. *)
Definition parseNumber (s : jstring) : option (value * jstring) :=
  let (negative, s1) :=
    match s with
    | 45%N :: t => (true, t)
    | _ => (false, s)
    end in
  match s1 with
  | c :: t =>
      if isDigit c then
        let '(int, _, s2) :=
          if N.eqb c 48 then (0%Z, 1%Z, t) else digits 0 0 s1 in
        let frac :=
          match s2 with
          | 46%N :: u =>
              let '(m, n, s3) := digits int 0 u in
              if (n =? 0)%Z then None else Some (m, n, s3)
          | _ => Some (int, 0%Z, s2)
          end in
        match frac with
        | None => None
        | Some (m, n, s3) =>
            let expo :=
              match s3 with
              | x :: u =>
                  if N.eqb x 101 || N.eqb x 69 then
                    let (eneg, u1) :=
                      match u with
                      | 45%N :: v => (true, v)
                      | 43%N :: v => (false, v)
                      | _ => (false, u)
                      end in
                    let '(e, k, s4) := digits 0 0 u1 in
                    if (k =? 0)%Z then None
                    else Some ((if eneg then - e else e)%Z, s4)
                  else Some (0%Z, s3)
              | [] => Some (0%Z, s3)
              end in
            match expo with
            | None => None
            | Some (e, s4) => Some (VNum (decimalToFloat negative m (e - n)), s4)
            end
        end
      else None
  | [] => None
  end.

Definition hexValue (c : char) : option N :=
  (if isDigit c then Some (c - 48)
   else if N.leb 97 c && N.leb c 102 then Some (c - 87)
   else if N.leb 65 c && N.leb c 70 then Some (c - 55)
   else None)%N.

(** The characters of a JSON string after its opening quote. *)
Fixpoint parseChars (acc : jstring) (s : jstring) : option (jstring * jstring) :=
  match s with
  | [] => None
  | 34%N :: rest => Some (rev acc, rest)
  | 92%N :: e :: rest =>
      match e with
      | 34%N | 92%N | 47%N => parseChars (e :: acc) rest
      | 98%N => parseChars (8%N :: acc) rest
      | 102%N => parseChars (12%N :: acc) rest
      | 110%N => parseChars (10%N :: acc) rest
      | 114%N => parseChars (13%N :: acc) rest
      | 116%N => parseChars (9%N :: acc) rest
      | 117%N =>
          match rest with
          | a :: b :: c :: d :: rest' =>
              match hexValue a, hexValue b, hexValue c, hexValue d with
              | Some x, Some y, Some z, Some w =>
                  parseChars ((4096 * x + 256 * y + 16 * z + w)%N :: acc) rest'
              | _, _, _, _ => None
              end
          | _ => None
          end
      | _ => None
      end
  | c :: rest => if N.ltb c 32 then None else parseChars (c :: acc) rest
  end.

Definition isJsonSpace (c : char) : bool :=
  N.eqb c 32 || N.eqb c 9 || N.eqb c 10 || N.eqb c 13.

Fixpoint skipSpace (s : jstring) : jstring :=
  match s with
  | c :: s' => if isJsonSpace c then skipSpace s' else s
  | [] => []
  end.

(** A property that is defined twice keeps its place and takes the later
    value. *)
Fixpoint setProp (k : jstring) (v : value) (props : list (jstring * value))
  : list (jstring * value) :=
  match props with
  | [] => [(k, v)]
  | (k', v') :: rest =>
      if jstring_eqb k k' then (k', v) :: rest else (k', v') :: setProp k v rest
  end.

Section Nested.
Variable parseValue : jstring -> option (value * jstring).

(** After an element: [,] and another element, or [\]]. *)
Fixpoint parseElements (fuel : nat) (acc : list value) (s : jstring)
  : option (value * jstring) :=
  match fuel with
  | O => None
  | S fuel' =>
      match parseValue s with
      | None => None
      | Some (v, rest) =>
          match skipSpace rest with
          | 44%N :: rest' => parseElements fuel' (v :: acc) rest'
          | 93%N :: rest' => Some (VArr (rev (v :: acc)), rest')
          | _ => None
          end
      end
  end.

Fixpoint parseMembers (fuel : nat) (acc : list (jstring * value)) (s : jstring)
  : option (value * jstring) :=
  match fuel with
  | O => None
  | S fuel' =>
      match skipSpace s with
      | 34%N :: s1 =>
          match parseChars [] s1 with
          | None => None
          | Some (k, s2) =>
              match skipSpace s2 with
              | 58%N :: s3 =>
                  match parseValue s3 with
                  | None => None
                  | Some (v, rest) =>
                      match skipSpace rest with
                      | 44%N :: rest' => parseMembers fuel' (setProp k v acc) rest'
                      | 125%N :: rest' => Some (VObj (setProp k v acc), rest')
                      | _ => None
                      end
                  end
              | _ => None
              end
          end
      | _ => None
      end
  end.

End Nested.

Fixpoint parseValue (fuel : nat) (s : jstring) : option (value * jstring) :=
  match fuel with
  | O => None
  | S fuel' =>
      match skipSpace s with
      | [] => None
      | c :: rest =>
          if N.eqb c 123 then
            match skipSpace rest with
            | 125%N :: rest' => Some (VObj [], rest')
            | _ => parseMembers (parseValue fuel') fuel' [] rest
            end
          else if N.eqb c 91 then
            match skipSpace rest with
            | 93%N :: rest' => Some (VArr [], rest')
            | _ => parseElements (parseValue fuel') fuel' [] rest
            end
          else if N.eqb c 34 then
            match parseChars [] rest with
            | Some (str, rest') => Some (VStr str, rest')
            | None => None
            end
          else if startsWith (str "true") (c :: rest) then
            Some (VBool true, skipn 4 (c :: rest))
          else if startsWith (str "false") (c :: rest) then
            Some (VBool false, skipn 5 (c :: rest))
          else if startsWith (str "null") (c :: rest) then
            Some (VNull, skipn 4 (c :: rest))
          else parseNumber (c :: rest)
      end
  end.

(** [JSON.parse]: one value, with nothing but white space around it. *)
Definition json_parse (text : jstring) : option value :=
  match parseValue (S (length text)) text with
  | Some (v, rest) =>
      match skipSpace rest with
      | [] => Some v
      | _ :: _ => None
      end
  | None => None
  end.

(** ** ToNumber of a string, as far as [> 0] needs it *)

Fixpoint allDigits (valid : char -> bool) (nonzero : bool) (s : jstring) : option bool :=
  match s with
  | [] => Some nonzero
  | c :: s' =>
      if valid c then allDigits valid (nonzero || negb (N.eqb c 48)) s' else None
  end.

(** Is the number a string converts to greater than zero. The forms are
    those of a string numeric literal: [Infinity], a hexadecimal, octal or
    binary integer, or a decimal with optional fraction and exponent. *)
Definition stringGtZero (s : jstring) : bool :=
  let positive (digitsOk : char -> bool) (t : jstring) :=
    match t with
    | [] => false
    | _ :: _ => match allDigits digitsOk false t with Some b => b | None => false end
    end in
  match trim s with
  | [] => false
  | 45%N :: _ => false
  | 48%N :: x :: t =>
      if N.eqb x 120 || N.eqb x 88 then
        positive (fun c => match hexValue c with Some _ => true | None => false end) t
      else if N.eqb x 111 || N.eqb x 79 then
        positive (fun c => N.leb 48 c && N.leb c 55) t
      else if N.eqb x 98 || N.eqb x 66 then
        positive (fun c => N.leb 48 c && N.leb c 49) t
      else
        let '(int, _, s2) := digits 0 0 (48%N :: x :: t) in
        let '(m, n, s3) :=
          match s2 with
          | 46%N :: u => digits int 0 u
          | _ => (int, 0%Z, s2)
          end in
        match s3 with
        | [] => PrimFloat.ltb 0 (decimalToFloat false m (- n))
        | e :: u =>
            if N.eqb e 101 || N.eqb e 69 then
              let (eneg, u1) :=
                match u with
                | 45%N :: v => (true, v)
                | 43%N :: v => (false, v)
                | _ => (false, u)
                end in
              let '(ex, k, s4) := digits 0 0 u1 in
              match s4 with
              | [] =>
                  if (k =? 0)%Z then false
                  else PrimFloat.ltb 0
                         (decimalToFloat false m ((if eneg then - ex else ex) - n))
              | _ :: _ => false
              end
            else false
        end
  | c :: t =>
      let body := if N.eqb c 43 then t else c :: t in
      if jstring_eqb body (str "Infinity") then true
      else
        let '(int, i, s2) := digits 0 0 body in
        let '(m, n, s3) :=
          match s2 with
          | 46%N :: u => digits int 0 u
          | _ => (int, 0%Z, s2)
          end in
        if (i + n =? 0)%Z then false
        else
          match s3 with
          | [] => PrimFloat.ltb 0 (decimalToFloat false m (- n))
          | e :: u =>
              if N.eqb e 101 || N.eqb e 69 then
                let (eneg, u1) :=
                  match u with
                  | 45%N :: v => (true, v)
                  | 43%N :: v => (false, v)
                  | _ => (false, u)
                  end in
                let '(ex, k, s4) := digits 0 0 u1 in
                match s4 with
                | [] =>
                    if (k =? 0)%Z then false
                    else PrimFloat.ltb 0
                           (decimalToFloat false m ((if eneg then - ex else ex) - n))
                | _ :: _ => false
                end
              else false
          end
  end.

(** An array converts through [join]: one element converts as itself, an
    empty array to the empty string, and a comma is not a number. An object
    converts to a text that is not a number. *)
Fixpoint convertedGtZero (v : value) : bool :=
  match v with
  | VStr s => stringGtZero s
  | VNum f => PrimFloat.ltb 0 f
  | VArr [x] =>
      match x with
      | VNum _ | VStr _ | VArr _ => convertedGtZero x
      | _ => false
      end
  | _ => false
  end.

Definition gt_zero (v : value) : completion bool :=
  if toString_throws v then Throw (str "Cannot convert object to primitive value")
  else Normal (convertedGtZero v).

Definition error_text (v : value) : jstring :=
  match v with
  | VUndef => str "Cannot read properties of undefined"
  | VNull => str "Cannot read properties of null"
  | VObj _ | VArr _ => str "object is not iterable or cannot be converted"
  | _ => str "not a function"
  end.

(** ** SHA-256 *)

Definition w32 (x : N) : N := (x mod 4294967296)%N.
Definition rotr (n x : N) : N := w32 (N.lor (N.shiftr x n) (N.shiftl x (32 - n))).
Definition add32 (x y : N) : N := w32 (x + y).
Definition not32 (x : N) : N := (4294967295 - x)%N.

Definition K256 : list N :=
  [1116352408; 1899447441; 3049323471; 3921009573; 961987163; 1508970993;
   2453635748; 2870763221; 3624381080; 310598401; 607225278; 1426881987;
   1925078388; 2162078206; 2614888103; 3248222580; 3835390401; 4022224774;
   264347078; 604807628; 770255983; 1249150122; 1555081692; 1996064986;
   2554220882; 2821834349; 2952996808; 3210313671; 3336571891; 3584528711;
   113926993; 338241895; 666307205; 773529912; 1294757372; 1396182291;
   1695183700; 1986661051; 2177026350; 2456956037; 2730485921; 2820302411;
   3259730800; 3345764771; 3516065817; 3600352804; 4094571909; 275423344;
   430227734; 506948616; 659060556; 883997877; 958139571; 1322822218;
   1537002063; 1747873779; 1955562222; 2024104815; 2227730452; 2361852424;
   2428436474; 2756734187; 3204031479; 3329325298]%N.

Definition H256 : list N :=
  [1779033703; 3144134277; 1013904242; 2773480762;
   1359893119; 2600822924; 528734635; 1541459225]%N.

Fixpoint bigEndian (n : nat) (x : N) : list N :=
  match n with
  | O => []
  | S n' => bigEndian n' (N.shiftr x 8) ++ [(x mod 256)%N]
  end.

Definition pad (message : list N) : list N :=
  let len := length message in
  let zeros := Nat.modulo (119 - Nat.modulo len 64) 64 in
  message ++ [128%N] ++ repeat 0%N zeros ++ bigEndian 8 (N.of_nat (8 * len)).

Fixpoint words (n : nat) (bytes : list N) : list N :=
  match n, bytes with
  | S n', a :: b :: c :: d :: rest =>
      (16777216 * a + 65536 * b + 256 * c + d)%N :: words n' rest
  | _, _ => []
  end.

(** The message schedule, latest word first. *)
Fixpoint schedule (n : nat) (rw : list N) : list N :=
  match n with
  | O => rw
  | S n' =>
      let w2 := nth 1 rw 0%N in
      let w7 := nth 6 rw 0%N in
      let w15 := nth 14 rw 0%N in
      let w16 := nth 15 rw 0%N in
      let s0 := N.lxor (N.lxor (rotr 7 w15) (rotr 18 w15)) (N.shiftr w15 3) in
      let s1 := N.lxor (N.lxor (rotr 17 w2) (rotr 19 w2)) (N.shiftr w2 10) in
      schedule n' (add32 (add32 (add32 s1 w7) s0) w16 :: rw)
  end.

Definition round (st : list N) (kw : N * N) : list N :=
  match st with
  | [a; b; c; d; e; f; g; h] =>
      let S1 := N.lxor (N.lxor (rotr 6 e) (rotr 11 e)) (rotr 25 e) in
      let ch := N.lxor (N.land e f) (N.land (not32 e) g) in
      let t1 := add32 (add32 (add32 (add32 h S1) ch) (fst kw)) (snd kw) in
      let S0 := N.lxor (N.lxor (rotr 2 a) (rotr 13 a)) (rotr 22 a) in
      let maj := N.lxor (N.lxor (N.land a b) (N.land a c)) (N.land b c) in
      let t2 := add32 S0 maj in
      [add32 t1 t2; a; b; c; add32 d t1; e; f; g]
  | _ => st
  end.

Definition compress (h : list N) (block : list N) : list N :=
  let w := rev (schedule 48 (rev (words 16 block))) in
  let st := fold_left round (combine K256 w) h in
  map (fun p => add32 (fst p) (snd p)) (combine h st).

Fixpoint blocks (n : nat) (h : list N) (bytes : list N) : list N :=
  match n with
  | O => h
  | S n' =>
      match bytes with
      | [] => h
      | _ :: _ => blocks n' (compress h (firstn 64 bytes)) (skipn 64 bytes)
      end
  end.

Definition hexDigit (x : N) : char := (if x <? 10 then 48 + x else 87 + x)%N.

Definition hexByte (x : N) : jstring := [hexDigit (x / 16)%N; hexDigit (x mod 16)%N].

Definition sha256 (content : list Byte.byte) : jstring :=
  let bytes := pad (map Byte.to_N content) in
  flat_map (fun w => flat_map hexByte (bigEndian 4 w))
           (blocks (length bytes) H256 bytes).

(** ** Dates *)

(** Days from 1970-01-01 to a date of the proleptic Gregorian calendar. *)
Definition daysFromCivil (y m d : Z) : Z :=
  (let y' := if m <=? 2 then y - 1 else y in
   let era := y' / 400 in
   let yoe := y' - era * 400 in
   let mp := (m + 9) mod 12 in
   let doy := (153 * mp + 2) / 5 + d - 1 in
   let doe := yoe * 365 + yoe / 4 - yoe / 100 + doy in
   era * 146097 + doe - 719468)%Z.

Definition daysInMonth (y m : Z) : Z :=
  (if m =? 2 then
     if ((y mod 4 =? 0) && negb (y mod 100 =? 0)) || (y mod 400 =? 0) then 29 else 28
   else if (m =? 4) || (m =? 6) || (m =? 9) || (m =? 11) then 30
   else 31)%Z.

Definition twoDigits (a b : char) : option Z :=
  if isDigit a && isDigit b then Some (10 * digitValue a + digitValue b)%Z else None.

(** The time of a string in the format of [toISOString],
    [YYYY-MM-DDTHH:mm:ss.sssZ]; other texts are not read. *)
Definition isoTime (v : value) : option Z :=
  match v with
  | VStr [y1; y2; y3; y4; 45%N; m1; m2; 45%N; d1; d2; 84%N;
          h1; h2; 58%N; n1; n2; 58%N; s1; s2; 46%N; f1; f2; f3; 90%N] =>
      match twoDigits y1 y2, twoDigits y3 y4, twoDigits m1 m2, twoDigits d1 d2,
            twoDigits h1 h2, twoDigits n1 n2, twoDigits s1 s2, twoDigits 48%N f1,
            twoDigits f2 f3 with
      | Some ya, Some yb, Some mo, Some da, Some ho, Some mi, Some se, Some fa, Some fb =>
          if ((1 <=? mo) && (mo <=? 12) && (1 <=? da)
              && (da <=? daysInMonth (100 * ya + yb) mo)
              && (ho <=? 23) && (mi <=? 59) && (se <=? 59))%Z
          then Some ((((daysFromCivil (100 * ya + yb) mo da * 24 + ho) * 60 + mi) * 60
                      + se) * 1000 + 100 * fa + fb)%Z
          else None
      | _, _, _, _, _, _, _, _, _ => None
      end
  | _ => None
  end.

#[export] Instance runtime : Runtime := {|
  JSON_parse := json_parse;
  type_error_message := error_text;
  coerced_gt_zero := gt_zero;
  sha256_hex := sha256;
  Date_getTime := isoTime
|}.

End Reference.

(* ================================================================== *)
(** * The source tree and the code that is sent for review *)
(* ================================================================== *)

From Stdlib Require Import Sorted Permutation.

(** Built-ins of Node's [path] module that the scans of the tree call. *)
Class PathLib := {
  (** [path.join(dir, name)] *)
  path_join : jstring -> jstring -> jstring;
  (** [path.extname(p)] *)
  path_extname : jstring -> jstring
}.

(** ** The walk that verify and the review script share *)

Module Tree.

(** An entry of [fs.readdirSync(dir, { withFileTypes: true })]. *)
Inductive dirent :=
| FileEntry (name : jstring)                            (* isFile() *)
| DirEntry (name : jstring) (listing : list dirent)     (* isDirectory() *)
| LockedDir (name : jstring) (message : jstring)        (* isDirectory(); reading it throws *)
| OtherEntry (name : jstring).                          (* a link, a socket: neither *)

Definition name (entry : dirent) : jstring :=
  match entry with
  | FileEntry n | DirEntry n _ | LockedDir n _ | OtherEntry n => n
  end.

(** What the path of a directory holds when it is looked up from the
    top. *)
Inductive dir_state :=
| Absent                                   (* existsSync is false *)
| Listing (entries : list dirent)
| NotListable (message : jstring).         (* it exists and readdirSync throws *)

Record tree := {
  srcDir : dir_state;                      (* path.join(baseDir, 'src') *)
  baseDir : dir_state
}.

(** [entry.name.startsWith('.') || entry.name === 'node_modules'] *)
Definition ignored (n : jstring) : bool :=
  startsWith (str ".") n || jstring_eqb n (str "node_modules").

Section Walk.
Context {PL : PathLib}.
Variable extensions : list jstring.

(** The body of the loop of [walkDir(dir)] on one entry; [files] is the
    array the walk pushes to. *)
Fixpoint walkEntry (dir : jstring) (files : list jstring) (entry : dirent)
  {struct entry} : completion (list jstring) :=
  let fullPath := path_join dir (name entry) in
  if ignored (name entry) then Normal files
  else
    match entry with
    | DirEntry _ listing =>
        (fix loop (entries : list dirent) (files : list jstring) :=
           match entries with
           | [] => Normal files
           | e :: rest => files' <- walkEntry fullPath files e ;; loop rest files'
           end) listing files
    | LockedDir _ message => Throw message
    | FileEntry _ =>
        if array_includes extensions (path_extname (name entry))
        then Normal (files ++ [fullPath])
        else Normal files
    | OtherEntry _ => Normal files
    end.

(** The loop of [walkDir(dir)] over the entries of [dir]. *)
Fixpoint walkDir (dir : jstring) (entries : list dirent) (files : list jstring)
  : completion (list jstring) :=
  match entries with
  | [] => Normal files
  | e :: rest => files' <- walkEntry dir files e ;; walkDir dir rest files'
  end.

(** [walkDir(dir)] called from the top. *)
Definition walkTop (dir : jstring) (s : dir_state) : completion (list jstring) :=
  match s with
  | Absent => Normal []
  | Listing entries => walkDir dir entries []
  | NotListable message => Throw message
  end.

End Walk.
End Tree.

(** ** [findFiles] of scripts/verify.js *)

Module VerifyScan.

Definition DEFAULT_EXTENSIONS : list jstring :=
  [str ".js"; str ".jsx"; str ".ts"; str ".tsx"; str ".css"; str ".json"].

(** The order of [Array.prototype.sort] without a comparator: strings by
    their code units. *)
Fixpoint jstring_leb (a b : jstring) : bool :=
  match a, b with
  | [], _ => true
  | _ :: _, [] => false
  | x :: a', y :: b' => N.ltb x y || (N.eqb x y && jstring_leb a' b')
  end.

Fixpoint insert (x : jstring) (l : list jstring) : list jstring :=
  match l with
  | [] => [x]
  | y :: l' => if jstring_leb x y then x :: l else y :: insert x l'
  end.

(** [files.sort()]: the result is the one sorted arrangement of the
    paths, whatever algorithm the engine uses. *)
Fixpoint sort (l : list jstring) : list jstring :=
  match l with
  | [] => []
  | x :: l' => insert x (sort l')
  end.

Section VerifyScan.
Context {RT : Runtime} {PL : PathLib}.

(** [findFiles('.')] *)
Definition findFiles (t : Tree.tree) : completion (list jstring) :=
  let srcDir := path_join (str ".") (str "src") in
  files <- match Tree.srcDir t with
           | Tree.Absent => Tree.walkTop DEFAULT_EXTENSIONS (str ".") (Tree.baseDir t)
           | s => Tree.walkTop DEFAULT_EXTENSIONS srcDir s
           end ;;
  Normal (sort files).

Definition withFound (w : Verify.world) (files : list jstring) : Verify.world :=
  {| Verify.now := Verify.now w;
     Verify.found := files;
     Verify.fs := Verify.fs w;
     Verify.packageJson := Verify.packageJson w;
     Verify.exec := Verify.exec w;
     Verify.apiKey := Verify.apiKey w;
     Verify.reviewScriptExists := Verify.reviewScriptExists w;
     Verify.reviewChild := Verify.reviewChild w |}.

(** The run of verify from the tree: an exception of the scan reaches
    [main().catch]. *)
Definition run (opts : Verify.options) (t : Tree.tree) (w : Verify.world) : Verify.run :=
  match findFiles t with
  | Throw _ => {| Verify.written := None; Verify.exitCode := 1 |}
  | Normal files => Verify.main opts (withFound w files)
  end.

End VerifyScan.
End VerifyScan.

(** ** What scripts/ai-review.js gathers *)

Module ReviewInput.

Definition extensions : list jstring :=
  [str ".js"; str ".jsx"; str ".ts"; str ".tsx"; str ".py"; str ".go"; str ".rs"].

Definition MAX_FILE_SIZE : nat := N.to_nat 50000.

Definition NO_CHANGES : jstring := str "No changes detected".

(** An element of the array [readFilesContent] returns. *)
Record file_content := {
  path : jstring;
  content : jstring
}.

Inductive prompt := SECURITY_REVIEW_PROMPT | QUALITY_REVIEW_PROMPT.

(** Everything a run of the review script reads from outside. *)
Record world := {
  apiKey : bool;                               (* process.env.GEMINI_API_KEY is set *)
  tree : Tree.tree;
  readText : jstring -> option jstring;        (* readFileSync(p, 'utf-8'); None: it throws *)
  exec : jstring -> exec_result;
  callGemini : prompt -> jstring -> AiReview.call_result
}.

(** What the first part of [main] gathers. *)
Record gathered := {
  filesToReview : list jstring;
  gitDiff : option jstring                     (* None: null *)
}.

(** [diff || 'No changes detected'] *)
Definition orNoChanges (diff : jstring) : jstring :=
  match diff with
  | [] => NO_CHANGES
  | _ :: _ => diff
  end.

Definition getGitDiff (exec : jstring -> exec_result) : option jstring :=
  match exec (str "git diff HEAD") with
  | Returned diff => Some (orNoChanges diff)
  | Failed _ _ _ =>
      match exec (str "git diff --cached") with
      | Returned diff => Some (orNoChanges diff)
      | Failed _ _ _ => None
      end
  end.

(** The two line feeds and the marker that end a truncated file. *)
Definition TRUNCATED : jstring :=
  [10; 10]%N ++ str "... [truncated] ...".

Definition truncate (content : jstring) : jstring :=
  if Nat.ltb MAX_FILE_SIZE (length content)
  then substring0 MAX_FILE_SIZE content ++ TRUNCATED
  else content.

Fixpoint readFilesContent (read : jstring -> option jstring) (filePaths : list jstring)
  : list file_content :=
  match filePaths with
  | [] => []
  | filePath :: rest =>
      match read filePath with
      | Some content =>
          {| path := filePath; content := truncate content |}
            :: readFilesContent read rest
      | None => readFilesContent read rest
      end
  end.

(** A string or [null] as a condition. *)
Definition truthyText (s : option jstring) : bool :=
  match s with
  | Some (_ :: _) => true
  | _ => false
  end.

Section ReviewInput.
Context {RT : Runtime} {PL : PathLib}.

Definition findSourceFiles (t : Tree.tree) : completion (list jstring) :=
  let srcDir := path_join (str ".") (str "src") in
  match Tree.srcDir t with
  | Tree.Absent => Normal []
  | s => Tree.walkTop extensions srcDir s
  end.

(** [path.extname(file.path).slice(1) || 'text'] *)
Definition fenceTag (p : jstring) : jstring :=
  match tl (path_extname p) with
  | [] => str "text"
  | c :: ext => c :: ext
  end.

Definition diffSection (diff : jstring) : jstring :=
  str "## Git Diff (Changes to Review)" ++ [10; 10]%N ++ str "```diff" ++ [10%N]
    ++ diff ++ [10%N] ++ str "```" ++ [10; 10]%N.

Definition fileSection (file : file_content) : jstring :=
  str "### " ++ path file ++ [10; 10]%N ++ str "```" ++ fenceTag (path file) ++ [10%N]
    ++ content file ++ [10%N] ++ str "```" ++ [10; 10]%N.

Definition buildCodeContext (opts : AiReview.options) (files : list file_content)
    (diff : option jstring) : jstring :=
  let context :=
    match diff with
    | Some (c :: d) => if AiReview.useDiff opts then diffSection (c :: d) else []
    | Some [] | None => []
    end in
  match files with
  | [] => context
  | _ :: _ =>
      fold_left (fun context file => context ++ fileSection file) files
                (context ++ str "## Source Files" ++ [10; 10]%N)
  end.

(** The gathering part of [main]. *)
Definition gather (opts : AiReview.options) (w : world) : completion gathered :=
  match AiReview.files opts with
  | _ :: _ => Normal {| filesToReview := AiReview.files opts; gitDiff := None |}
  | [] =>
      if AiReview.useDiff opts then
        let gitDiff := getGitDiff (exec w) in
        if negb (truthyText gitDiff)
           || match gitDiff with
              | Some d => jstring_eqb d NO_CHANGES
              | None => false
              end
        then
          files <- findSourceFiles (tree w) ;;
          Normal {| filesToReview := files; gitDiff := gitDiff |}
        else Normal {| filesToReview := []; gitDiff := gitDiff |}
      else
        files <- findSourceFiles (tree w) ;;
        Normal {| filesToReview := files; gitDiff := None |}
  end.

Definition codeContextOf (opts : AiReview.options) (w : world) (g : gathered) : jstring :=
  buildCodeContext opts (readFilesContent (readText w) (filesToReview g)) (gitDiff g).

(** [options.useDiff && !!gitDiff], the [usedDiff] of the results *)
Definition usedDiff (opts : AiReview.options) (g : gathered) : bool :=
  AiReview.useDiff opts && truthyText (gitDiff g).

(** The script from its start: without an API key it exits with 1 before
    [main]; an exception of the gathering reaches [main().catch]. *)
Definition run (opts : AiReview.options) (w : world) : AiReview.run :=
  if negb (apiKey w) then {| AiReview.written := None; AiReview.exitCode := 1 |}
  else
    match gather opts w with
    | Throw _ => {| AiReview.written := None; AiReview.exitCode := 1 |}
    | Normal g =>
        let codeContext := codeContextOf opts w g in
        AiReview.main opts codeContext
          (callGemini w SECURITY_REVIEW_PROMPT codeContext)
          (callGemini w QUALITY_REVIEW_PROMPT codeContext)
    end.

End ReviewInput.
End ReviewInput.

(** ** A reference implementation of the path built-ins *)

Module ReferencePath.

Definition slash : char := 47%N.
Definition dot : char := 46%N.

(** [path.join(dir, name)] for a directory path that is ['.'] or has no
    trailing slash and the name of an entry: ['.'] is dropped by the
    normalisation, and nothing else changes. *)
Definition join (dir name : jstring) : jstring :=
  if jstring_eqb dir (str ".") then name else dir ++ slash :: name.

(** The last component of a path, trailing slashes dropped. *)
Fixpoint basenameRev (r : jstring) : jstring :=
  match r with
  | [] => []
  | c :: r' => if N.eqb c slash then [] else c :: basenameRev r'
  end.

Fixpoint dropSlashes (r : jstring) : jstring :=
  match r with
  | c :: r' => if N.eqb c slash then dropSlashes r' else r
  | [] => []
  end.

Definition basename (p : jstring) : jstring := rev (basenameRev (dropSlashes (rev p))).

(** The part of a component from its last dot, when there is one. *)
Fixpoint fromLastDot (s : jstring) : option jstring :=
  match s with
  | [] => None
  | c :: s' =>
      match fromLastDot s' with
      | Some e => Some e
      | None => if N.eqb c dot then Some s else None
      end
  end.

(** [path.extname]: from the last dot of the last component, unless that
    dot is its first character or the component is [..]. *)
Definition extname (p : jstring) : jstring :=
  let base := basename p in
  match fromLastDot base with
  | None => []
  | Some e =>
      if Nat.eqb (length e) (length base) then []
      else if jstring_eqb base (str "..") then []
      else e
  end.

#[export] Instance paths : PathLib := {|
  path_join := join;
  path_extname := extname
|}.

End ReferencePath.

(* ================================================================== *)
(** * Vocabulary of the properties *)
(* ================================================================== *)

(** A tier passes when it is absent (falsy) or one of the accepted names. *)
Definition tier_acceptable (accepted : list jstring) (tier : value) : Prop :=
  truthy tier = false \/ exists s, tier = VStr s /\ In s accepted.

(** A gate result counts as passed or skipped. *)
Definition passed_or_skipped (g : Verify.gate_result) : Prop :=
  truthy (Verify.success g) = true \/ truthy (Verify.skipped g) = true.

(** Events of the release action: everything [createPullRequest] prints or
    runs, the echo of a dry run included. *)
Definition release_event (e : Ship.event) : bool :=
  match e with
  | Ship.PreparingPR | Ship.Ran _ | Ship.NoBranch | Ship.OnDefaultBranch _
  | Ship.NoGh | Ship.DryRunEcho _ _ _ | Ship.GhPrCreate _ _ _
  | Ship.PrCreated _ | Ship.PrFailed _ => true
  | _ => false
  end.

Definition no_release (t : list Ship.event) : Prop :=
  forall e, In e t -> release_event e = false.

Section Composition.
Context {RT : Runtime}.

(** A [try] block of the review script runs to its end and leaves
    [verdict]: the call resolved, the text was parsed, and neither the read
    of the tier nor the logging of the tier and of the issues threw. *)
Definition review_completes (tierKey labelKey : jstring)
    (call : AiReview.call_result) (verdict : value) : Prop :=
  exists text,
    call = AiReview.Resolved text /\
    AiReview.parseGeminiResponse text = Normal verdict /\
    (exists tier, getProp verdict tierKey = Normal tier /\
                  AiReview.logTier tier = Normal tt) /\
    AiReview.logIssues labelKey verdict = Normal tt.

(** [execSync('node ai-review.js ' + aiArgs)] when the child is a run of the
    review script: it returns the output on exit code 0 and throws an error
    with the message [message] otherwise, and the result file is the one the
    run leaves. *)
Definition reviewChildOf (codeContext : jstring)
    (securityCall qualityCall : AiReview.call_result)
    (before : result_file) (stdout stderr message : jstring)
    (aiArgs : list jstring) : exec_result * result_file :=
  let r := AiReview.main (AiReview.parseOptions aiArgs) codeContext
                         securityCall qualityCall in
  (if (AiReview.exitCode r =? 0)%Z then Returned stdout
   else Failed (Some stdout) (Some stderr) message,
   fileAfter before r).

End Composition.

(** Two worlds in which the gates of verify see the same: they may differ in
    the files found and in what the disk holds. *)
Definition same_gates (w w' : Verify.world) : Prop :=
  Verify.now w = Verify.now w' /\
  Verify.packageJson w = Verify.packageJson w' /\
  (forall command, Verify.exec w command = Verify.exec w' command) /\
  Verify.apiKey w = Verify.apiKey w' /\
  Verify.reviewScriptExists w = Verify.reviewScriptExists w' /\
  (forall aiArgs, Verify.reviewChild w aiArgs = Verify.reviewChild w' aiArgs).

(** ** Vocabulary of the parser properties *)

(** The line that ends a fenced block: a line feed and three backticks. *)
Definition fenceEnd : jstring := AiReview.newline :: str "```".

(** [payload] in a fenced block, with the tag [tag], followed by [post]. *)
Definition fenced (tag payload post : jstring) : jstring :=
  str "```" ++ tag ++ AiReview.newline :: payload ++ fenceEnd ++ post.

(** Parts of the fence expression, and the continuation of a whole match. *)
Definition closing : AiReview.regex :=
  AiReview.Seq (AiReview.Star isWhiteSpace) (AiReview.lit fenceEnd).

Definition afterTag : AiReview.regex :=
  AiReview.Seq (AiReview.Star isWhiteSpace)
    (AiReview.Seq (AiReview.Chr AiReview.newline)
      (AiReview.Seq
         (AiReview.Group
            (AiReview.Seq (AiReview.Chr AiReview.lbrace)
               (AiReview.Seq (AiReview.StarLazy AiReview.anyChar)
                             (AiReview.Chr AiReview.rbrace))))
         closing)).

Definition finalK : jstring -> option jstring -> option (option jstring) :=
  fun _ cap => Some cap.

(** Opening braces minus closing braces, wherever they stand. *)
Definition braceStep (c : char) : Z :=
  if N.eqb c AiReview.lbrace then 1%Z
  else if N.eqb c AiReview.rbrace then (-1)%Z
  else 0%Z.

Fixpoint depth (s : jstring) : Z :=
  match s with
  | [] => 0%Z
  | c :: s' => (braceStep c + depth s')%Z
  end.

(** The braces of [payload] are properly nested in one group: they balance
    at its end and at no place before. *)
Definition properly_nested (payload : jstring) : Prop :=
  payload <> [] /\ depth payload = 0%Z /\
  forall p q, payload = p ++ q -> p <> [] -> q <> [] -> (0 < depth p)%Z.

(** A decision procedure for [properly_nested], from depth [d]. *)
Fixpoint nestedb (d : Z) (s : jstring) : bool :=
  match s with
  | [] => false
  | c :: s' =>
      match s' with
      | [] => (d + braceStep c =? 0)%Z
      | _ :: _ => (0 <? d + braceStep c)%Z && nestedb (d + braceStep c) s'
      end
  end.

(** JSON text is written with apostrophes for its double quotes. *)
Definition quoted (s : string) : jstring :=
  map (fun c => if N.eqb c 39 then 34%N else c) (str s).

(** ** Vocabulary of the ship properties *)

Section Classification.
Context {RT : Runtime}.

(** How [verifyFileIntegrity] classifies one entry of the snapshot. *)
Definition isMissing (disk : filesystem) (e : jstring * jstring) : bool :=
  negb (Ship.existsSync disk (fst e)).

Definition isVerified (disk : filesystem) (e : jstring * jstring) : bool :=
  Ship.existsSync disk (fst e) && Ship.sameHash (Ship.hashFile disk (fst e)) (snd e).

Definition isModified (disk : filesystem) (e : jstring * jstring) : bool :=
  Ship.existsSync disk (fst e) &&
  negb (Ship.sameHash (Ship.hashFile disk (fst e)) (snd e)).

(** The report of a modified file: its path and the first eight characters
    of the expected and of the actual digest. *)
Definition modificationOf (disk : filesystem) (e : jstring * jstring)
  : Ship.modification :=
  {| Ship.mod_file := fst e;
     Ship.expected := substring0 8 (snd e) ++ str "...";
     Ship.actual := Ship.actualPrefix (Ship.hashFile disk (fst e)) |}.

End Classification.

(** A flag that the ship script checks is false or absent. *)
Definition checked_flag_false (s : Ship.state) : Prop :=
  match Ship.summary s with
  | None => True
  | Some sm =>
      truthy (Ship.overallPass sm) = false \/ truthy (Ship.testsPass sm) = false \/
      truthy (Ship.lintPass sm) = false \/ truthy (Ship.auditPass sm) = false
  end.

(** The verification state a run of verify wrote. *)
Definition wrote {RT : Runtime} (opts : Verify.options) (w : Verify.world)
    (st : Verify.state) : Prop :=
  Verify.written (Verify.main opts w) = Some (Verify.outputPath opts, st).

(** ** Vocabulary of the further properties *)

Definition auditCommand : jstring := str "npm audit --audit-level=high 2>&1".

Section ScriptVocabulary.
Context {RT : Runtime}.


End ScriptVocabulary.

(** The arguments verify passes to the review script. *)
Definition reviewArgs (opts : Verify.options) : list jstring :=
  if Verify.securityFocus opts then [str "--security-focus"] else [].

(** The review gate does not run its child: the flag, the missing key or
    the missing script. *)
Definition review_not_run (opts : Verify.options) (w : Verify.world) : Prop :=
  Verify.skipAiReview opts = true \/ Verify.apiKey w = false \/
  Verify.reviewScriptExists w = false.

Definition review_runs (opts : Verify.options) (w : Verify.world) : Prop :=
  Verify.skipAiReview opts = false /\ Verify.apiKey w = true /\
  Verify.reviewScriptExists w = true.

(** The same world with another review child. *)
Definition withReviewChild (w : Verify.world)
    (child : list jstring -> exec_result * result_file) : Verify.world :=
  {| Verify.now := Verify.now w;
     Verify.found := Verify.found w;
     Verify.fs := Verify.fs w;
     Verify.packageJson := Verify.packageJson w;
     Verify.exec := Verify.exec w;
     Verify.apiKey := Verify.apiKey w;
     Verify.reviewScriptExists := Verify.reviewScriptExists w;
     Verify.reviewChild := child |}.
Section SnapshotVocabulary.
Context {RT : Runtime}.

(** A file has a digest that the loop of verify stores. *)
Definition hashable (disk : filesystem) (f : jstring) : bool :=
  match Verify.hashFile disk f with
  | VStr (_ :: _) => true
  | _ => false
  end.

Definition digestOf (disk : filesystem) (f : jstring) : jstring :=
  match Verify.hashFile disk f with
  | VStr h => h
  | _ => []
  end.

End SnapshotVocabulary.

(** The same world at another time. *)
Definition withNow (w : Ship.world) (n : Z) : Ship.world :=
  {| Ship.now := n;
     Ship.stateAt := Ship.stateAt w;
     Ship.fs := Ship.fs w;
     Ship.exec := Ship.exec w;
     Ship.gh := Ship.gh w |}.

Definition isStaleWarning (e : Ship.event) : bool :=
  match e with
  | Ship.StaleWarning => true
  | _ => false
  end.

(** Every check of the ship script passes: the state loads, the four flags
    are true, and no file of the snapshot is modified or missing. *)
Definition checks_pass {RT : Runtime} (opts : Ship.options) (w : Ship.world) : Prop :=
  exists s,
    Ship.stateAt w (Ship.statePath opts) = Ship.StateFile s /\
    Ship.gatesPass (Ship.checkGates s) = true /\
    Ship.modified (Ship.verifyFileIntegrity s (Ship.fs w)) = [] /\
    Ship.missing (Ship.verifyFileIntegrity s (Ship.fs w)) = [].
Section ReleaseVocabulary.
Context {RT : Runtime}.

(** [createPullRequest] gets as far as its [gh] arguments from branch
    [b]: the branch is known and is not the default branch, and the hosting
    CLI is found. *)
Definition pr_ready (w : Ship.world) (b : jstring) : Prop :=
  snd (Ship.getCurrentBranch w) = Some b /\ b <> [] /\
  b <> snd (Ship.getDefaultBranch w) /\
  Ship.cmd_success (snd (Ship.runCommand w (str "which gh"))) = true.

Definition isRan (e : Ship.event) : bool :=
  match e with
  | Ship.Ran _ => true
  | _ => false
  end.

End ReleaseVocabulary.
(** ** Vocabulary of the scans *)

Section ScanVocabulary.
Context {PL : PathLib}.
Variable extensions : list jstring.

(** The walk from [dir] reaches [entry] and pushes the path [p] for it or
    for a file below it: no name on the way is ignored, and the file has one
    of the extensions. *)
Inductive found_in (dir : jstring) : Tree.dirent -> jstring -> Prop :=
| found_file n :
    Tree.ignored n = false ->
    array_includes extensions (path_extname n) = true ->
    found_in dir (Tree.FileEntry n) (path_join dir n)
| found_below n listing e p :
    Tree.ignored n = false ->
    In e listing ->
    found_in (path_join dir n) e p ->
    found_in dir (Tree.DirEntry n listing) p.

End ScanVocabulary.

(** The walk reaches a directory that cannot be read. *)
Inductive blocked_by : Tree.dirent -> jstring -> Prop :=
| blocked_here n m :
    Tree.ignored n = false -> blocked_by (Tree.LockedDir n m) m
| blocked_below n listing e m :
    Tree.ignored n = false ->
    In e listing ->
    blocked_by e m ->
    blocked_by (Tree.DirEntry n listing) m.

Section WalkInvariant.
Context {PL : PathLib}.
Variable extensions : list jstring.

(** What the walk of one entry does to the array: it appends the paths
    found in the entry, or it throws the error of a directory that cannot
    be read. *)
Definition walk_ok (e : Tree.dirent) : Prop :=
  forall dir files,
    match Tree.walkEntry extensions dir files e with
    | Normal files' =>
        (forall m, ~ blocked_by e m) /\
        exists added, files' = files ++ added /\
                      forall p, In p added <-> found_in extensions dir e p
    | Throw m => blocked_by e m
    end.

End WalkInvariant.

Section ScanTargets.
Context {PL : PathLib}.

(** The directory verify scans: [src] when it exists, the base directory
    otherwise. *)
Definition scanned (t : Tree.tree) : Tree.dir_state :=
  match Tree.srcDir t with
  | Tree.Absent => Tree.baseDir t
  | s => s
  end.

Definition scannedPath (t : Tree.tree) : jstring :=
  match Tree.srcDir t with
  | Tree.Absent => str "."
  | _ => path_join (str ".") (str "src")
  end.

(** The scan of [dir] with the state [s] throws the error [m]. *)
Definition unlistable (s : Tree.dir_state) (m : jstring) : Prop :=
  s = Tree.NotListable m \/
  exists entries e, s = Tree.Listing entries /\ In e entries /\ blocked_by e m.

End ScanTargets.

Definition code_unit_order (a b : jstring) : Prop := VerifyScan.jstring_leb a b = true.

(** The extensions that verify hashes and the review script reads. *)
Definition COMMON_EXTENSIONS : list jstring :=
  [str ".js"; str ".jsx"; str ".ts"; str ".tsx"].

(** The end of a section of the code context: the last backtick of the
    closing fence and two line feeds. *)
Definition fenceClose : jstring := [96; 10; 10]%N.

(** ** Vocabulary of the options and of the state the ship script reads *)

Definition comma : char := 44%N.

(** The same summary with another [aiReviewPass]. *)
Definition withReviewFlag (s : Ship.state) (v : value) : Ship.state :=
  {| Ship.timestamp := Ship.timestamp s;
     Ship.hashes := Ship.hashes s;
     Ship.summary :=
       match Ship.summary s with
       | Some sm =>
           Some {| Ship.testsPass := Ship.testsPass sm;
                   Ship.lintPass := Ship.lintPass sm;
                   Ship.auditPass := Ship.auditPass sm;
                   Ship.aiReviewPass := v;
                   Ship.overallPass := Ship.overallPass sm |}
       | None => None
       end |}.

(** The same world with the state [s] in every state file. *)
Definition withState (w : Ship.world) (s : Ship.state) : Ship.world :=
  {| Ship.now := Ship.now w;
     Ship.stateAt := fun _ => Ship.StateFile s;
     Ship.fs := Ship.fs w;
     Ship.exec := Ship.exec w;
     Ship.gh := Ship.gh w |}.

Definition isGateStatus (e : Ship.event) : bool :=
  match e with
  | Ship.GateStatus _ _ => true
  | _ => false
  end.

(* ================================================================== *)
(** * Scenarios *)
(* ================================================================== *)

(** Concrete runs, on the reference runtime. *)
Module Scenario.

(** The audit command exits with a nonzero status and prints nothing that
    contains [high] or [critical]; there is no [package.json] and no API
    key, so the other gates are skipped. *)
Definition auditFailsQuietly : Verify.world :=
  {| Verify.now := str "2026-01-01T00:00:00.000Z";
     Verify.found := [];
     Verify.fs := fun _ => Missing;
     Verify.packageJson := None;
     Verify.exec := fun _ =>
       Failed (Some (str "npm ERR! code ENOLOCK")) (Some []) (str "Command failed");
     Verify.apiKey := false;
     Verify.reviewScriptExists := true;
     Verify.reviewChild := fun _ => (Returned [], FileAbsent) |}.

Definition bytesOf (s : string) : list Byte.byte :=
  map (fun a => match Byte.of_N (N_of_ascii a) with
                | Some b => b
                | None => Byte.x00
                end) (list_ascii_of_string s).

(** A state with every flag true that lists one file with the digest of
    its verified content. *)
Definition passingState : Ship.state :=
  {| Ship.timestamp := VStr (str "2026-01-01T00:00:00.000Z");
     Ship.hashes := [(str "a.txt", Reference.sha256 (bytesOf "verified content"))];
     Ship.summary :=
       Some {| Ship.testsPass := VBool true;
               Ship.lintPass := VBool true;
               Ship.auditPass := VBool true;
               Ship.aiReviewPass := VBool true;
               Ship.overallPass := VBool true |} |}.

Definition diskWith (path : jstring) (f : file) : filesystem :=
  fun p => if jstring_eqb p path then f else Missing.

(** On a feature branch, with the hosting CLI installed. *)
Definition featureBranch (command : jstring) : exec_result :=
  if jstring_eqb command (str "git branch --show-current") then Returned (str "feature/x")
  else if jstring_eqb command (str "which gh") then Returned (str "/usr/bin/gh")
  else if jstring_eqb command (str "git show-ref --verify --quiet refs/heads/main")
  then Returned []
  else Failed None None (str "Command failed").

(** The state is at a path of the user's choice and the default path holds
    nothing. *)
Definition customStateOnly : Ship.world :=
  {| Ship.now := 1767225600000;
     Ship.stateAt := fun path =>
       if jstring_eqb path (str "custom/verify-state.json") then Ship.StateFile passingState
       else Ship.NoStateFile;
     Ship.fs := diskWith (str "a.txt") (Content (bytesOf "verified content"));
     Ship.exec := featureBranch;
     Ship.gh := fun _ _ _ => Returned (str "https://example.test/pr/1") |}.

(** A verdict whose summary has nested braces in its text, without the
    outer braces. *)
Definition verdictBody : jstring :=
  quoted "'summary':'f() { if (x) { return {}; } } is fine','issues':[],'overallRisk':'LOW'".

Definition verdictText : jstring :=
  AiReview.lbrace :: verdictBody ++ [AiReview.rbrace].

Definition verdictValue : value :=
  VObj [(str "summary", VStr (str "f() { if (x) { return {}; } } is fine"));
        (str "issues", VArr []);
        (str "overallRisk", VStr (str "LOW"))].

(** Prose that holds a pair of braces of its own. *)
Definition bracedProse : jstring := str "The function f() { } is fine. ".

Definition criticalPayload : jstring :=
  quoted "{'summary':'injection in f','issues':[],'overallRisk':'CRITICAL'}".

Definition criticalVerdict : value :=
  VObj [(str "summary", VStr (str "injection in f"));
        (str "issues", VArr []);
        (str "overallRisk", VStr (str "CRITICAL"))].

(** A payload with a lone closing brace in a string value. *)
Definition loneBracePayload : jstring :=
  quoted "{'summary':'a } is missing in f','issues':[],'overallRisk':'HIGH'}".

Definition loneBraceVerdict : value :=
  VObj [(str "summary", VStr (str "a } is missing in f"));
        (str "issues", VArr []);
        (str "overallRisk", VStr (str "HIGH"))].

Definition proseBefore : jstring := str "Here is my review of the change: ".
Definition proseAfter : jstring := str " Let me know if you need more detail.".

Definition shipWorld (s : Ship.state) (disk : filesystem) : Ship.world :=
  {| Ship.now := 1767225600000;
     Ship.stateAt := fun path =>
       if jstring_eqb path Ship.DEFAULT_STATE_PATH then Ship.StateFile s
       else Ship.NoStateFile;
     Ship.fs := disk;
     Ship.exec := featureBranch;
     Ship.gh := fun _ _ _ => Returned (str "https://example.test/pr/1") |}.

(** The tree is as it was verified. *)
Definition unchangedTree : Ship.world :=
  shipWorld passingState (diskWith (str "a.txt") (Content (bytesOf "verified content"))).

(** [a.txt] was edited after verify. *)
Definition editedAfterVerify : Ship.world :=
  shipWorld passingState (diskWith (str "a.txt") (Content (bytesOf "edited content"))).

(** [a.txt] was deleted after verify. *)
Definition deletedAfterVerify : Ship.world :=
  shipWorld passingState (fun _ => Missing).

(** The state of a verification that failed its review. *)
Definition failedState : Ship.state :=
  {| Ship.timestamp := VStr (str "2026-01-01T00:00:00.000Z");
     Ship.hashes := Ship.hashes passingState;
     Ship.summary :=
       Some {| Ship.testsPass := VBool true;
               Ship.lintPass := VBool true;
               Ship.auditPass := VBool true;
               Ship.aiReviewPass := VBool false;
               Ship.overallPass := VBool false |} |}.

(** The verification failed and [a.txt] was edited afterwards. *)
Definition editedAfterFailedVerify : Ship.world :=
  shipWorld failedState (diskWith (str "a.txt") (Content (bytesOf "edited content"))).

(** The verification failed and the tree is unchanged. *)
Definition unchangedAfterFailedVerify : Ship.world :=
  shipWorld failedState (diskWith (str "a.txt") (Content (bytesOf "verified content"))).

Definition createDryRun : Ship.options :=
  Ship.parseOptions [str "--create-pr"; str "--dry-run"].

(** Two files are found; [src/b.js] cannot be read when it is hashed. *)
Definition oneUnreadable : Verify.world :=
  {| Verify.now := str "2026-01-01T00:00:00.000Z";
     Verify.found := [str "src/a.js"; str "src/b.js"];
     Verify.fs := fun p =>
       if jstring_eqb p (str "src/a.js") then Content (bytesOf "module.exports = 1;")
       else if jstring_eqb p (str "src/b.js") then Unreadable
       else Missing;
     Verify.packageJson := None;
     Verify.exec := fun _ => Returned (str "found 0 vulnerabilities");
     Verify.apiKey := false;
     Verify.reviewScriptExists := true;
     Verify.reviewChild := fun _ => (Returned [], FileAbsent) |}.

(** The gathered code, longer than the fifty characters below which the
    review script reviews nothing. *)
Definition codeContext : jstring :=
  str "## Source Files  ### src/a.js  function add(a, b) { return a + b; }".

Definition packageWithScripts : value :=
  VObj [(str "scripts",
         VObj [(str "test", VStr (str "jest")); (str "lint", VStr (str "eslint ."))])].

(** Tests, lint and audit pass; the API key is set; the review child is the
    review script with the given outcomes of its two calls. *)
Definition reviewWorld (securityCall qualityCall : AiReview.call_result) : Verify.world :=
  {| Verify.now := str "2026-01-01T00:00:00.000Z";
     Verify.found := [str "src/a.js"];
     Verify.fs := diskWith (str "src/a.js") (Content (bytesOf "module.exports = 1;"));
     Verify.packageJson := Some packageWithScripts;
     Verify.exec := fun _ => Returned (str "found 0 vulnerabilities");
     Verify.apiKey := true;
     Verify.reviewScriptExists := true;
     Verify.reviewChild :=
       reviewChildOf (RT := Reference.runtime) codeContext securityCall qualityCall
                     FileAbsent (str "AI CODE REVIEW (Gemini)") []
                     (str "Command failed: node scripts/ai-review.js") |}.

(** Both calls of the Reviewer Client time out. *)
Definition reviewTimesOut : Verify.world :=
  reviewWorld (AiReview.Rejected AiReview.Timeout) (AiReview.Rejected AiReview.Timeout).

(** The model answers the security prompt in prose, so that verdict is the
    raw text, and the quality prompt with a verdict of tier [GOOD]. *)
Definition inconclusiveReview : Verify.world :=
  reviewWorld
    (AiReview.Resolved (VStr (str "I could not finish the analysis of this change.")))
    (AiReview.Resolved
       (VStr (quoted "{'summary':'ok','issues':[],'overallQuality':'GOOD'}"))).

Definition lowRiskVerdict : value :=
  VObj [(str "summary", VStr (str "ok")); (str "issues", VArr []);
        (str "overallRisk", VStr (str "LOW"))].

Definition goodQualityVerdict : value :=
  VObj [(str "summary", VStr (str "ok")); (str "issues", VArr []);
        (str "overallQuality", VStr (str "GOOD"))].

(** Both reviews return a verdict within the accepted tiers. *)
Definition reviewedChange : Verify.world :=
  reviewWorld
    (AiReview.Resolved
       (VStr (quoted "{'summary':'ok','issues':[],'overallRisk':'LOW'}")))
    (AiReview.Resolved
       (VStr (quoted "{'summary':'ok','issues':[],'overallQuality':'GOOD'}"))).

(** The test command fails; lint and audit pass and the review is skipped
    for want of an API key. *)
Definition failingTests : Verify.world :=
  {| Verify.now := str "2026-01-01T00:00:00.000Z";
     Verify.found := [];
     Verify.fs := fun _ => Missing;
     Verify.packageJson := Some packageWithScripts;
     Verify.exec := fun command =>
       if jstring_eqb command (str "npm test 2>&1")
       then Failed (Some (str "1 failed, 3 passed")) (Some []) (str "Command failed: npm test")
       else Returned (str "found 0 vulnerabilities");
     Verify.apiKey := false;
     Verify.reviewScriptExists := true;
     Verify.reviewChild := fun _ => (Returned [], FileAbsent) |}.

End Scenario.

(** ** Further scenarios *)

Module Cases.

(** The review child is killed by the two-minute timeout before it wrote a
    result. *)
Definition reviewCrashes : Verify.world :=
  {| Verify.now := str "2026-01-01T00:00:00.000Z";
     Verify.found := [str "src/a.js"];
     Verify.fs := Scenario.diskWith (str "src/a.js")
                    (Content (Scenario.bytesOf "module.exports = 1;"));
     Verify.packageJson := Some Scenario.packageWithScripts;
     Verify.exec := fun _ => Returned (str "found 0 vulnerabilities");
     Verify.apiKey := true;
     Verify.reviewScriptExists := true;
     Verify.reviewChild := fun _ =>
       (Failed (Some []) (Some []) (str "spawnSync /bin/sh ETIMEDOUT"), FileAbsent) |}.

(** The result of an earlier review that did not pass. *)
Definition earlierResults : AiReview.review_results :=
  {| AiReview.securityReview := Scenario.lowRiskVerdict;
     AiReview.qualityReview := VNull;
     AiReview.summary :=
       {| AiReview.securityRisk := VStr (str "HIGH");
          AiReview.codeQuality := VStr (str "UNKNOWN");
          AiReview.passesReview := VBool false |} |}.

(** The review script gathers no code, and the result file of an earlier
    review is still there. *)
Definition nothingToReview : Verify.world :=
  {| Verify.now := str "2026-01-01T00:00:00.000Z";
     Verify.found := [];
     Verify.fs := fun _ => Missing;
     Verify.packageJson := Some Scenario.packageWithScripts;
     Verify.exec := fun _ => Returned (str "found 0 vulnerabilities");
     Verify.apiKey := true;
     Verify.reviewScriptExists := true;
     Verify.reviewChild :=
       reviewChildOf (RT := Reference.runtime) []
         (AiReview.Rejected AiReview.Timeout) (AiReview.Rejected AiReview.Timeout)
         (FileResults earlierResults) (str "No code found to review.") []
         (str "Command failed: node scripts/ai-review.js") |}.

Definition proseAnswer : jstring :=
  str "I could not finish the analysis of this change.".

(** A verdict of tier [CRITICAL] whose list of issues holds [null]. *)
Definition nullIssueAnswer : value :=
  VStr (quoted "{'issues':[null],'overallRisk':'CRITICAL'}").

Definition nullIssueVerdict : value :=
  VObj [(str "issues", VArr [VNull]); (str "overallRisk", VStr (str "CRITICAL"))].

(** The model answers the security prompt with a tier that cannot be
    converted to text, an object with a [toString] property of its own. *)
Definition unprintableTier : Verify.world :=
  Scenario.reviewWorld
    (AiReview.Resolved
       (VStr (quoted "{'summary':'ok','issues':[],'overallRisk':{'toString':1}}")))
    (AiReview.Resolved
       (VStr (quoted "{'summary':'ok','issues':[],'overallQuality':'GOOD'}"))).

(** Every path of the snapshot exists and none can be read. *)
Definition allUnreadable : filesystem := fun _ => Unreadable.

(** A tree with [src]: two sources, a note, a hidden file, a vendored
    directory and a link. *)
Definition smallTree : Tree.tree :=
  {| Tree.srcDir :=
       Tree.Listing
         [Tree.DirEntry (str "lib") [Tree.FileEntry (str "a.js");
                                     Tree.FileEntry (str "notes.md")];
          Tree.FileEntry (str "b.ts");
          Tree.FileEntry (str ".env.json");
          Tree.DirEntry (str "node_modules") [Tree.FileEntry (str "x.js")];
          Tree.OtherEntry (str "link.js")];
     Tree.baseDir := Tree.Listing [Tree.FileEntry (str "package.json")] |}.

(** A clean working tree without [src]. *)
Definition cleanTree : ReviewInput.world :=
  {| ReviewInput.apiKey := true;
     ReviewInput.tree :=
       {| Tree.srcDir := Tree.Absent;
          Tree.baseDir := Tree.Listing [Tree.FileEntry (str "package.json")] |};
     ReviewInput.readText := fun _ => None;
     ReviewInput.exec := fun _ => Returned [];
     ReviewInput.callGemini := fun _ _ => AiReview.Rejected AiReview.Timeout |}.

Definition namedFiles : AiReview.options :=
  AiReview.parseOptions [str "--files"; str "src/a.js, src/b.js"; str "--diff"].

End Cases.

(* ================================================================== *)
(** * Properties *)
(* ================================================================== *)

(** ** Truthiness *)

Lemma truthy_js_and (a b : value) :
  truthy (js_and a b) = truthy a && truthy b.
Proof.
  unfold js_and. destruct (truthy a) eqn:E; simpl; auto.
Qed.

Lemma truthy_js_or (a b : value) :
  truthy (js_or a b) = truthy a || truthy b.
Proof.
  unfold js_or. destruct (truthy a) eqn:E; simpl; auto.
Qed.

Lemma jstring_eqb_refl (s : jstring) : jstring_eqb s s = true.
Proof.
  induction s as [|c s IH]; simpl; auto.
  rewrite N.eqb_refl. exact IH.
Qed.

Lemma jstring_eqb_eq (a b : jstring) : jstring_eqb a b = true <-> a = b.
Proof.
  split.
  - revert b. induction a as [|x a IH]; destruct b as [|y b]; simpl; try discriminate; auto.
    intros H. apply andb_true_iff in H. destruct H as [H1 H2].
    apply N.eqb_eq in H1. subst. f_equal. auto.
  - intros ->. apply jstring_eqb_refl.
Qed.

Lemma array_includes_In (xs : list jstring) (x : jstring) :
  array_includes xs x = true <-> In x xs.
Proof.
  unfold array_includes. rewrite existsb_exists. split.
  - intros [y [Hy E]]. apply jstring_eqb_eq in E. subst. exact Hy.
  - intros H. exists x. split; auto. apply jstring_eqb_refl.
Qed.

Lemma tierPass_acceptable (accepted : list jstring) (tier : value) :
  AiReview.tierPass accepted tier = true <-> tier_acceptable accepted tier.
Proof.
  unfold AiReview.tierPass, tier_acceptable, js_not. split.
  - intros H. apply orb_true_iff in H. destruct H as [H|H].
    + left. apply negb_true_iff in H. exact H.
    + destruct tier; try discriminate. right. exists s. split; auto.
      apply array_includes_In. exact H.
  - intros [H|[s [-> H]]].
    + rewrite H. reflexivity.
    + apply array_includes_In in H. rewrite H. apply orb_true_r.
Qed.

(** ** The gate runner *)

(** C9. [runCommand] returns a result for every outcome of the command and
    never throws: on success it returns the trimmed output with
    [success = true]; when [execSync] throws, on a nonzero exit or any other
    invocation error, it returns [success = false] with the captured
    standard output and, as [error], the captured standard error or, when
    there is none, the message of the error. *)
Theorem runCommand_returns_result (r : exec_result) :
  exists result,
    Verify.runCommand r = Normal result /\
    match r with
    | Returned stdout =>
        Verify.cmd_success result = true /\
        Verify.cmd_output result = trim stdout /\
        Verify.cmd_error result = VUndef
    | Failed stdout stderr message =>
        Verify.cmd_success result = false /\
        Verify.cmd_output result =
          match stdout with Some out => trim out | None => [] end /\
        Verify.cmd_error result =
          VStr match stderr with
               | Some (c :: err) => trim (c :: err)
               | Some [] | None => message
               end
    end.
Proof.
  destruct r as [stdout | stdout stderr message]; simpl.
  - eexists. split; [reflexivity|]. simpl. auto.
  - eexists. split; [reflexivity|]. simpl.
    split; [reflexivity|]. split.
    + destruct stdout as [[|c out]|]; reflexivity.
    + destruct stderr as [[|c err]|]; reflexivity.
Qed.

(** ** The verification orchestrator *)

Section VerifyFacts.
Context {RT : Runtime}.

Lemma runCommand_normal (r : exec_result) :
  exists result, Verify.runCommand r = Normal result.
Proof. destruct r; simpl; eauto. Qed.

Lemma commandResult_normal (r : exec_result) :
  exists g, Verify.commandResult r = Normal g.
Proof.
  unfold Verify.commandResult. destruct (runCommand_normal r) as [c ->].
  simpl. eauto.
Qed.

Lemma runTests_normal opts w : exists g, Verify.runTests opts w = Normal g.
Proof.
  unfold Verify.runTests. destruct (Verify.skipTests opts); eauto.
  destruct (Verify.checkScript _ _); eauto using commandResult_normal.
Qed.

Lemma runLint_normal opts w : exists g, Verify.runLint opts w = Normal g.
Proof.
  unfold Verify.runLint. destruct (Verify.skipLint opts); eauto.
  destruct (Verify.checkScript _ _); eauto using commandResult_normal.
Qed.

Lemma runAudit_normal w : exists g, Verify.runAudit w = Normal g.
Proof.
  unfold Verify.runAudit.
  destruct (runCommand_normal (Verify.exec w (str "npm audit --audit-level=high 2>&1")))
    as [c ->].
  simpl. eauto.
Qed.

(** The state a run writes, in terms of its gates. *)
Lemma wrote_inv opts w st :
  wrote opts w st ->
  exists t l a,
    Verify.runTests opts w = Normal t /\
    Verify.runLint opts w = Normal l /\
    Verify.runAudit w = Normal a /\
    st = {| Verify.version := str "1.1.0";
            Verify.timestamp := Verify.now w;
            Verify.count := length (Verify.hashAll (Verify.fs w) (Verify.found w) []);
            Verify.hashes := Verify.hashAll (Verify.fs w) (Verify.found w) [];
            Verify.tests := t;
            Verify.lint := l;
            Verify.audit := a;
            Verify.aiReview := Verify.runAiReview opts w;
            Verify.summary :=
              Verify.summarize (Verify.hashAll (Verify.fs w) (Verify.found w) [])
                               t l a (Verify.runAiReview opts w) |}.
Proof.
  unfold wrote, Verify.main.
  destruct (runTests_normal opts w) as [t Ht].
  destruct (runLint_normal opts w) as [l Hl].
  destruct (runAudit_normal w) as [a Ha].
  rewrite Ht, Hl, Ha. simpl. intros H.
  exists t, l, a. repeat split; auto. congruence.
Qed.

(** Every run writes its state, whatever the gates say. *)
Lemma verify_always_writes opts w : exists st, wrote opts w st.
Proof.
  unfold wrote, Verify.main.
  destruct (runTests_normal opts w) as [t Ht].
  destruct (runLint_normal opts w) as [l Hl].
  destruct (runAudit_normal w) as [a Ha].
  rewrite Ht, Hl, Ha. simpl. eauto.
Qed.

(** [overallPass] is truthy exactly when its four operands are. *)
Lemma overallPass_truthy fileHashes t l a r :
  truthy (Verify.overallPass (Verify.summarize fileHashes t l a r)) = true <->
  truthy (Verify.passed t) = true /\ truthy (Verify.passed l) = true /\
  truthy (Verify.success a) = true /\ truthy (Verify.passed r) = true.
Proof.
  simpl. rewrite !truthy_js_and, !andb_true_iff. tauto.
Qed.

(** C6. When the captured output of the audit command contains neither
    [high] nor [critical], the audit gate has [success = true] whether the
    command returned or failed; that value is [auditPass], and [overallPass]
    is the conjunction of [testsPass], [lintPass], [auditPass] and
    [aiReviewPass], so it is truthy only if [auditPass] is. *)
Theorem audit_passes_without_high_or_critical opts w st result :
  wrote opts w st ->
  Verify.runCommand (Verify.exec w (str "npm audit --audit-level=high 2>&1"))
    = Normal result ->
  includes (Verify.cmd_output result) (str "high") = false ->
  includes (Verify.cmd_output result) (str "critical") = false ->
  Verify.success (Verify.audit st) = VBool true /\
  Verify.auditPass (Verify.summary st) = Verify.success (Verify.audit st) /\
  Verify.overallPass (Verify.summary st) =
    js_and (js_and (js_and (Verify.testsPass (Verify.summary st))
                           (Verify.lintPass (Verify.summary st)))
                   (Verify.auditPass (Verify.summary st)))
           (Verify.aiReviewPass (Verify.summary st)) /\
  (truthy (Verify.overallPass (Verify.summary st)) = true ->
   truthy (Verify.auditPass (Verify.summary st)) = true).
Proof.
  intros Hw Hr Hh Hc.
  destruct (wrote_inv _ _ _ Hw) as (t & l & a & Ht & Hl & Ha & ->).
  unfold Verify.runAudit in Ha. rewrite Hr in Ha. simpl in Ha.
  injection Ha as <-. simpl.
  unfold Verify.auditGate. simpl. rewrite Hh, Hc. simpl.
  repeat split; auto.
Qed.

End VerifyFacts.

Lemma audit_passes_without_high_or_critical_witness :
  exists st,
    wrote (RT := Reference.runtime) (Verify.parseOptions []) Scenario.auditFailsQuietly st /\
    Verify.success (Verify.audit st) = VBool true /\
    truthy (Verify.overallPass (Verify.summary st)) = true.
Proof.
  eexists. split; [reflexivity|].
  split.
  - refine (proj1 (audit_passes_without_high_or_critical (RT := Reference.runtime)
                     (Verify.parseOptions []) Scenario.auditFailsQuietly _ _
                     eq_refl eq_refl _ _)); vm_compute; reflexivity.
  - vm_compute. reflexivity.
Defined.

(** ** Options of the ship orchestrator *)

(** The state path does not depend on the arguments. *)
Lemma ship_statePath_constant (args : list jstring) :
  Ship.statePath (Ship.parseOptions args) = Ship.DEFAULT_STATE_PATH.
Proof. reflexivity. Qed.

(** The review script, for comparison, reads the argument after [--output]. *)
Lemma review_outputPath_read (before after : list jstring) (c : char) (path : jstring) :
  ~ In (str "--output") before ->
  AiReview.outputPath
    (AiReview.parseOptions (before ++ str "--output" :: (c :: path) :: after))
  = c :: path.
Proof.
  intros H. unfold AiReview.parseOptions. simpl AiReview.outputPath.
  assert (E : AiReview.argAfter (str "--output")
                (before ++ str "--output" :: (c :: path) :: after) = Some (c :: path)).
  { induction before as [|a before IH].
    - reflexivity.
    - simpl app. cbn [AiReview.argAfter].
      destruct (jstring_eqb a (str "--output")) eqn:E.
      + apply jstring_eqb_eq in E. exfalso. apply H. left. exact E.
      + apply IH. intros HI. apply H. right. exact HI. }
  rewrite E. reflexivity.
Qed.

(** C8. Run with [--state custom/verify-state.json], where that path holds
    a passing state and the default path holds nothing, ship still looks at
    the default path, reports that no state was found there and exits with
    code 1: the documented option is not read. *)
Theorem ship_ignores_state_option :
  Ship.statePath
    (Ship.parseOptions [str "--state"; str "custom/verify-state.json"])
  = Ship.DEFAULT_STATE_PATH /\
  Ship.main (RT := Reference.runtime)
    (Ship.parseOptions [str "--state"; str "custom/verify-state.json"])
    Scenario.customStateOnly
  = {| Ship.trace := [Ship.Banner; Ship.StateNotFound Ship.DEFAULT_STATE_PATH];
       Ship.exitCode := 1 |}.
Proof. split; vm_compute; reflexivity. Qed.

(** ** The review response parser *)

Lemma rmatch_seq {A} r1 r2 s cap (k : jstring -> option jstring -> option A) :
  AiReview.rmatch (AiReview.Seq r1 r2) s cap k = AiReview.rmatch r1 s cap (fun s1 cap1 => AiReview.rmatch r2 s1 cap1 k).
Proof. reflexivity. Qed.

Lemma rmatch_star_cons {A} p x t cap (k : jstring -> option jstring -> option A) :
  AiReview.rmatch (AiReview.Star p) (x :: t) cap k =
  if p x then
    match AiReview.rmatch (AiReview.Star p) t cap k with
    | Some a => Some a
    | None => k (x :: t) cap
    end
  else k (x :: t) cap.
Proof. reflexivity. Qed.

Lemma rmatch_starLazy_cons {A} p x t cap (k : jstring -> option jstring -> option A) :
  AiReview.rmatch (AiReview.StarLazy p) (x :: t) cap k =
  match k (x :: t) cap with
  | Some a => Some a
  | None => if p x then AiReview.rmatch (AiReview.StarLazy p) t cap k else None
  end.
Proof. reflexivity. Qed.

Lemma rmatch_lit {A} p s cap (k : jstring -> option jstring -> option A) :
  AiReview.rmatch (AiReview.lit p) s cap k =
  if startsWith p s then k (skipn (length p) s) cap else None.
Proof.
  revert s. induction p as [|a p IH]; intros s.
  - reflexivity.
  - destruct s as [|b s]; simpl; auto.
    rewrite (N.eqb_sym a b).
    destruct (N.eqb b a); simpl; auto.
Qed.

Lemma startsWith_app p t rest :
  startsWith p (t ++ rest) = true ->
  startsWith p t = true \/ (forall x, In x t -> In x p).
Proof.
  revert t. induction p as [|a p IH]; intros t H.
  - left. reflexivity.
  - destruct t as [|b t].
    + right. intros x [].
    + simpl in H. apply andb_true_iff in H. destruct H as [E H].
      apply N.eqb_eq in E. subst b.
      destruct (IH t H) as [L|R].
      * left. simpl. rewrite N.eqb_refl. exact L.
      * right. intros x [<-|Hx]; [left; reflexivity | right; auto].
Qed.

Lemma includes_tail c s p : includes (c :: s) p = false -> includes s p = false.
Proof. simpl. intros H. apply orb_false_iff in H. tauto. Qed.

Lemma includes_head s p : includes s p = false -> startsWith p s = false.
Proof. destruct s; simpl; intros H; apply orb_false_iff in H; tauto. Qed.

Lemma fenceEnd_fails_inside t rest :
  includes (t ++ [AiReview.rbrace]) fenceEnd = false ->
  startsWith fenceEnd ((t ++ [AiReview.rbrace]) ++ rest) = false.
Proof.
  intros H. destruct (startsWith fenceEnd ((t ++ [AiReview.rbrace]) ++ rest)) eqn:E; auto.
  apply startsWith_app in E. destruct E as [E|E].
  - apply includes_head in H. congruence.
  - exfalso. assert (I : In AiReview.rbrace fenceEnd) by (apply E, in_or_app; right; left; reflexivity).
    vm_compute in I. intuition discriminate.
Qed.

Lemma closing_fails {A} t rest cap (k : jstring -> option jstring -> option A) :
  includes (t ++ [AiReview.rbrace]) fenceEnd = false ->
  AiReview.rmatch closing ((t ++ [AiReview.rbrace]) ++ rest) cap k = None.
Proof.
  unfold closing. rewrite rmatch_seq.
  induction t as [|c t IH]; intros H.
  - simpl app. rewrite rmatch_star_cons.
    replace (isWhiteSpace AiReview.rbrace) with false by (vm_compute; reflexivity).
    rewrite rmatch_lit. reflexivity.
  - simpl app. rewrite rmatch_star_cons.
    rewrite IH by (eapply includes_tail; exact H).
    assert (F : AiReview.rmatch (AiReview.lit fenceEnd) (c :: (t ++ [AiReview.rbrace]) ++ rest) cap k = None).
    { rewrite rmatch_lit.
      change (c :: (t ++ [AiReview.rbrace]) ++ rest) with (((c :: t) ++ [AiReview.rbrace]) ++ rest).
      rewrite fenceEnd_fails_inside; auto. }
    destruct (isWhiteSpace c); exact F.
Qed.

Lemma closing_matches post cap :
  AiReview.rmatch closing (fenceEnd ++ post) cap finalK = Some cap.
Proof. reflexivity. Qed.

Lemma lazy_reaches_last_brace body post cap (F : jstring -> option jstring) :
  includes (body ++ [AiReview.rbrace]) fenceEnd = false ->
  AiReview.rmatch (AiReview.StarLazy AiReview.anyChar) ((body ++ [AiReview.rbrace]) ++ fenceEnd ++ post) cap
    (fun s1 c1 => AiReview.rmatch (AiReview.Chr AiReview.rbrace) s1 c1
       (fun s2 _ => AiReview.rmatch closing s2 (F s2) finalK))
  = Some (F (fenceEnd ++ post)).
Proof.
  induction body as [|c body IH]; intros H.
  - change (([] ++ [AiReview.rbrace]) ++ fenceEnd ++ post) with (AiReview.rbrace :: fenceEnd ++ post).
    rewrite rmatch_starLazy_cons.
    cbn [AiReview.rmatch]. rewrite N.eqb_refl.
    rewrite closing_matches. reflexivity.
  - change (((c :: body) ++ [AiReview.rbrace]) ++ fenceEnd ++ post)
      with (c :: (body ++ [AiReview.rbrace]) ++ fenceEnd ++ post).
    rewrite rmatch_starLazy_cons.
    assert (E : AiReview.rmatch (AiReview.Chr AiReview.rbrace) (c :: (body ++ [AiReview.rbrace]) ++ fenceEnd ++ post) cap
                  (fun s2 _ => AiReview.rmatch closing s2 (F s2) finalK) = None).
    { cbn [AiReview.rmatch]. destruct (N.eqb c AiReview.rbrace); auto.
      apply closing_fails. eapply includes_tail. exact H. }
    rewrite E. unfold AiReview.anyChar at 1. apply IH. eapply includes_tail. exact H.
Qed.

Lemma firstn_app_exact {A} (a b : list A) : firstn (length (a ++ b) - length b) (a ++ b) = a.
Proof.
  rewrite length_app. replace (length a + length b - length b) with (length a) by lia.
  rewrite firstn_app, Nat.sub_diag, firstn_all. simpl. apply app_nil_r.
Qed.

Lemma group_captures_payload body post cap :
  includes (AiReview.lbrace :: body ++ [AiReview.rbrace]) fenceEnd = false ->
  AiReview.rmatch (AiReview.Seq (AiReview.Group (AiReview.Seq (AiReview.Chr AiReview.lbrace) (AiReview.Seq (AiReview.StarLazy AiReview.anyChar) (AiReview.Chr AiReview.rbrace)))) closing)
    ((AiReview.lbrace :: body ++ [AiReview.rbrace]) ++ fenceEnd ++ post) cap finalK
  = Some (Some (AiReview.lbrace :: body ++ [AiReview.rbrace])).
Proof.
  intros H.
  rewrite rmatch_seq.
  set (s := (AiReview.lbrace :: body ++ [AiReview.rbrace]) ++ fenceEnd ++ post).
  change (AiReview.rmatch (AiReview.Seq (AiReview.Chr AiReview.lbrace) (AiReview.Seq (AiReview.StarLazy AiReview.anyChar) (AiReview.Chr AiReview.rbrace))) s cap
            (fun s1 _ => AiReview.rmatch closing s1 (Some (firstn (length s - length s1) s)) finalK)
          = Some (Some (AiReview.lbrace :: body ++ [AiReview.rbrace]))).
  rewrite rmatch_seq. unfold s at 1.
  change ((AiReview.lbrace :: body ++ [AiReview.rbrace]) ++ fenceEnd ++ post)
    with (AiReview.lbrace :: (body ++ [AiReview.rbrace]) ++ fenceEnd ++ post).
  cbn [AiReview.rmatch]. rewrite N.eqb_refl.
  change (AiReview.rmatch (AiReview.Seq (AiReview.StarLazy AiReview.anyChar) (AiReview.Chr AiReview.rbrace)) ((body ++ [AiReview.rbrace]) ++ fenceEnd ++ post) cap
            (fun s1 _ => AiReview.rmatch closing s1 (Some (firstn (length s - length s1) s)) finalK)
          = Some (Some (AiReview.lbrace :: body ++ [AiReview.rbrace]))).
  rewrite rmatch_seq.
  rewrite (lazy_reaches_last_brace body post cap
             (fun s2 => Some (firstn (length s - length s2) s)))
    by (eapply includes_tail; exact H).
  unfold s. rewrite firstn_app_exact. reflexivity.
Qed.

Lemma rmatch_chr_cons {A} c x s cap (k : jstring -> option jstring -> option A) :
  AiReview.rmatch (AiReview.Chr c) (x :: s) cap k = if N.eqb x c then k s cap else None.
Proof. reflexivity. Qed.

Lemma rmatch_opt {A} r s cap (k : jstring -> option jstring -> option A) :
  AiReview.rmatch (AiReview.Opt r) s cap k =
  match AiReview.rmatch r s cap k with
  | Some a => Some a
  | None => k s cap
  end.
Proof. reflexivity. Qed.

Lemma startsWith_self p r : startsWith p (p ++ r) = true.
Proof. induction p as [|a p IH]; simpl; auto. rewrite N.eqb_refl. exact IH. Qed.

Lemma skipn_self {A} (p r : list A) : skipn (length p) (p ++ r) = r.
Proof. induction p; simpl; auto. Qed.

Lemma after_tag body post :
  includes (AiReview.lbrace :: body ++ [AiReview.rbrace]) fenceEnd = false ->
  AiReview.rmatch afterTag
    (AiReview.newline :: (AiReview.lbrace :: body ++ [AiReview.rbrace]) ++ fenceEnd ++ post) None finalK
  = Some (Some (AiReview.lbrace :: body ++ [AiReview.rbrace])).
Proof.
  intros H. unfold afterTag.
  rewrite rmatch_seq, rmatch_star_cons.
  replace (isWhiteSpace AiReview.newline) with true by (vm_compute; reflexivity).
  change ((AiReview.lbrace :: body ++ [AiReview.rbrace]) ++ fenceEnd ++ post)
    with (AiReview.lbrace :: (body ++ [AiReview.rbrace]) ++ fenceEnd ++ post) at 1.
  rewrite rmatch_star_cons.
  replace (isWhiteSpace AiReview.lbrace) with false by (vm_compute; reflexivity).
  rewrite rmatch_seq, rmatch_chr_cons.
  replace (N.eqb AiReview.lbrace AiReview.newline) with false by (vm_compute; reflexivity).
  rewrite rmatch_seq, rmatch_chr_cons, N.eqb_refl.
  apply group_captures_payload. exact H.
Qed.

Lemma fence_matches tag body post :
  tag = [] \/ tag = str "json" ->
  includes (AiReview.lbrace :: body ++ [AiReview.rbrace]) fenceEnd = false ->
  AiReview.regex_match AiReview.fenceRegex (fenced tag (AiReview.lbrace :: body ++ [AiReview.rbrace]) post)
  = Some (Some (AiReview.lbrace :: body ++ [AiReview.rbrace])).
Proof.
  intros Ht H.
  assert (E : AiReview.rmatch AiReview.fenceRegex (fenced tag (AiReview.lbrace :: body ++ [AiReview.rbrace]) post) None finalK
              = Some (Some (AiReview.lbrace :: body ++ [AiReview.rbrace]))).
  { change AiReview.fenceRegex
      with (AiReview.Seq (AiReview.lit (str "```")) (AiReview.Seq (AiReview.Opt (AiReview.lit (str "json"))) afterTag)).
    unfold fenced.
    rewrite rmatch_seq, rmatch_lit, startsWith_self, skipn_self.
    rewrite rmatch_seq, rmatch_opt.
    destruct Ht as [-> | ->].
    - rewrite rmatch_lit.
      change (startsWith (str "json")
                ([] ++ AiReview.newline :: (AiReview.lbrace :: body ++ [AiReview.rbrace]) ++ fenceEnd ++ post))
        with false.
      change ([] ++ AiReview.newline :: (AiReview.lbrace :: body ++ [AiReview.rbrace]) ++ fenceEnd ++ post)
        with (AiReview.newline :: (AiReview.lbrace :: body ++ [AiReview.rbrace]) ++ fenceEnd ++ post).
      apply after_tag. exact H.
    - rewrite rmatch_lit, startsWith_self, skipn_self.
      rewrite (after_tag body post H). reflexivity. }
  destruct (fenced tag (AiReview.lbrace :: body ++ [AiReview.rbrace]) post) eqn:F.
  - unfold AiReview.regex_match. fold finalK. rewrite E. reflexivity.
  - cbn [AiReview.regex_match]. fold finalK. rewrite E. reflexivity.
Qed.

(** Prose without a backtick before the fence does not change the match:
    the expression cannot start inside it. *)
Lemma fence_matches_after_prose prose tag body post :
  ~ In AiReview.backtick prose ->
  tag = [] \/ tag = str "json" ->
  includes (AiReview.lbrace :: body ++ [AiReview.rbrace]) fenceEnd = false ->
  AiReview.regex_match AiReview.fenceRegex
    (prose ++ fenced tag (AiReview.lbrace :: body ++ [AiReview.rbrace]) post)
  = Some (Some (AiReview.lbrace :: body ++ [AiReview.rbrace])).
Proof.
  intros Hp Ht H. induction prose as [|c prose IH].
  - apply fence_matches; assumption.
  - cbn [app AiReview.regex_match].
    assert (E : AiReview.rmatch AiReview.fenceRegex
                  (c :: prose ++ fenced tag (AiReview.lbrace :: body ++ [AiReview.rbrace]) post)
                  None (fun _ cap => Some cap) = None).
    { change AiReview.fenceRegex
        with (AiReview.Seq (AiReview.lit (str "```"))
                (AiReview.Seq (AiReview.Opt (AiReview.lit (str "json"))) afterTag)).
      rewrite rmatch_seq, rmatch_lit.
      assert (S : startsWith (str "```")
                    (c :: prose ++ fenced tag (AiReview.lbrace :: body ++ [AiReview.rbrace]) post)
                  = false).
      { cbn [str list_ascii_of_string map startsWith].
        change (N_of_ascii "`") with AiReview.backtick.
        destruct (N.eqb_spec AiReview.backtick c) as [<-|Hne]; [|reflexivity].
        exfalso. apply Hp. left. reflexivity. }
      rewrite S. reflexivity. }
    rewrite E. apply IH. intros Hin. apply Hp. right. exact Hin.
Qed.

Lemma nestedb_sound s : nestedb 0 s = true -> properly_nested s.
Proof.
  assert (G : forall s d, nestedb d s = true ->
            s <> [] /\ (d + depth s = 0)%Z /\
            forall p q, s = p ++ q -> p <> [] -> q <> [] -> (0 < d + depth p)%Z).
  { clear s. induction s as [|c s IH]; intros d H; [discriminate|].
    cbn [nestedb] in H. destruct s as [|c2 s2].
    - apply Z.eqb_eq in H. split; [discriminate|]. split.
      + simpl. lia.
      + intros p q E Hp Hq. destruct p as [|x p]; [contradiction|].
        injection E as _ E. symmetry in E. apply app_eq_nil in E.
        destruct E as [_ E]. contradiction.
    - apply andb_true_iff in H. destruct H as [H1 H2].
      apply Z.ltb_lt in H1. destruct (IH _ H2) as (_ & D & P).
      split; [discriminate|]. split.
      + cbn [depth] in *. lia.
      + intros p q E Hp Hq. destruct p as [|x p]; [contradiction|].
        injection E as <- E. destruct p as [|y p].
        * simpl. lia.
        * assert (0 < d + braceStep c + depth (y :: p))%Z.
          { apply (P (y :: p) q); auto; discriminate. }
          cbn [depth] in *. lia. }
  intros H. destruct (G s 0%Z H) as (A & B & C).
  split; [exact A | split; [exact B | exact C]].
Qed.

Lemma balancedPrefix_whole s : forall d,
  s <> [] -> (d + depth s = 0)%Z ->
  (forall p q, s = p ++ q -> p <> [] -> q <> [] -> (0 < d + depth p)%Z) ->
  forall post, AiReview.balancedPrefix d (s ++ post) = Some s.
Proof.
  induction s as [|c s IH]; intros d Hne Hd Hp post; [contradiction|].
  simpl app. cbn [AiReview.balancedPrefix].
  fold (braceStep c).
  change (if N.eqb c AiReview.lbrace then (d + 1)%Z else if N.eqb c AiReview.rbrace then (d - 1)%Z else d)
    with (if N.eqb c AiReview.lbrace then (d + 1)%Z else if N.eqb c AiReview.rbrace then (d - 1)%Z else d).
  assert (E : (if N.eqb c AiReview.lbrace then (d + 1)%Z
               else if N.eqb c AiReview.rbrace then (d - 1)%Z else d) = (d + braceStep c)%Z).
  { unfold braceStep. destruct (N.eqb c AiReview.lbrace); [lia|].
    destruct (N.eqb c AiReview.rbrace); lia. }
  rewrite E. destruct s as [|c2 s2].
  - simpl in Hd. replace (d + braceStep c)%Z with 0%Z by lia. reflexivity.
  - assert (0 < d + braceStep c)%Z.
    { specialize (Hp [c] (c2 :: s2) eq_refl). simpl in Hp.
      assert (0 < d + (braceStep c + 0))%Z by (apply Hp; discriminate). lia. }
    destruct (Z.eqb_spec (d + braceStep c) 0); [lia|].
    rewrite IH; auto.
    + discriminate.
    + cbn [depth] in *. lia.
    + intros p q Es Hpne Hq.
      specialize (Hp (c :: p) q). cbn [depth] in Hp.
      assert (0 < d + (braceStep c + depth p))%Z.
      { apply Hp; auto; [simpl; rewrite Es; reflexivity | discriminate]. }
      lia.
Qed.

Lemma indexOf_first c prose rest :
  indexOf c prose = None -> indexOf c (prose ++ c :: rest) = Some (length prose).
Proof.
  induction prose as [|x prose IH]; simpl; intros H.
  - rewrite N.eqb_refl. reflexivity.
  - destruct (N.eqb x c); [discriminate|].
    destruct (indexOf c prose); [discriminate|].
    rewrite IH; auto.
Qed.

Lemma trimStart_nonspace c s : isWhiteSpace c = false -> trimStart (c :: s) = c :: s.
Proof. intros H. simpl. rewrite H. reflexivity. Qed.

Lemma trimEnd_nonspace c s : isWhiteSpace c = false -> trimEnd (s ++ [c]) = s ++ [c].
Proof.
  intros H. unfold trimEnd. rewrite rev_app_distr.
  change (rev [c] ++ rev s) with (c :: rev s).
  rewrite trimStart_nonspace by exact H.
  change (rev (c :: rev s)) with (rev (rev s) ++ [c]).
  rewrite rev_involutive. reflexivity.
Qed.

Lemma trim_braces body : trim (AiReview.lbrace :: body ++ [AiReview.rbrace]) = AiReview.lbrace :: body ++ [AiReview.rbrace].
Proof.
  unfold trim.
  rewrite trimStart_nonspace by (vm_compute; reflexivity).
  change (AiReview.lbrace :: body ++ [AiReview.rbrace]) with ((AiReview.lbrace :: body) ++ [AiReview.rbrace]).
  apply trimEnd_nonspace. vm_compute. reflexivity.
Qed.

Section ParserFacts.
Context {RT : Runtime}.

Lemma strategy3_recovers prose body post :
  indexOf AiReview.lbrace prose = None ->
  properly_nested (AiReview.lbrace :: body) ->
  AiReview.strategy3 (prose ++ (AiReview.lbrace :: body) ++ post) = JSON_parse (AiReview.lbrace :: body).
Proof.
  intros Hi (Hne & Hd & Hp). unfold AiReview.strategy3.
  change (prose ++ (AiReview.lbrace :: body) ++ post) with (prose ++ AiReview.lbrace :: body ++ post).
  rewrite indexOf_first by exact Hi.
  rewrite skipn_self.
  change (AiReview.lbrace :: body ++ post) with ((AiReview.lbrace :: body) ++ post).
  rewrite balancedPrefix_whole; auto.
Qed.

(** C3. The strategies are tried in order and the first success is
    returned. (1) A response whose trimmed text parses is answered by
    strategy 1. (2) For a payload in braces that parses and holds no fence
    line, wrapped in a fenced block with no tag or the tag [json] that
    stands anywhere after prose without a backtick: strategy 1 answers the
    bare payload, and on the wrapped text, where strategy 1 fails, strategy
    2 captures exactly the payload and returns the same value. (3) For a
    payload whose braces, those inside its strings included, are properly
    nested, embedded in prose without a brace before it, where strategies 1
    and 2 fail: the depth tracking of strategy 3 stops exactly at the end of
    the payload, whatever follows, and its value is returned. The two
    conditions of (3) are needed, as the counterexample after the witness
    shows. *)
Theorem parse_strategies_in_order :
  (forall response v,
     AiReview.strategy1 response = Some v ->
     AiReview.parseGeminiResponse (VStr response) = Normal v)
  /\
  (forall prose tag body post v,
     let payload := AiReview.lbrace :: body ++ [AiReview.rbrace] in
     let response := prose ++ fenced tag payload post in
     ~ In AiReview.backtick prose ->
     tag = [] \/ tag = str "json" ->
     includes payload fenceEnd = false ->
     JSON_parse payload = Some v ->
     AiReview.strategy1 response = None ->
     AiReview.strategy1 payload = Some v /\
     AiReview.regex_match AiReview.fenceRegex response = Some (Some payload) /\
     AiReview.strategy2 response = Some v /\
     AiReview.parseGeminiResponse (VStr response)
       = AiReview.parseGeminiResponse (VStr payload))
  /\
  (forall prose body post v,
     let payload := AiReview.lbrace :: body ++ [AiReview.rbrace] in
     let response := prose ++ payload ++ post in
     indexOf AiReview.lbrace prose = None ->
     properly_nested payload ->
     JSON_parse payload = Some v ->
     AiReview.strategy1 response = None ->
     AiReview.strategy2 response = None ->
     AiReview.balancedPrefix 0 (skipn (length prose) response) = Some payload /\
     AiReview.strategy3 response = Some v /\
     AiReview.parseGeminiResponse (VStr response) = Normal v).
Proof.
  split; [|split].
  - intros response v H. simpl. unfold AiReview.parseString. rewrite H. reflexivity.
  - intros prose tag body post v payload response Hp Ht Hf Hv H1.
    assert (P1 : AiReview.strategy1 payload = Some v).
    { unfold AiReview.strategy1, payload. rewrite trim_braces. exact Hv. }
    assert (M : AiReview.regex_match AiReview.fenceRegex response = Some (Some payload)).
    { apply fence_matches_after_prose; assumption. }
    assert (P2 : AiReview.strategy2 response = Some v).
    { unfold AiReview.strategy2. rewrite M. exact Hv. }
    repeat split; auto.
    simpl. unfold AiReview.parseString. rewrite H1, P2, P1. reflexivity.
  - intros prose body post v payload response Hi Hn Hv H1 H2.
    assert (B : AiReview.balancedPrefix 0 (skipn (length prose) response) = Some payload).
    { unfold response. rewrite skipn_self.
      destruct Hn as (Hne & Hd & Hp). apply balancedPrefix_whole; auto. }
    assert (P3 : AiReview.strategy3 response = Some v).
    { unfold response, payload.
      change (AiReview.lbrace :: body ++ [AiReview.rbrace])
        with (AiReview.lbrace :: (body ++ [AiReview.rbrace])).
      rewrite strategy3_recovers; auto. }
    repeat split; auto.
    simpl. unfold AiReview.parseString. rewrite H1, H2, P3. reflexivity.
Qed.

(** C7. On a string the parser always returns a verdict, and when the
    three strategies fail that verdict is
    [{ summary: response, issues: [], raw: true }]: the raw text as the
    summary, no issues, and the [raw] mark. *)
Theorem parse_total_with_raw_fallback (response : jstring) :
  (exists verdict, AiReview.parseGeminiResponse (VStr response) = Normal verdict) /\
  (AiReview.strategy1 response = None ->
   AiReview.strategy2 response = None ->
   AiReview.strategy3 response = None ->
   exists verdict,
     AiReview.parseGeminiResponse (VStr response) = Normal verdict /\
     verdict = VObj [(str "summary", VStr response);
                     (str "issues", VArr []);
                     (str "raw", VBool true)] /\
     getProp verdict (str "summary") = Normal (VStr response) /\
     getProp verdict (str "issues") = Normal (VArr []) /\
     getProp verdict (str "raw") = Normal (VBool true)).
Proof.
  split.
  - simpl. eauto.
  - intros H1 H2 H3. eexists. split.
    + simpl. unfold AiReview.parseString. rewrite H1, H2, H3. reflexivity.
    + repeat split.
Qed.

End ParserFacts.

Lemma parse_strategies_in_order_witness :
  AiReview.parseGeminiResponse (RT := Reference.runtime) (VStr Scenario.verdictText)
    = Normal Scenario.verdictValue /\
  AiReview.parseGeminiResponse (RT := Reference.runtime)
    (VStr (Scenario.proseBefore
             ++ fenced (str "json") Scenario.verdictText Scenario.proseAfter))
    = Normal Scenario.verdictValue /\
  AiReview.parseGeminiResponse (RT := Reference.runtime)
    (VStr (Scenario.proseBefore ++ Scenario.verdictText ++ Scenario.proseAfter))
    = Normal Scenario.verdictValue.
Proof.
  destruct (parse_strategies_in_order (RT := Reference.runtime)) as (P1 & P2 & P3).
  assert (V : JSON_parse (Runtime := Reference.runtime) Scenario.verdictText
              = Some Scenario.verdictValue) by (vm_compute; reflexivity).
  split; [|split].
  - apply P1. vm_compute. reflexivity.
  - destruct (P2 Scenario.proseBefore (str "json") Scenario.verdictBody Scenario.proseAfter
                 Scenario.verdictValue) as (A & _ & _ & D).
    + vm_compute. intuition discriminate.
    + right. reflexivity.
    + vm_compute. reflexivity.
    + exact V.
    + vm_compute. reflexivity.
    + unfold Scenario.verdictText. rewrite D. apply P1. exact A.
  - apply (P3 Scenario.proseBefore Scenario.verdictBody Scenario.proseAfter
              Scenario.verdictValue).
    + vm_compute. reflexivity.
    + apply nestedb_sound. vm_compute. reflexivity.
    + exact V.
    + vm_compute. reflexivity.
    + vm_compute. reflexivity.
Defined.

(** C3, as stated, fails. A payload that parses, embedded in prose, is
    not recovered by strategy 3 when the prose
    before it holds a brace: the scan starts at the first opening brace of
    the response and returns the first balanced run, here the empty object,
    and the verdict of tier [CRITICAL] is lost. Nor is it recovered when a
    string value of the payload holds a lone closing brace: the run ends
    there, does not parse, and the parser falls back to the raw text. *)
Theorem strategy3_loses_the_payload :
  JSON_parse (Runtime := Reference.runtime) Scenario.criticalPayload
    = Some Scenario.criticalVerdict /\
  AiReview.strategy1 (RT := Reference.runtime)
    (Scenario.bracedProse ++ Scenario.criticalPayload) = None /\
  AiReview.strategy2 (RT := Reference.runtime)
    (Scenario.bracedProse ++ Scenario.criticalPayload) = None /\
  AiReview.parseGeminiResponse (RT := Reference.runtime)
    (VStr (Scenario.bracedProse ++ Scenario.criticalPayload)) = Normal (VObj []) /\
  JSON_parse (Runtime := Reference.runtime) Scenario.loneBracePayload
    = Some Scenario.loneBraceVerdict /\
  AiReview.parseGeminiResponse (RT := Reference.runtime)
    (VStr (Scenario.proseBefore ++ Scenario.loneBracePayload ++ Scenario.proseAfter))
  = Normal (AiReview.rawVerdict
              (Scenario.proseBefore ++ Scenario.loneBracePayload ++ Scenario.proseAfter)).
Proof. vm_compute. repeat split; reflexivity. Qed.

Lemma parse_total_with_raw_fallback_witness :
  AiReview.parseGeminiResponse (RT := Reference.runtime)
    (VStr (str "The change looks fine to me."))
  = Normal (VObj [(str "summary", VStr (str "The change looks fine to me."));
                  (str "issues", VArr []);
                  (str "raw", VBool true)]).
Proof.
  assert (S1 : AiReview.strategy1 (RT := Reference.runtime)
                 (str "The change looks fine to me.") = None)
    by (vm_compute; reflexivity).
  assert (S2 : AiReview.strategy2 (RT := Reference.runtime)
                 (str "The change looks fine to me.") = None)
    by (vm_compute; reflexivity).
  assert (S3 : AiReview.strategy3 (RT := Reference.runtime)
                 (str "The change looks fine to me.") = None)
    by (vm_compute; reflexivity).
  destruct (proj2 (parse_total_with_raw_fallback (RT := Reference.runtime)
                     (str "The change looks fine to me.")) S1 S2 S3)
    as (verdict & E & -> & _).
  exact E.
Defined.

(** A closing brace alone in a string value ends the scan of strategy 3
    early; the run that it bounds does not parse and the verdict degrades
    to the raw text. *)
Example lone_brace_in_string_degrades :
  AiReview.parseGeminiResponse (RT := Reference.runtime)
    (VStr (str "Review: " ++ quoted "{'summary':'missing } here','issues':[]}"))
  = Normal (AiReview.rawVerdict
              (str "Review: " ++ quoted "{'summary':'missing } here','issues':[]}")).
Proof. vm_compute. reflexivity. Qed.

(** ** The ship orchestrator *)

Lemma no_release_app (a b : list Ship.event) :
  no_release (a ++ b) <-> no_release a /\ no_release b.
Proof.
  unfold no_release. split.
  - intros H. split; intros e He; apply H, in_or_app; auto.
  - intros [Ha Hb] e He. apply in_app_or in He. destruct He; auto.
Qed.

Lemma no_release_map {A} (f : A -> Ship.event) (l : list A) :
  (forall x, release_event (f x) = false) -> no_release (map f l).
Proof.
  intros H e He. apply in_map_iff in He. destruct He as [x [<- _]]. apply H.
Qed.

Lemma no_release_cons (e : Ship.event) (t : list Ship.event) :
  release_event e = false -> no_release t -> no_release (e :: t).
Proof. intros He Ht x [<-|Hx]; auto. Qed.

Lemma no_release_nil : no_release [].
Proof. intros e []. Qed.

Lemma persist_falsy (v : value) : truthy v = false -> truthy (persist v) = false.
Proof.
  destruct v; simpl; auto; try discriminate.
  intros H. destruct (PrimFloat.is_nan f || PrimFloat.is_infinity f); [reflexivity|].
  destruct (PrimFloat.is_zero f); [reflexivity|exact H].
Qed.

Section ShipFacts.
Context {RT : Runtime}.

(** The loop of [verifyFileIntegrity] in closed form. *)
Lemma checkEntries_closed (disk : filesystem) (entries : list (jstring * jstring)) :
  forall results,
    Ship.checkEntries disk entries results =
    {| Ship.verified := Ship.verified results + length (filter (isVerified disk) entries);
       Ship.modified := Ship.modified results
                          ++ map (modificationOf disk) (filter (isModified disk) entries);
       Ship.missing := Ship.missing results
                         ++ map fst (filter (isMissing disk) entries);
       Ship.total := Ship.total results |}.
Proof.
  induction entries as [|[f h] entries IH]; intros results.
  - destruct results. simpl. rewrite Nat.add_0_r, !app_nil_r. reflexivity.
  - cbn [Ship.checkEntries]. rewrite IH.
    unfold isVerified, isModified, isMissing. cbn [filter fst snd].
    destruct (Ship.existsSync disk f); cbn [negb andb].
    + destruct (Ship.sameHash (Ship.hashFile disk f) h); cbn [negb].
      * cbn [Ship.verified Ship.modified Ship.missing Ship.total length].
        f_equal. lia.
      * cbn [Ship.verified Ship.modified Ship.missing Ship.total map].
        rewrite <- app_assoc. reflexivity.
    + cbn [Ship.verified Ship.modified Ship.missing Ship.total map fst].
      rewrite <- app_assoc. reflexivity.
Qed.

Lemma integrity_closed (s : Ship.state) (disk : filesystem) :
  Ship.verifyFileIntegrity s disk =
  {| Ship.verified := length (filter (isVerified disk) (Ship.hashes s));
     Ship.modified := map (modificationOf disk) (filter (isModified disk) (Ship.hashes s));
     Ship.missing := map fst (filter (isMissing disk) (Ship.hashes s));
     Ship.total := length (Ship.hashes s) |}.
Proof. unfold Ship.verifyFileIntegrity. rewrite checkEntries_closed. reflexivity. Qed.

(** The gates pass exactly when the four flags that are checked are truthy. *)
Lemma gatesPass_flags (s : Ship.state) :
  Ship.gatesPass (Ship.checkGates s) = false <-> checked_flag_false s.
Proof.
  unfold Ship.gatesPass, Ship.checkGates, checked_flag_false, Ship.flag.
  cbn [forallb snd]. rewrite !truthy_js_or. cbn [truthy].
  rewrite !orb_false_r, andb_true_r.
  destruct (Ship.summary s) as [sm|]; cbn [truthy].
  - destruct (truthy (Ship.overallPass sm)), (truthy (Ship.testsPass sm)),
      (truthy (Ship.lintPass sm)), (truthy (Ship.auditPass sm)); cbn; intuition congruence.
  - cbn. tauto.
Qed.

Ltac no_release_tac :=
  repeat first
    [ apply no_release_nil
    | apply no_release_cons; [reflexivity|]
    | apply no_release_app; split
    | apply no_release_map; intros; reflexivity
    | match goal with
      | |- no_release (if ?b then _ else _) => destruct b
      | |- no_release (Ship.gateEvents _) => unfold Ship.gateEvents
      end ].

(** The run, when the state loads and a checked flag is false. *)
Lemma main_gates_fail (opts : Ship.options) (w : Ship.world) (s : Ship.state) :
  Ship.stateAt w (Ship.statePath opts) = Ship.StateFile s ->
  Ship.gatesPass (Ship.checkGates s) = false ->
  Ship.exitCode (Ship.main opts w) = 1%Z /\
  no_release (Ship.trace (Ship.main opts w)) /\
  forall e, In e (Ship.trace (Ship.main opts w)) ->
            forall m, e <> Ship.ModifiedReport m.
Proof.
  intros Hs Hg. unfold Ship.main, Ship.loadVerifyState. rewrite Hs, Hg.
  cbn [negb Ship.exitCode Ship.trace]. split; [reflexivity|]. split.
  - no_release_tac.
  - intros e He m ->.
    repeat (apply in_app_or in He; destruct He as [He|He]);
      try (destruct (Ship.dryRun opts)); try (destruct (Ship.stale w s));
      cbn in He; intuition try discriminate.
Qed.

(** The run, when the gates pass. *)
Lemma main_after_gates (opts : Ship.options) (w : Ship.world) (s : Ship.state) :
  Ship.stateAt w (Ship.statePath opts) = Ship.StateFile s ->
  Ship.gatesPass (Ship.checkGates s) = true ->
  let ir := Ship.verifyFileIntegrity s (Ship.fs w) in
  (Ship.modified ir <> [] ->
   Ship.exitCode (Ship.main opts w) = 1%Z /\
   no_release (Ship.trace (Ship.main opts w)) /\
   forall m, In m (Ship.modified ir) ->
             In (Ship.ModifiedReport m) (Ship.trace (Ship.main opts w))) /\
  (Ship.modified ir = [] -> Ship.missing ir <> [] ->
   Ship.exitCode (Ship.main opts w) = 1%Z /\
   no_release (Ship.trace (Ship.main opts w)) /\
   forall f, In f (Ship.missing ir) ->
             In (Ship.MissingReport f) (Ship.trace (Ship.main opts w))).
Proof.
  intros Hs Hg ir. unfold Ship.main, Ship.loadVerifyState. rewrite Hs, Hg.
  cbn [negb]. fold ir. split.
  - intros Hm. destruct (Ship.modified ir) as [|m0 ms] eqn:E; [contradiction|].
    cbn [Ship.exitCode Ship.trace]. split; [reflexivity|]. split.
    + no_release_tac.
    + intros m Hin. apply in_or_app. right. apply in_map. exact Hin.
  - intros Hm Hx. rewrite Hm.
    destruct (Ship.missing ir) as [|f0 fs] eqn:E; [contradiction|].
    cbn [Ship.exitCode Ship.trace]. split; [reflexivity|]. split.
    + no_release_tac.
    + intros f Hin. apply in_or_app. right. apply in_map. exact Hin.
Qed.

(** In a state written by verify, a false [aiReviewPass] comes with a false
    [overallPass]. *)
Lemma written_review_flag vopts vw st sm :
  wrote vopts vw st ->
  Ship.summary (Ship.load st) = Some sm ->
  truthy (Ship.aiReviewPass sm) = false ->
  checked_flag_false (Ship.load st).
Proof.
  intros Hw Hsm Hai.
  destruct (wrote_inv _ _ _ Hw) as (t & l & a & _ & _ & _ & ->).
  unfold checked_flag_false. cbn in Hsm |- *. injection Hsm as <-.
  cbn in Hai |- *. left.
  set (x := js_and (js_and (Verify.passed t) (Verify.passed l)) (Verify.success a)) in *.
  unfold js_and at 1. destruct (truthy x) eqn:Ex.
  - exact Hai.
  - apply persist_falsy. exact Ex.
Qed.

(** A run that fails the gate check or the integrity check exits with
    code 1 before anything of the release action. *)
Lemma denied_run (opts : Ship.options) (w : Ship.world) (s : Ship.state) :
  Ship.stateAt w (Ship.statePath opts) = Ship.StateFile s ->
  (checked_flag_false s
   \/ Ship.modified (Ship.verifyFileIntegrity s (Ship.fs w)) <> []
   \/ Ship.missing (Ship.verifyFileIntegrity s (Ship.fs w)) <> []) ->
  Ship.exitCode (Ship.main opts w) = 1%Z /\
  no_release (Ship.trace (Ship.main opts w)).
Proof.
  intros Hs Hd. destruct (Ship.gatesPass (Ship.checkGates s)) eqn:Hg.
  - destruct Hd as [Hf|Hd].
    + apply gatesPass_flags in Hf. congruence.
    + destruct (main_after_gates opts w s Hs Hg) as [Hmod Hmis].
      destruct (Ship.modified (Ship.verifyFileIntegrity s (Ship.fs w))) eqn:E.
      * destruct Hd as [Hd|Hd]; [contradiction|].
        destruct (Hmis eq_refl Hd) as (A & B & _). auto.
      * destruct Hmod as (A & B & _); [discriminate|]. auto.
  - destruct (main_gates_fail opts w s Hs Hg) as (A & B & _). auto.
Qed.

(** C5. A ship run whose state loads and that is denied exits with code 1,
    and nothing of the release action happens before: no command of
    [createPullRequest] is run, no pull request is created and no dry-run
    line is printed. It is denied when a flag of the summary is false or
    absent ([overallPass], [testsPass], [lintPass], [auditPass], and
    [aiReviewPass] in a state that verify wrote) or when a file of the
    snapshot is modified or missing. *)
Theorem denied_never_releases (opts : Ship.options) (w : Ship.world) (s : Ship.state) :
  Ship.stateAt w (Ship.statePath opts) = Ship.StateFile s ->
  (checked_flag_false s
   \/ (exists vopts vw st sm,
         wrote vopts vw st /\ s = Ship.load st /\
         Ship.summary s = Some sm /\ truthy (Ship.aiReviewPass sm) = false)
   \/ Ship.modified (Ship.verifyFileIntegrity s (Ship.fs w)) <> []
   \/ Ship.missing (Ship.verifyFileIntegrity s (Ship.fs w)) <> []) ->
  Ship.exitCode (Ship.main opts w) = 1%Z /\
  no_release (Ship.trace (Ship.main opts w)).
Proof.
  intros Hs Hd. apply (denied_run opts w s Hs).
  destruct Hd as [H|[H|H]]; auto.
  destruct H as (vopts & vw & st & sm & Hw & -> & Hsm & Hai).
  left. eapply written_review_flag; eauto.
Qed.

(** C4 (amended). In a ship run whose state loads and whose checked flags
    are all true: a file of the snapshot that exists and whose current
    digest differs from the recorded one is classified as modified and
    reported with the first eight characters of the expected and of the
    actual digest; a file of the snapshot that is absent is classified as
    missing, and reported when no file is modified; either way the run
    exits with code 1 and nothing of the release action happens. *)
Theorem integrity_violation_denies (opts : Ship.options) (w : Ship.world) (s : Ship.state) :
  Ship.stateAt w (Ship.statePath opts) = Ship.StateFile s ->
  Ship.gatesPass (Ship.checkGates s) = true ->
  let ir := Ship.verifyFileIntegrity s (Ship.fs w) in
  let r := Ship.main opts w in
  (forall f h,
     In (f, h) (Ship.hashes s) ->
     Ship.existsSync (Ship.fs w) f = true ->
     Ship.sameHash (Ship.hashFile (Ship.fs w) f) h = false ->
     let report :=
       {| Ship.mod_file := f;
          Ship.expected := substring0 8 h ++ str "...";
          Ship.actual := Ship.actualPrefix (Ship.hashFile (Ship.fs w) f) |} in
     In report (Ship.modified ir) /\
     In (Ship.ModifiedReport report) (Ship.trace r) /\
     Ship.exitCode r = 1%Z /\ no_release (Ship.trace r))
  /\
  (forall f h,
     In (f, h) (Ship.hashes s) ->
     Ship.existsSync (Ship.fs w) f = false ->
     In f (Ship.missing ir) /\
     (Ship.modified ir = [] -> In (Ship.MissingReport f) (Ship.trace r)) /\
     Ship.exitCode r = 1%Z /\ no_release (Ship.trace r)).
Proof.
  intros Hs Hg ir r.
  destruct (main_after_gates opts w s Hs Hg) as [Hmod Hmis]. fold ir r in Hmod, Hmis.
  split.
  - intros f h Hin He Hh report.
    assert (M : In report (Ship.modified ir)).
    { unfold ir. rewrite integrity_closed. cbn [Ship.modified].
      change report with (modificationOf (Ship.fs w) (f, h)).
      apply in_map. apply filter_In. split; auto.
      unfold isModified. cbn [fst snd]. rewrite He, Hh. reflexivity. }
    destruct Hmod as (A & B & C).
    { intros E. rewrite E in M. exact M. }
    auto.
  - intros f h Hin He.
    assert (M : In f (Ship.missing ir)).
    { unfold ir. rewrite integrity_closed. cbn [Ship.missing].
      change f with (fst (f, h)). apply in_map. apply filter_In. split; auto.
      unfold isMissing. cbn [fst]. rewrite He. reflexivity. }
    assert (D : Ship.exitCode r = 1%Z /\ no_release (Ship.trace r)).
    { apply (denied_run opts w s Hs). right. right.
      intros E. fold ir in E. rewrite E in M. exact M. }
    split; [exact M|]. split; [|exact D].
    intros E. destruct (Hmis E) as (_ & _ & C).
    { intros E2. rewrite E2 in M. exact M. }
    auto.
Qed.

End ShipFacts.

(** With an unchanged tree and a passing state, the dry run reaches the
    release action and echoes it. *)
Example unchanged_tree_reaches_release :
  Ship.exitCode (Ship.main (RT := Reference.runtime) Scenario.createDryRun
                           Scenario.unchangedTree) = 0%Z /\
  existsb release_event
    (Ship.trace (Ship.main (RT := Reference.runtime) Scenario.createDryRun
                           Scenario.unchangedTree)) = true.
Proof. split; vm_compute; reflexivity. Qed.

Lemma denied_never_releases_witness :
  Ship.exitCode (Ship.main (RT := Reference.runtime) Scenario.createDryRun
                           Scenario.unchangedAfterFailedVerify) = 1%Z /\
  no_release (Ship.trace (Ship.main (RT := Reference.runtime) Scenario.createDryRun
                                    Scenario.unchangedAfterFailedVerify)).
Proof.
  apply (denied_never_releases (RT := Reference.runtime) Scenario.createDryRun
           Scenario.unchangedAfterFailedVerify Scenario.failedState).
  - reflexivity.
  - left. vm_compute. left. reflexivity.
Defined.

Lemma integrity_violation_denies_witness :
  (In (Ship.ModifiedReport
         {| Ship.mod_file := str "a.txt";
            Ship.expected :=
              substring0 8 (Reference.sha256 (Scenario.bytesOf "verified content"))
                ++ str "...";
            Ship.actual :=
              Ship.actualPrefix
                (Ship.hashFile (RT := Reference.runtime)
                   (Ship.fs Scenario.editedAfterVerify) (str "a.txt")) |})
      (Ship.trace (Ship.main (RT := Reference.runtime) Scenario.createDryRun
                             Scenario.editedAfterVerify)) /\
   Ship.exitCode (Ship.main (RT := Reference.runtime) Scenario.createDryRun
                            Scenario.editedAfterVerify) = 1%Z)
  /\
  (In (Ship.MissingReport (str "a.txt"))
      (Ship.trace (Ship.main (RT := Reference.runtime) Scenario.createDryRun
                             Scenario.deletedAfterVerify)) /\
   Ship.exitCode (Ship.main (RT := Reference.runtime) Scenario.createDryRun
                            Scenario.deletedAfterVerify) = 1%Z).
Proof.
  assert (G : Ship.gatesPass (Ship.checkGates Scenario.passingState) = true)
    by (vm_compute; reflexivity).
  split.
  - destruct (integrity_violation_denies (RT := Reference.runtime)
                Scenario.createDryRun Scenario.editedAfterVerify Scenario.passingState
                eq_refl G) as [Hmod _].
    destruct (Hmod (str "a.txt")
                (Reference.sha256 (Scenario.bytesOf "verified content")))
      as (_ & R & E & _).
    + left. reflexivity.
    + vm_compute. reflexivity.
    + vm_compute. reflexivity.
    + split; [exact R | exact E].
  - destruct (integrity_violation_denies (RT := Reference.runtime)
                Scenario.createDryRun Scenario.deletedAfterVerify Scenario.passingState
                eq_refl G) as [_ Hmis].
    destruct (Hmis (str "a.txt")
                (Reference.sha256 (Scenario.bytesOf "verified content")))
      as (_ & R & E & _).
    + left. reflexivity.
    + vm_compute. reflexivity.
    + split; [apply R; vm_compute; reflexivity | exact E].
Defined.

(** C4, as stated, fails: when the verification had failed and [a.txt] was
    edited afterwards, the run ends at the gate check, and the file, though
    its digest differs from the recorded one, is never classified or
    reported as modified. *)
Lemma modified_file_unreported_when_gates_fail :
  ~ (forall (opts : Ship.options) (w : Ship.world) (s : Ship.state) f h,
       Ship.stateAt w (Ship.statePath opts) = Ship.StateFile s ->
       In (f, h) (Ship.hashes s) ->
       Ship.existsSync (Ship.fs w) f = true ->
       Ship.sameHash (Ship.hashFile (RT := Reference.runtime) (Ship.fs w) f) h = false ->
       exists report,
         Ship.mod_file report = f /\
         In (Ship.ModifiedReport report)
            (Ship.trace (Ship.main (RT := Reference.runtime) opts w))).
Proof.
  intros H.
  destruct (H (Ship.parseOptions []) Scenario.editedAfterFailedVerify
              Scenario.failedState (str "a.txt")
              (Reference.sha256 (Scenario.bytesOf "verified content")))
    as (report & _ & R).
  - reflexivity.
  - left. reflexivity.
  - vm_compute. reflexivity.
  - vm_compute. reflexivity.
  - vm_compute in R. intuition discriminate.
Qed.

(** The whole run on the edited tree: the report shows [034311ad...] as
    expected and [d15da0e3...] as actual, and nothing follows it. *)
Example edited_tree_run :
  Ship.main (RT := Reference.runtime) Scenario.createDryRun Scenario.editedAfterVerify
  = {| Ship.trace :=
         [Ship.Banner; Ship.DryRunNotice;
          Ship.Loaded Ship.DEFAULT_STATE_PATH (VStr (str "2026-01-01T00:00:00.000Z"));
          Ship.GateStatus (str "verificationPassed") true;
          Ship.GateStatus (str "testsPass") true;
          Ship.GateStatus (str "lintPass") true;
          Ship.GateStatus (str "auditPass") true;
          Ship.IntegritySummary 0 1;
          Ship.ModifiedReport {| Ship.mod_file := str "a.txt";
                                 Ship.expected := str "034311ad...";
                                 Ship.actual := str "d15da0e3..." |}];
       Ship.exitCode := 1 |}.
Proof. vm_compute. reflexivity. Qed.

(** ** The snapshot *)

Section SnapshotFacts.
Context {RT : Runtime}.

Lemma setHash_keys (f h : jstring) (m : list (jstring * jstring)) (k : jstring) :
  In k (map fst (Verify.setHash f h m)) <-> k = f \/ In k (map fst m).
Proof.
  induction m as [|[k' v'] m IH]; simpl.
  - intuition.
  - destruct (jstring_eqb f k') eqn:E; simpl.
    + apply jstring_eqb_eq in E. subst k'. intuition.
    + rewrite IH. intuition.
Qed.

Lemma setHash_in (f h : jstring) (m : list (jstring * jstring)) :
  In (f, h) (Verify.setHash f h m).
Proof.
  induction m as [|[k' v'] m IH]; simpl.
  - left. reflexivity.
  - destruct (jstring_eqb f k') eqn:E; simpl.
    + apply jstring_eqb_eq in E. subst k'. left. reflexivity.
    + right. exact IH.
Qed.

Lemma setHash_preserves (f h' g h : jstring) (m : list (jstring * jstring)) :
  In (g, h) m -> (g = f -> h = h') -> In (g, h) (Verify.setHash f h' m).
Proof.
  intros Hin Hsame. induction m as [|[k' v'] m IH]; simpl; [contradiction|].
  destruct Hin as [E|Hin].
  - injection E as -> ->.
    destruct (jstring_eqb f g) eqn:E; simpl.
    + apply jstring_eqb_eq in E. subst f. left. rewrite Hsame; auto.
    + left. reflexivity.
  - destruct (jstring_eqb f k'); simpl; auto.
Qed.

(** Only files that were found and hashed enter the snapshot. *)
Lemma hashAll_keys (disk : filesystem) (files : list jstring) :
  forall m k,
    In k (map fst (Verify.hashAll disk files m)) ->
    In k (map fst m) \/ (In k files /\ exists h, Verify.hashFile disk k = VStr h).
Proof.
  induction files as [|f files IH]; intros m k H; simpl in H.
  - left. exact H.
  - apply IH in H. destruct H as [H|[H1 H2]].
    + destruct (Verify.hashFile disk f) as [| | | |h| |] eqn:E;
        try (destruct (truthy _); auto; fail).
      destruct (truthy (VStr h)); auto.
      apply setHash_keys in H. destruct H as [->|H]; auto.
      right. split; [left; reflexivity | eauto].
    + right. split; [right; exact H1 | exact H2].
Qed.

(** Every file that was found and has a digest is in the snapshot with it. *)
Lemma hashAll_records (disk : filesystem) (files : list jstring) (g h : jstring) :
  Verify.hashFile disk g = VStr h -> h <> [] ->
  forall m,
    In (g, h) m \/ In g files ->
    In (g, h) (Verify.hashAll disk files m).
Proof.
  intros Hg Hne. induction files as [|f files IH]; intros m H; simpl.
  - destruct H as [H|[]]. exact H.
  - apply IH. destruct H as [H|[->|H]].
    + left. destruct (Verify.hashFile disk f) as [| | | |h'| |] eqn:E;
        try (destruct (truthy _); auto; fail).
      destruct (truthy (VStr h')); auto.
      apply setHash_preserves; auto. intros ->. congruence.
    + left. rewrite Hg. destruct h as [|c h]; [contradiction|]. simpl.
      apply setHash_in.
    + right. exact H.
Qed.

Lemma runTests_same opts w w' :
  same_gates w w' -> Verify.runTests opts w = Verify.runTests opts w'.
Proof.
  intros (_ & Hp & He & _). unfold Verify.runTests. rewrite Hp, He. reflexivity.
Qed.

Lemma runLint_same opts w w' :
  same_gates w w' -> Verify.runLint opts w = Verify.runLint opts w'.
Proof.
  intros (_ & Hp & He & _). unfold Verify.runLint. rewrite Hp, He. reflexivity.
Qed.

Lemma runAudit_same w w' :
  same_gates w w' -> Verify.runAudit w = Verify.runAudit w'.
Proof.
  intros (_ & _ & He & _). unfold Verify.runAudit. rewrite He. reflexivity.
Qed.

Lemma runAiReview_same opts w w' :
  same_gates w w' -> Verify.runAiReview opts w = Verify.runAiReview opts w'.
Proof.
  intros (_ & _ & _ & Hk & Hs & Hc). unfold Verify.runAiReview.
  rewrite Hk, Hs, Hc. reflexivity.
Qed.

(** C10. A file that was found but cannot be hashed ([hashFile] returns
    [null]) has no entry in the snapshot of the state that is written and
    does not count in [files.count]; every file that has a digest is there
    with it. The ship phase, whatever the disk then holds, checks only the
    entries of the snapshot, so it never classifies that file as missing or
    modified. The gates do not depend on the hashing: in a world that
    differs only in the files, verify returns the same gate results, the
    same flags and the same exit code. *)
Theorem unhashable_file_is_omitted opts w st f :
  wrote opts w st ->
  In f (Verify.found w) ->
  Verify.hashFile (Verify.fs w) f = VNull ->
  ~ In f (map fst (Verify.hashes st)) /\
  Verify.count st = length (Verify.hashes st) /\
  Verify.filesHashed (Verify.summary st) = length (Verify.hashes st) /\
  (forall g h, In g (Verify.found w) -> Verify.hashFile (Verify.fs w) g = VStr h ->
               h <> [] -> In (g, h) (Verify.hashes st)) /\
  (forall disk,
     let r := Ship.verifyFileIntegrity (Ship.load st) disk in
     Ship.total r = Verify.count st /\
     ~ In f (Ship.missing r) /\
     ~ In f (map Ship.mod_file (Ship.modified r))) /\
  (forall w' st',
     same_gates w w' -> wrote opts w' st' ->
     Verify.tests st' = Verify.tests st /\
     Verify.lint st' = Verify.lint st /\
     Verify.audit st' = Verify.audit st /\
     Verify.aiReview st' = Verify.aiReview st /\
     Verify.testsPass (Verify.summary st') = Verify.testsPass (Verify.summary st) /\
     Verify.lintPass (Verify.summary st') = Verify.lintPass (Verify.summary st) /\
     Verify.auditPass (Verify.summary st') = Verify.auditPass (Verify.summary st) /\
     Verify.aiReviewPass (Verify.summary st') = Verify.aiReviewPass (Verify.summary st) /\
     Verify.overallPass (Verify.summary st') = Verify.overallPass (Verify.summary st) /\
     Verify.exitCode (Verify.main opts w') = Verify.exitCode (Verify.main opts w)).
Proof.
  intros Hw Hf Hnull.
  assert (Hex : Verify.exitCode (Verify.main opts w)
                = match Verify.printTiers (Verify.aiReview st) with
                  | Throw _ => 1%Z
                  | Normal _ =>
                      if truthy (Verify.overallPass (Verify.summary st)) then 0%Z else 1%Z
                  end).
  { unfold wrote in Hw. unfold Verify.main in *.
    destruct (_ <- Verify.runTests opts w ;; _) as [[[t l] a]|]; [|discriminate].
    cbn in Hw |- *. injection Hw as <-. reflexivity. }
  destruct (wrote_inv _ _ _ Hw) as (t & l & a & Ht & Hl & Ha & Hst).
  assert (Hkeys : ~ In f (map fst (Verify.hashes st))).
  { rewrite Hst. cbn [Verify.hashes]. intros H. apply hashAll_keys in H.
    destruct H as [[]|[_ [h Hh]]]. congruence. }
  split; [exact Hkeys|].
  split; [rewrite Hst; reflexivity|].
  split; [rewrite Hst; reflexivity|].
  split.
  { intros g h Hg Hh Hne. rewrite Hst. cbn [Verify.hashes].
    apply hashAll_records; auto. }
  split.
  { intros disk r. unfold r. rewrite integrity_closed.
    cbn [Ship.total Ship.missing Ship.modified Ship.load Ship.hashes].
    split; [rewrite Hst; reflexivity|]. split.
    - intros H. apply in_map_iff in H. destruct H as [[k v] [E H]].
      apply filter_In in H. destruct H as [H _]. cbn in E. subst k.
      apply Hkeys. apply in_map_iff. exists (f, v). auto.
    - intros H. rewrite map_map in H. apply in_map_iff in H.
      destruct H as [[k v] [E H]]. apply filter_In in H. destruct H as [H _].
      cbn in E. subst k. apply Hkeys. apply in_map_iff. exists (f, v). auto. }
  intros w' st' Hsame Hw'.
  assert (Hex' : Verify.exitCode (Verify.main opts w')
                 = match Verify.printTiers (Verify.aiReview st') with
                   | Throw _ => 1%Z
                   | Normal _ =>
                       if truthy (Verify.overallPass (Verify.summary st')) then 0%Z else 1%Z
                   end).
  { unfold wrote in Hw'. unfold Verify.main in *.
    destruct (_ <- Verify.runTests opts w' ;; _) as [[[t' l'] a']|]; [|discriminate].
    cbn in Hw' |- *. injection Hw' as <-. reflexivity. }
  destruct (wrote_inv _ _ _ Hw') as (t' & l' & a' & Ht' & Hl' & Ha' & Hst').
  rewrite <- (runTests_same opts w w' Hsame) in Ht'.
  rewrite <- (runLint_same opts w w' Hsame) in Hl'.
  rewrite <- (runAudit_same w w' Hsame) in Ha'.
  rewrite <- (runAiReview_same opts w w' Hsame) in Hst'.
  assert (t' = t) by congruence. assert (l' = l) by congruence.
  assert (a' = a) by congruence. subst t' l' a'.
  rewrite Hex, Hex'. rewrite Hst, Hst'. cbn. repeat split; reflexivity.
Qed.

End SnapshotFacts.

Lemma unhashable_file_is_omitted_witness :
  exists st,
    wrote (RT := Reference.runtime) (Verify.parseOptions []) Scenario.oneUnreadable st /\
    ~ In (str "src/b.js") (map fst (Verify.hashes st)) /\
    Verify.count st = 1 /\
    Verify.exitCode (Verify.main (RT := Reference.runtime) (Verify.parseOptions [])
                                 Scenario.oneUnreadable) = 0%Z.
Proof.
  eexists. split; [reflexivity|].
  split; [|split].
  - refine (proj1 (unhashable_file_is_omitted (RT := Reference.runtime)
                     (Verify.parseOptions []) Scenario.oneUnreadable _ (str "src/b.js")
                     eq_refl _ _)).
    + right. left. reflexivity.
    + vm_compute. reflexivity.
  - vm_compute. reflexivity.
  - vm_compute. reflexivity.
Defined.

(** ** The review gate *)

Section ReviewFacts.
Context {RT : Runtime}.

(** A review whose call is rejected records [{ error: message }]. *)
Lemma reviewStep_rejected tierKey labelKey setVerdict setTier f results :
  AiReview.reviewStep tierKey labelKey setVerdict setTier (AiReview.Rejected f) results
  = setVerdict (AiReview.errorVerdict (AiReview.failure_message f)) results.
Proof. reflexivity. Qed.

(** When both calls are rejected, or the first is and the review is
    security-only, the script records that the review passes and exits
    with code 0. *)
Lemma rejected_calls_pass_review opts codeContext f1 f2 :
  AiReview.noCode codeContext = false ->
  AiReview.main opts codeContext (AiReview.Rejected f1) (AiReview.Rejected f2)
  = {| AiReview.written :=
         Some (AiReview.outputPath opts,
               {| AiReview.securityReview :=
                    AiReview.errorVerdict (AiReview.failure_message f1);
                  AiReview.qualityReview :=
                    if AiReview.securityFocus opts then VNull
                    else AiReview.errorVerdict (AiReview.failure_message f2);
                  AiReview.summary :=
                    {| AiReview.securityRisk := VStr (str "UNKNOWN");
                       AiReview.codeQuality := VStr (str "UNKNOWN");
                       AiReview.passesReview := VBool true |} |});
       AiReview.exitCode := 0 |}.
Proof.
  intros H. unfold AiReview.main. rewrite H.
  destruct (AiReview.securityFocus opts); reflexivity.
Qed.

(** A review that runs to its end records the parsed verdict, and its tier
    in the summary when there is one. *)
Lemma reviewStep_completes tierKey labelKey setVerdict setTier call verdict tier results :
  review_completes tierKey labelKey call verdict ->
  getProp verdict tierKey = Normal tier ->
  AiReview.reviewStep tierKey labelKey setVerdict setTier call results
  = if truthy tier then setTier tier (setVerdict verdict results)
    else setVerdict verdict results.
Proof.
  intros (text & -> & Hp & (tier' & Ht' & Hlt) & Hl) Ht.
  assert (tier' = tier) by congruence. subst tier'.
  unfold AiReview.reviewStep. rewrite Hp, Ht, Hlt. cbn [bind]. rewrite Hl. reflexivity.
Qed.

Lemma getProp_falsy verdict key tier :
  truthy verdict = false ->
  jstring_eqb key (str "length") = false ->
  getProp verdict key = Normal tier ->
  tier = VUndef.
Proof.
  intros Hf Hk. destruct verdict; simpl in *; try discriminate; try congruence.
  rewrite Hk. congruence.
Qed.

(** The run of the review script when its reviews run to their end. *)
Lemma main_completed opts codeContext securityCall qualityCall vs risk vq quality :
  AiReview.noCode codeContext = false ->
  review_completes (str "overallRisk") (str "severity") securityCall vs ->
  getProp vs (str "overallRisk") = Normal risk ->
  (AiReview.securityFocus opts = true \/
   (review_completes (str "overallQuality") (str "priority") qualityCall vq /\
    getProp vq (str "overallQuality") = Normal quality)) ->
  let passes :=
    AiReview.tierPass AiReview.ACCEPTED_RISK risk &&
    (AiReview.securityFocus opts || AiReview.tierPass AiReview.ACCEPTED_QUALITY quality) in
  exists results,
    AiReview.main opts codeContext securityCall qualityCall
    = {| AiReview.written := Some (AiReview.outputPath opts, results);
         AiReview.exitCode := if passes then 0%Z else 1%Z |} /\
    AiReview.passesReview (AiReview.summary results) = VBool passes.
Proof.
  intros Hc Hs Hr Hq passes. unfold AiReview.main. rewrite Hc.
  unfold AiReview.securityStep.
  rewrite (reviewStep_completes _ _ _ _ _ _ _ _ Hs Hr).
  assert (Lr : AiReview.logTier risk = Normal tt).
  { destruct Hs as (text & _ & _ & (tier' & Ht' & Hlt) & _).
    assert (tier' = risk) by congruence. subst tier'. exact Hlt. }
  destruct (AiReview.securityFocus opts) eqn:Hfocus; cbn [negb].
  - assert (E : AiReview.securityPass
                  (if truthy risk
                   then AiReview.set_securityRisk risk
                          (AiReview.set_securityReview vs AiReview.initialResults)
                   else AiReview.set_securityReview vs AiReview.initialResults)
                = Normal (AiReview.tierPass AiReview.ACCEPTED_RISK risk)).
    { unfold AiReview.securityPass.
      destruct (truthy risk);
        cbn [AiReview.securityReview AiReview.set_securityRisk
             AiReview.set_securityReview];
        rewrite Hr; reflexivity. }
    assert (Q : AiReview.qualityPass
                  (if truthy risk
                   then AiReview.set_securityRisk risk
                          (AiReview.set_securityReview vs AiReview.initialResults)
                   else AiReview.set_securityReview vs AiReview.initialResults)
                = Normal true).
    { unfold AiReview.qualityPass. destruct (truthy risk); reflexivity. }
    assert (P : forall p,
               AiReview.printSummary
                 (AiReview.set_passesReview p
                    (if truthy risk
                     then AiReview.set_securityRisk risk
                            (AiReview.set_securityReview vs AiReview.initialResults)
                     else AiReview.set_securityReview vs AiReview.initialResults))
               = Normal tt).
    { intros p. unfold AiReview.printSummary. unfold AiReview.logTier in Lr.
      destruct (truthy risk); cbn; [rewrite Lr|]; reflexivity. }
    rewrite E, Q. cbn [bind]. cbv zeta. rewrite P.
    unfold passes. cbn [orb]. rewrite andb_true_r.
    eexists. split; [reflexivity|]. reflexivity.
  - destruct Hq as [Hq|[Hq Hqt]]; [discriminate|].
    unfold AiReview.qualityStep.
    rewrite (reviewStep_completes _ _ _ _ _ _ _ _ Hq Hqt).
    set (r1 := if truthy risk
               then AiReview.set_securityRisk risk
                      (AiReview.set_securityReview vs AiReview.initialResults)
               else AiReview.set_securityReview vs AiReview.initialResults).
    set (r2 := if truthy quality
               then AiReview.set_codeQuality quality (AiReview.set_qualityReview vq r1)
               else AiReview.set_qualityReview vq r1).
    assert (S : AiReview.securityReview r2 = vs).
    { unfold r2, r1. destruct (truthy quality), (truthy risk); reflexivity. }
    assert (Qv : AiReview.qualityReview r2 = vq).
    { unfold r2. destruct (truthy quality); reflexivity. }
    assert (E : AiReview.securityPass r2
                = Normal (AiReview.tierPass AiReview.ACCEPTED_RISK risk)).
    { unfold AiReview.securityPass. rewrite S, Hr. reflexivity. }
    assert (Q : AiReview.qualityPass r2
                = Normal (AiReview.tierPass AiReview.ACCEPTED_QUALITY quality)).
    { unfold AiReview.qualityPass. rewrite Qv. unfold js_not.
      destruct (truthy vq) eqn:Tv; cbn [negb].
      - rewrite Hqt. reflexivity.
      - rewrite (getProp_falsy vq (str "overallQuality") quality Tv eq_refl Hqt).
        reflexivity. }
    assert (Lq : AiReview.logTier quality = Normal tt).
    { destruct Hq as (text & _ & _ & (tier' & Ht' & Hlt) & _).
      assert (tier' = quality) by congruence. subst tier'. exact Hlt. }
    assert (P : forall p, AiReview.printSummary (AiReview.set_passesReview p r2)
                          = Normal tt).
    { intros p. unfold AiReview.printSummary, r2, r1.
      unfold AiReview.logTier in Lr, Lq.
      destruct (truthy quality), (truthy risk); cbn;
        rewrite ?Lr; cbn; rewrite ?Lq; reflexivity. }
    rewrite E, Q. cbn [bind]. cbv zeta. rewrite P. unfold passes. cbn [orb].
    eexists. split; [reflexivity|]. reflexivity.
Qed.

Lemma getPropOpt_normal v key : exists x, getPropOpt v key = Normal x.
Proof.
  destruct v; simpl; eauto.
  - destruct (jstring_eqb key (str "length")); eauto.
  - destruct (jstring_eqb key (str "length")); eauto.
Qed.

Lemma issueCount_normal review : exists x, Verify.issueCount review = Normal x.
Proof.
  unfold Verify.issueCount.
  destruct (getPropOpt_normal review (str "issues")) as [i ->]. cbn [bind].
  destruct (getPropOpt_normal i (str "length")) as [l ->]. cbn [bind]. eauto.
Qed.

(** The gate object built from a result file takes its [success] from
    [passesReview] and is not a skip. *)
Lemma reviewGate_success aiResults attention :
  exists g,
    Verify.reviewGate aiResults attention = Normal g /\
    Verify.success g = AiReview.passesReview (AiReview.summary aiResults) /\
    Verify.skipped g = VUndef /\
    Verify.securityRisk g = AiReview.securityRisk (AiReview.summary aiResults) /\
    Verify.codeQuality g = AiReview.codeQuality (AiReview.summary aiResults).
Proof.
  unfold Verify.reviewGate.
  destruct (issueCount_normal (AiReview.securityReview aiResults)) as [a ->].
  destruct (issueCount_normal (AiReview.qualityReview aiResults)) as [b ->].
  cbn [bind]. eexists. split; [reflexivity|]. cbn. auto.
Qed.

(** The review gate of verify, when the child is a run of the review script
    that wrote its result. *)
Lemma runAiReview_of_child opts w codeContext securityCall qualityCall before out err
      message results (passes : bool) :
  Verify.skipAiReview opts = false ->
  Verify.apiKey w = true ->
  Verify.reviewScriptExists w = true ->
  (forall aiArgs,
     Verify.reviewChild w aiArgs
     = reviewChildOf codeContext securityCall qualityCall before out err message
                     aiArgs) ->
  AiReview.main
    (AiReview.parseOptions
       (if Verify.securityFocus opts then [str "--security-focus"] else []))
    codeContext securityCall qualityCall
  = {| AiReview.written := Some (AiReview.OUTPUT_PATH, results);
       AiReview.exitCode := if passes then 0%Z else 1%Z |} ->
  AiReview.passesReview (AiReview.summary results) = VBool passes ->
  Verify.success (Verify.runAiReview opts w) = VBool passes /\
  Verify.skipped (Verify.runAiReview opts w) = VUndef.
Proof.
  intros Hskip Hkey Hscript Hchild Hmain Hpass.
  unfold Verify.runAiReview. rewrite Hskip, Hkey, Hscript. cbn [negb].
  rewrite Hchild. unfold reviewChildOf.
  rewrite Hmain. unfold fileAfter. cbn [AiReview.written AiReview.exitCode].
  rewrite jstring_eqb_refl.
  destruct (reviewGate_success (persistResults results) false) as (g1 & G1 & S1 & K1 & _).
  destruct (reviewGate_success (persistResults results) true) as (g2 & G2 & S2 & K2 & _).
  assert (P : AiReview.passesReview (AiReview.summary (persistResults results))
              = VBool passes).
  { cbn. rewrite Hpass. reflexivity. }
  destruct passes; cbn [Z.eqb].
  - rewrite G1. rewrite S1, K1, P. auto.
  - unfold Verify.reviewCatch. rewrite G2. rewrite S2, K2, P. auto.
Qed.

End ReviewFacts.

(** C1. A verify run without [--skip-ai-review], with the API key set and
    tests, lint and audit passing, in which both calls of the Reviewer
    Client time out: the review script records the two errors, sets
    [passesReview] to [true] and exits with code 0; verify reads that
    result, so the review gate is neither skipped nor failed,
    [aiReviewPass] and [overallPass] are [true] and verify exits with
    code 0. A later ship run on the unchanged tree passes its gate check
    and reaches the release action. *)
Theorem review_timeout_recorded_as_pass :
  AiReview.main (RT := Reference.runtime) (AiReview.parseOptions [])
    Scenario.codeContext (AiReview.Rejected AiReview.Timeout)
    (AiReview.Rejected AiReview.Timeout)
  = {| AiReview.written :=
         Some (AiReview.OUTPUT_PATH,
               {| AiReview.securityReview :=
                    VObj [(str "error",
                           VStr (str "Gemini API request timed out after 30 seconds"))];
                  AiReview.qualityReview :=
                    VObj [(str "error",
                           VStr (str "Gemini API request timed out after 30 seconds"))];
                  AiReview.summary :=
                    {| AiReview.securityRisk := VStr (str "UNKNOWN");
                       AiReview.codeQuality := VStr (str "UNKNOWN");
                       AiReview.passesReview := VBool true |} |});
       AiReview.exitCode := 0 |}
  /\
  exists st,
    wrote (RT := Reference.runtime) (Verify.parseOptions []) Scenario.reviewTimesOut st /\
    Verify.skipped (Verify.aiReview st) = VUndef /\
    Verify.success (Verify.aiReview st) = VBool true /\
    Verify.aiReviewPass (Verify.summary st) = VBool true /\
    Verify.overallPass (Verify.summary st) = VBool true /\
    Verify.exitCode (Verify.main (RT := Reference.runtime) (Verify.parseOptions [])
                                 Scenario.reviewTimesOut) = 0%Z /\
    let shipped :=
      Ship.main (RT := Reference.runtime) Scenario.createDryRun
        (Scenario.shipWorld (Ship.load st) (Verify.fs Scenario.reviewTimesOut)) in
    Ship.exitCode shipped = 0%Z /\
    existsb release_event (Ship.trace shipped) = true.
Proof.
  split.
  - vm_compute. reflexivity.
  - eexists. split; [reflexivity|]. repeat split; vm_compute; reflexivity.
Qed.

(** A failed test gate leaves [testsPass] and [overallPass] undefined, not
    [false]: [false || undefined] is [undefined]. The run exits with
    code 1. *)
Example failed_tests_leave_overallPass_undefined :
  exists st,
    wrote (RT := Reference.runtime) (Verify.parseOptions []) Scenario.failingTests st /\
    Verify.success (Verify.tests st) = VBool false /\
    Verify.testsPass (Verify.summary st) = VUndef /\
    Verify.overallPass (Verify.summary st) = VUndef /\
    Verify.exitCode (Verify.main (RT := Reference.runtime) (Verify.parseOptions [])
                                 Scenario.failingTests) = 1%Z.
Proof.
  eexists. split; [reflexivity|]. repeat split; vm_compute; reflexivity.
Qed.

Section AggregationFacts.
Context {RT : Runtime}.

Lemma passed_truthy (g : Verify.gate_result) :
  truthy (Verify.passed g) = true <-> passed_or_skipped g.
Proof.
  unfold Verify.passed, passed_or_skipped. rewrite truthy_js_or, orb_true_iff. tauto.
Qed.

(** C2 (amended). In the state that verify writes, [overallPass] is truthy
    exactly when tests, lint and AI review are each passed or skipped and
    the audit gate is passed; so a single failed gate makes it false. When
    the review ran and its reviews ran to their end, the review gate is
    passed exactly when the risk tier of the security verdict is absent or
    one of LOW and MEDIUM and, unless the review was security-only, the
    quality tier of the quality verdict is absent or one of EXCELLENT, GOOD
    and ACCEPTABLE; so a tier that is present and outside its accepted set
    makes [overallPass] false. *)
Theorem overall_pass_aggregation opts w st :
  wrote opts w st ->
  (truthy (Verify.overallPass (Verify.summary st)) = true <->
   passed_or_skipped (Verify.tests st) /\
   passed_or_skipped (Verify.lint st) /\
   truthy (Verify.success (Verify.audit st)) = true /\
   passed_or_skipped (Verify.aiReview st))
  /\
  (forall codeContext securityCall qualityCall before out err message vs risk vq quality,
     Verify.skipAiReview opts = false ->
     Verify.apiKey w = true ->
     Verify.reviewScriptExists w = true ->
     (forall aiArgs,
        Verify.reviewChild w aiArgs
        = reviewChildOf codeContext securityCall qualityCall before out err message
                        aiArgs) ->
     AiReview.noCode codeContext = false ->
     review_completes (str "overallRisk") (str "severity") securityCall vs ->
     getProp vs (str "overallRisk") = Normal risk ->
     (Verify.securityFocus opts = true \/
      (review_completes (str "overallQuality") (str "priority") qualityCall vq /\
       getProp vq (str "overallQuality") = Normal quality)) ->
     let tiers_ok :=
       tier_acceptable AiReview.ACCEPTED_RISK risk /\
       (Verify.securityFocus opts = true \/
        tier_acceptable AiReview.ACCEPTED_QUALITY quality) in
     Verify.skipped (Verify.aiReview st) = VUndef /\
     (truthy (Verify.success (Verify.aiReview st)) = true <-> tiers_ok) /\
     (truthy (Verify.overallPass (Verify.summary st)) = true <->
      passed_or_skipped (Verify.tests st) /\
      passed_or_skipped (Verify.lint st) /\
      truthy (Verify.success (Verify.audit st)) = true /\
      tiers_ok)).
Proof.
  intros Hw.
  destruct (wrote_inv _ _ _ Hw) as (t & l & a & Ht & Hl & Ha & Hst).
  assert (A : truthy (Verify.overallPass (Verify.summary st)) = true <->
              passed_or_skipped (Verify.tests st) /\
              passed_or_skipped (Verify.lint st) /\
              truthy (Verify.success (Verify.audit st)) = true /\
              passed_or_skipped (Verify.aiReview st)).
  { rewrite Hst. cbn [Verify.summary Verify.tests Verify.lint Verify.audit Verify.aiReview].
    rewrite overallPass_truthy, !passed_truthy. tauto. }
  split; [exact A|].
  intros codeContext securityCall qualityCall before out err message vs risk vq quality
         Hskip Hkey Hscript Hchild Hcode Hs Hr Hq tiers_ok.
  set (aopts := AiReview.parseOptions
                  (if Verify.securityFocus opts then [str "--security-focus"] else [])).
  assert (Hf : AiReview.securityFocus aopts = Verify.securityFocus opts).
  { unfold aopts. destruct (Verify.securityFocus opts); reflexivity. }
  assert (Ho : AiReview.outputPath aopts = AiReview.OUTPUT_PATH).
  { unfold aopts. destruct (Verify.securityFocus opts); reflexivity. }
  destruct (main_completed aopts codeContext securityCall qualityCall vs risk vq quality
              Hcode Hs Hr) as (results & Hmain & Hpass).
  { rewrite Hf. exact Hq. }
  rewrite Ho, Hf in Hmain. rewrite Hf in Hpass.
  destruct (runAiReview_of_child opts w codeContext securityCall qualityCall before out err
              message results _ Hskip Hkey Hscript Hchild Hmain Hpass) as [Hsucc Hskipped].
  assert (R : Verify.aiReview st = Verify.runAiReview opts w) by (rewrite Hst; reflexivity).
  assert (T : truthy (Verify.success (Verify.aiReview st)) = true <-> tiers_ok).
  { rewrite R, Hsucc. cbn [truthy]. unfold tiers_ok.
    rewrite andb_true_iff, orb_true_iff, !tierPass_acceptable. tauto. }
  split; [rewrite R; exact Hskipped|]. split; [exact T|].
  split; intros H.
  - apply A in H. destruct H as (H1 & H2 & H3 & [H4|H4]).
    + apply T in H4. auto.
    + rewrite R, Hskipped in H4. discriminate.
  - apply A. destruct H as (H1 & H2 & H3 & H4).
    split; [exact H1|]. split; [exact H2|]. split; [exact H3|].
    left. apply T. exact H4.
Qed.

End AggregationFacts.

Lemma overall_pass_aggregation_witness :
  exists st,
    wrote (RT := Reference.runtime) (Verify.parseOptions []) Scenario.reviewedChange st /\
    truthy (Verify.overallPass (Verify.summary st)) = true.
Proof.
  eexists. split; [reflexivity|].
  refine (proj2 (proj2 (proj2
            (proj2 (overall_pass_aggregation (RT := Reference.runtime)
                      (Verify.parseOptions []) Scenario.reviewedChange _ eq_refl)
               Scenario.codeContext _ _ FileAbsent (str "AI CODE REVIEW (Gemini)") []
               (str "Command failed: node scripts/ai-review.js")
               Scenario.lowRiskVerdict (VStr (str "LOW"))
               Scenario.goodQualityVerdict (VStr (str "GOOD"))
               eq_refl eq_refl eq_refl (fun _ => eq_refl) _ _ _ _))) _).
  - vm_compute. reflexivity.
  - eexists. split; [reflexivity|]. split; [vm_compute; reflexivity|].
    split; [eexists; split; vm_compute; reflexivity | vm_compute; reflexivity].
  - vm_compute. reflexivity.
  - right. split.
    + eexists. split; [reflexivity|]. split; [vm_compute; reflexivity|].
      split; [eexists; split; vm_compute; reflexivity | vm_compute; reflexivity].
    + vm_compute. reflexivity.
  - split; [left; vm_compute; reflexivity|].
    split; [left; vm_compute; reflexivity|].
    split; [vm_compute; reflexivity|].
    split.
    + right. exists (str "LOW"). split; [reflexivity | left; reflexivity].
    + right. right. exists (str "GOOD").
      split; [reflexivity | right; left; reflexivity].
Defined.

(** C2, as stated, fails: with tests, lint and audit passing, a security
    review whose answer is prose is recorded with the raw verdict and the
    risk tier [UNKNOWN], the review passes and [overallPass] is true,
    although the risk tier is neither LOW nor MEDIUM. *)
Lemma overall_pass_with_unknown_tier :
  ~ (forall opts w st,
       wrote (RT := Reference.runtime) opts w st ->
       (truthy (Verify.overallPass (Verify.summary st)) = true <->
        passed_or_skipped (Verify.tests st) /\
        passed_or_skipped (Verify.lint st) /\
        passed_or_skipped (Verify.aiReview st) /\
        truthy (Verify.success (Verify.audit st)) = true /\
        (exists tier, Verify.securityRisk (Verify.aiReview st) = VStr tier /\
                      In tier AiReview.ACCEPTED_RISK) /\
        (exists tier, Verify.codeQuality (Verify.aiReview st) = VStr tier /\
                      In tier AiReview.ACCEPTED_QUALITY))).
Proof.
  intros H.
  destruct (verify_always_writes (RT := Reference.runtime) (Verify.parseOptions [])
              Scenario.inconclusiveReview) as [st Hw].
  pose proof (H _ _ _ Hw) as [Hto _].
  assert (E : st = match Verify.written
                         (Verify.main (RT := Reference.runtime) (Verify.parseOptions [])
                                      Scenario.inconclusiveReview) with
                   | Some (_, s) => s
                   | None => st
                   end).
  { unfold wrote in Hw. rewrite Hw. reflexivity. }
  vm_compute in E. subst st.
  destruct Hto as (_ & _ & _ & _ & (tier & Et & Hin) & _).
  - vm_compute. reflexivity.
  - cbn in Et. injection Et as <-. vm_compute in Hin. intuition discriminate.
Qed.

(** ** Further properties of the verification orchestrator *)

Section VerifyMore.
Context {RT : Runtime}.

Lemma wrote_exit opts w st :
  wrote opts w st ->
  Verify.exitCode (Verify.main opts w)
  = match Verify.printTiers (Verify.aiReview st) with
    | Throw _ => 1%Z
    | Normal _ => if truthy (Verify.overallPass (Verify.summary st)) then 0%Z else 1%Z
    end.
Proof.
  intros Hw. unfold wrote in Hw. unfold Verify.main in *.
  destruct (_ <- Verify.runTests opts w ;; _) as [[[t l] a]|]; [|discriminate].
  cbn in Hw |- *. injection Hw as <-. reflexivity.
Qed.

(** A verification that did not pass ends with code 1, whatever the
    prints after the write do. *)
Lemma wrote_exit_failed opts w st :
  wrote opts w st ->
  truthy (Verify.overallPass (Verify.summary st)) = false ->
  Verify.exitCode (Verify.main opts w) = 1%Z.
Proof.
  intros Hw Hf. rewrite (wrote_exit _ _ _ Hw), Hf.
  destruct (Verify.printTiers (Verify.aiReview st)); reflexivity.
Qed.

Lemma firstn_length_le {A} (n : nat) (l : list A) : length (firstn n l) <= n.
Proof. rewrite length_firstn. lia. Qed.

(** X1. The audit gate fails exactly when the audit command failed and
    its captured output contains [high] or [critical]; output that
    mentions them does not fail a command that returned. The gate is never
    skipped, and it keeps the first 500 characters of the output. *)
Theorem audit_gate_characterised (w : Verify.world) :
  exists result g,
    Verify.runCommand (Verify.exec w auditCommand) = Normal result /\
    Verify.runAudit w = Normal g /\
    (Verify.success g = VBool false <->
     Verify.cmd_success result = false /\
     (includes (Verify.cmd_output result) (str "high") = true \/
      includes (Verify.cmd_output result) (str "critical") = true)) /\
    (Verify.success g = VBool false \/ Verify.success g = VBool true) /\
    Verify.skipped g = VUndef /\
    Verify.output g = VStr (firstn 500 (Verify.cmd_output result)) /\
    length (firstn 500 (Verify.cmd_output result)) <= 500.
Proof.
  destruct (runCommand_normal (Verify.exec w auditCommand)) as [result Hr].
  exists result, (Verify.auditGate result).
  split; [exact Hr|]. split.
  { unfold Verify.runAudit. fold auditCommand. rewrite Hr. reflexivity. }
  unfold Verify.auditGate. cbn [Verify.success Verify.skipped Verify.output].
  split; [|split; [|split; [reflexivity|split; [reflexivity|apply firstn_length_le]]]].
  - destruct (includes (Verify.cmd_output result) (str "high")),
             (includes (Verify.cmd_output result) (str "critical")),
             (Verify.cmd_success result); cbn; intuition congruence.
  - destruct (negb _ || _); auto.
Qed.




End VerifyMore.


Section ReviewGateMore.
Context {RT : Runtime}.

Lemma aiReview_written opts w st :
  wrote opts w st -> Verify.aiReview st = Verify.runAiReview opts w.
Proof.
  intros Hw. destruct (wrote_inv _ _ _ Hw) as (t & l & a & _ & _ & _ & ->). reflexivity.
Qed.

Lemma overall_written opts w st :
  wrote opts w st ->
  (truthy (Verify.overallPass (Verify.summary st)) = true <->
   passed_or_skipped (Verify.tests st) /\ passed_or_skipped (Verify.lint st) /\
   truthy (Verify.success (Verify.audit st)) = true /\
   passed_or_skipped (Verify.aiReview st)) /\
  Verify.aiReviewPass (Verify.summary st) = Verify.passed (Verify.aiReview st).
Proof.
  intros Hw. destruct (wrote_inv _ _ _ Hw) as (t & l & a & _ & _ & _ & ->).
  cbn [Verify.summary Verify.tests Verify.lint Verify.audit Verify.aiReview].
  split; [|reflexivity].
  rewrite overallPass_truthy. unfold passed_or_skipped, Verify.passed.
  rewrite !truthy_js_or, !orb_true_iff. tauto.
Qed.

Lemma runAiReview_not_run opts w :
  review_not_run opts w ->
  exists why,
    Verify.runAiReview opts w = Verify.skippedGate why /\
    (Verify.skipAiReview opts = true /\ why = VUndef \/
     Verify.skipAiReview opts = false /\ Verify.apiKey w = false /\
       why = VStr (str "no API key") \/
     Verify.skipAiReview opts = false /\ Verify.apiKey w = true /\
       why = VStr (str "script not found")).
Proof.
  intros H. unfold Verify.runAiReview.
  destruct (Verify.skipAiReview opts) eqn:E1; [eauto 10|].
  destruct (Verify.apiKey w) eqn:E2; cbn [negb]; [|eauto 10].
  destruct (Verify.reviewScriptExists w) eqn:E3; cbn [negb]; [|eauto 10].
  destruct H as [H|[H|H]]; congruence.
Qed.

(** X3. When the review is opted out, the API key is not set or the
    review script is not there, the review gate is skipped with its reason
    (none, [no API key], [script not found]) and counts as passed:
    [overallPass] is then decided by tests, lint and audit alone, and the
    review child is never run, so the state does not depend on it. *)
Theorem review_not_run_is_skipped opts w st :
  wrote opts w st ->
  review_not_run opts w ->
  Verify.skipped (Verify.aiReview st) = VBool true /\
  Verify.success (Verify.aiReview st) = VUndef /\
  (Verify.skipAiReview opts = true /\ Verify.reason (Verify.aiReview st) = VUndef \/
   Verify.skipAiReview opts = false /\ Verify.apiKey w = false /\
     Verify.reason (Verify.aiReview st) = VStr (str "no API key") \/
   Verify.skipAiReview opts = false /\ Verify.apiKey w = true /\
     Verify.reason (Verify.aiReview st) = VStr (str "script not found")) /\
  Verify.aiReviewPass (Verify.summary st) = VBool true /\
  (truthy (Verify.overallPass (Verify.summary st)) = true <->
   passed_or_skipped (Verify.tests st) /\ passed_or_skipped (Verify.lint st) /\
   truthy (Verify.success (Verify.audit st)) = true) /\
  (forall child, wrote opts (withReviewChild w child) st).
Proof.
  intros Hw Hn.
  destruct (runAiReview_not_run opts w Hn) as (why & Hg & Hwhy).
  pose proof (aiReview_written _ _ _ Hw) as Ha. rewrite Hg in Ha.
  destruct (overall_written _ _ _ Hw) as [Ho Hp].
  rewrite Ha in *. cbn [Verify.skipped Verify.success Verify.reason Verify.skippedGate].
  split; [reflexivity|]. split; [reflexivity|]. split.
  { destruct Hwhy as [[A ->]|[(A & B & ->)|(A & B & ->)]]; auto. }
  split; [rewrite Hp; reflexivity|]. split.
  { rewrite Ho. unfold passed_or_skipped at 3. cbn. intuition. }
  intros child. unfold wrote in *. unfold Verify.main in *.
  assert (E : Verify.runAiReview opts (withReviewChild w child) = Verify.runAiReview opts w).
  { unfold Verify.runAiReview. cbn [withReviewChild Verify.apiKey Verify.reviewScriptExists].
    destruct Hn as [H|[H|H]].
    - rewrite H. reflexivity.
    - rewrite H. destruct (Verify.skipAiReview opts); reflexivity.
    - rewrite H. destruct (Verify.skipAiReview opts); [reflexivity|].
      destruct (Verify.apiKey w); reflexivity. }
  rewrite E. exact Hw.
Qed.

(** X4. When the review child fails (a nonzero exit code, the two-minute
    timeout) and left no result file that can be read, the review gate is
    failed with the message of the error, [overallPass] is not truthy and
    verify exits with code 1. The same holds, with the message of the read,
    when the child returned and its result file cannot be read. *)
Theorem failed_review_child_fails_gate opts w st stdout stderr message f :
  wrote opts w st ->
  review_runs opts w ->
  (Verify.reviewChild w (reviewArgs opts) = (Failed stdout stderr message, f) /\
   (f = FileAbsent \/ exists m, f = FileThrows m)
   \/
   exists out, Verify.reviewChild w (reviewArgs opts) = (Returned out, FileThrows message)) ->
  Verify.success (Verify.aiReview st) = VBool false /\
  Verify.error (Verify.aiReview st) = VStr message /\
  Verify.skipped (Verify.aiReview st) = VUndef /\
  truthy (Verify.overallPass (Verify.summary st)) = false /\
  Verify.exitCode (Verify.main opts w) = 1%Z.
Proof.
  intros Hw (Hs & Hk & He) Hc.
  assert (G : Verify.aiReview st = Verify.failedReview message).
  { rewrite (aiReview_written _ _ _ Hw). unfold Verify.runAiReview.
    rewrite Hs, Hk, He. cbn [negb]. fold (reviewArgs opts).
    destruct Hc as [[Hc Hf]|[out Hc]]; rewrite Hc.
    - destruct Hf as [->|[m ->]]; reflexivity.
    - reflexivity. }
  assert (O : truthy (Verify.overallPass (Verify.summary st)) = false).
  { destruct (truthy (Verify.overallPass (Verify.summary st))) eqn:E; auto.
    apply (overall_written _ _ _ Hw) in E. destruct E as (_ & _ & _ & [E|E]);
      rewrite G in E; discriminate. }
  rewrite G. cbn [Verify.failedReview Verify.success Verify.error Verify.skipped].
  repeat split; auto. exact (wrote_exit_failed _ _ _ Hw O).
Qed.

(** X5. When the review script finds nothing to review it writes no
    result and exits with code 0, and verify then takes the verdict of the
    review from whatever result file an earlier run left: with none, the
    gate passes; with one, the gate has the verdict and tiers of that
    earlier review; with an unreadable one, the gate fails. *)
Theorem nothing_to_review_reuses_result opts w st codeContext securityCall qualityCall
        before out err message :
  wrote opts w st ->
  review_runs opts w ->
  (forall aiArgs,
     Verify.reviewChild w aiArgs
     = reviewChildOf codeContext securityCall qualityCall before out err message aiArgs) ->
  AiReview.noCode codeContext = true ->
  (forall aopts,
     AiReview.main aopts codeContext securityCall qualityCall
     = {| AiReview.written := None; AiReview.exitCode := 0 |}) /\
  Verify.skipped (Verify.aiReview st) = VUndef /\
  match before with
  | FileAbsent =>
      Verify.success (Verify.aiReview st) = VBool true /\
      Verify.output (Verify.aiReview st) = VStr out /\
      Verify.securityRisk (Verify.aiReview st) = VUndef
  | FileResults earlier =>
      Verify.success (Verify.aiReview st)
        = AiReview.passesReview (AiReview.summary earlier) /\
      Verify.securityRisk (Verify.aiReview st)
        = AiReview.securityRisk (AiReview.summary earlier) /\
      Verify.codeQuality (Verify.aiReview st)
        = AiReview.codeQuality (AiReview.summary earlier)
  | FileThrows m =>
      Verify.success (Verify.aiReview st) = VBool false /\
      Verify.error (Verify.aiReview st) = VStr m
  end.
Proof.
  intros Hw (Hs & Hk & He) Hc Hn.
  assert (M : forall aopts,
             AiReview.main aopts codeContext securityCall qualityCall
             = {| AiReview.written := None; AiReview.exitCode := 0 |}).
  { intros aopts. unfold AiReview.main. rewrite Hn. reflexivity. }
  split; [exact M|].
  rewrite (aiReview_written _ _ _ Hw). unfold Verify.runAiReview.
  rewrite Hs, Hk, He. cbn [negb]. rewrite Hc. unfold reviewChildOf.
  rewrite M. cbn [AiReview.exitCode Z.eqb]. unfold fileAfter. cbn [AiReview.written].
  destruct before as [|m|earlier].
  - cbn. auto.
  - cbn. auto.
  - destruct (reviewGate_success earlier false) as (g & -> & S1 & S2 & S3 & S4).
    rewrite S1, S2, S3, S4. auto.
Qed.

(** X6. In a security-only review the quality call is never used: the
    run of the review script, and so the child that verify starts with
    [--security-focus], is the same whatever that call would return, and
    the result has no quality verdict and the quality tier [UNKNOWN]. *)
Theorem security_focus_ignores_quality_call aopts codeContext securityCall
        qualityCall qualityCall' :
  AiReview.securityFocus aopts = true ->
  AiReview.main aopts codeContext securityCall qualityCall
  = AiReview.main aopts codeContext securityCall qualityCall' /\
  (forall path results,
     AiReview.written (AiReview.main aopts codeContext securityCall qualityCall)
     = Some (path, results) ->
     AiReview.qualityReview results = VNull /\
     AiReview.codeQuality (AiReview.summary results) = VStr (str "UNKNOWN")) /\
  (forall before out err message,
     reviewChildOf codeContext securityCall qualityCall before out err message
                   [str "--security-focus"]
     = reviewChildOf codeContext securityCall qualityCall' before out err message
                     [str "--security-focus"]).
Proof.
  intros Hf.
  assert (A : forall o qc qc', AiReview.securityFocus o = true ->
              AiReview.main o codeContext securityCall qc
              = AiReview.main o codeContext securityCall qc').
  { intros o qc qc' H. unfold AiReview.main. rewrite H. reflexivity. }
  split; [apply A; exact Hf|]. split.
  - intros path results. unfold AiReview.main. rewrite Hf. cbn [negb].
    destruct (AiReview.noCode codeContext); [discriminate|].
    set (r1 := AiReview.securityStep securityCall AiReview.initialResults).
    assert (Q : AiReview.qualityReview r1 = VNull /\
                AiReview.codeQuality (AiReview.summary r1) = VStr (str "UNKNOWN")).
    { unfold r1, AiReview.securityStep, AiReview.reviewStep.
      destruct securityCall as [text|f]; [|split; reflexivity].
      destruct (AiReview.parseGeminiResponse text) as [verdict|m]; [|split; reflexivity].
      destruct (getProp verdict (str "overallRisk")) as [tier|m]; [|split; reflexivity].
      destruct (_ <- AiReview.logTier tier ;; _); destruct (truthy tier); split; reflexivity. }
    destruct (_ <- AiReview.securityPass r1 ;; _) as [passes|]; [|discriminate].
    cbn. intros H. injection H as _ <-. exact Q.
  - intros before out err message. unfold reviewChildOf.
    rewrite (A _ qualityCall qualityCall'); reflexivity.
Qed.

End ReviewGateMore.

Lemma review_not_run_is_skipped_witness :
  exists st,
    wrote (RT := Reference.runtime) (Verify.parseOptions []) Scenario.auditFailsQuietly st /\
    review_not_run (Verify.parseOptions []) Scenario.auditFailsQuietly /\
    Verify.aiReviewPass (Verify.summary st) = VBool true.
Proof.
  eexists. split; [reflexivity|].
  assert (H : review_not_run (Verify.parseOptions []) Scenario.auditFailsQuietly).
  { right. left. reflexivity. }
  split; [exact H|].
  exact (proj1 (proj2 (proj2 (proj2
           (review_not_run_is_skipped (RT := Reference.runtime)
              (Verify.parseOptions []) Scenario.auditFailsQuietly _ eq_refl H))))).
Defined.

Lemma failed_review_child_fails_gate_witness :
  exists st,
    wrote (RT := Reference.runtime) (Verify.parseOptions []) Cases.reviewCrashes st /\
    review_runs (Verify.parseOptions []) Cases.reviewCrashes /\
    Verify.error (Verify.aiReview st) = VStr (str "spawnSync /bin/sh ETIMEDOUT") /\
    Verify.exitCode (Verify.main (RT := Reference.runtime) (Verify.parseOptions [])
                                 Cases.reviewCrashes) = 1%Z.
Proof.
  eexists. split; [reflexivity|].
  assert (H : review_runs (Verify.parseOptions []) Cases.reviewCrashes).
  { repeat split. }
  split; [exact H|].
  destruct (failed_review_child_fails_gate (RT := Reference.runtime)
              (Verify.parseOptions []) Cases.reviewCrashes _
              (Some []) (Some []) (str "spawnSync /bin/sh ETIMEDOUT") FileAbsent
              eq_refl H (or_introl (conj eq_refl (or_introl eq_refl))))
    as (_ & A & _ & _ & B).
  split; [exact A|exact B].
Defined.

Lemma nothing_to_review_reuses_result_witness :
  exists st,
    wrote (RT := Reference.runtime) (Verify.parseOptions []) Cases.nothingToReview st /\
    AiReview.noCode [] = true /\
    Verify.success (Verify.aiReview st) = VBool false /\
    Verify.securityRisk (Verify.aiReview st) = VStr (str "HIGH").
Proof.
  eexists. split; [reflexivity|]. split; [reflexivity|].
  assert (H : review_runs (Verify.parseOptions []) Cases.nothingToReview).
  { repeat split. }
  destruct (nothing_to_review_reuses_result (RT := Reference.runtime)
              (Verify.parseOptions []) Cases.nothingToReview _ []
              (AiReview.Rejected AiReview.Timeout) (AiReview.Rejected AiReview.Timeout)
              (FileResults Cases.earlierResults) (str "No code found to review.") []
              (str "Command failed: node scripts/ai-review.js")
              eq_refl H (fun _ => eq_refl) eq_refl)
    as (_ & _ & A & B & _).
  split; [exact A|exact B].
Defined.

Lemma security_focus_ignores_quality_call_witness :
  AiReview.securityFocus (AiReview.parseOptions [str "--security-focus"]) = true /\
  AiReview.main (RT := Reference.runtime) (AiReview.parseOptions [str "--security-focus"])
    Scenario.codeContext (AiReview.Rejected AiReview.Timeout)
    (AiReview.Resolved (VStr (quoted "{'overallQuality':'NEEDS_WORK'}")))
  = AiReview.main (RT := Reference.runtime) (AiReview.parseOptions [str "--security-focus"])
      Scenario.codeContext (AiReview.Rejected AiReview.Timeout)
      (AiReview.Rejected AiReview.Timeout).
Proof.
  split; [reflexivity|].
  exact (proj1 (security_focus_ignores_quality_call (RT := Reference.runtime)
                  (AiReview.parseOptions [str "--security-focus"]) Scenario.codeContext
                  (AiReview.Rejected AiReview.Timeout)
                  (AiReview.Resolved (VStr (quoted "{'overallQuality':'NEEDS_WORK'}")))
                  (AiReview.Rejected AiReview.Timeout) eq_refl)).
Defined.

(** ** Further properties of the review script *)

Section ReviewMore.
Context {RT : Runtime}.

Lemma parse_raw (response : jstring) :
  AiReview.strategy1 response = None ->
  AiReview.strategy2 response = None ->
  AiReview.strategy3 response = None ->
  AiReview.parseGeminiResponse (VStr response) = Normal (AiReview.rawVerdict response).
Proof.
  intros H1 H2 H3. simpl. unfold AiReview.parseString. rewrite H1, H2, H3. reflexivity.
Qed.

(** A review whose answer degrades to the raw verdict records that verdict
    and leaves the summary as it was. *)
Lemma reviewStep_raw tierKey labelKey setVerdict setTier response results :
  jstring_eqb tierKey (str "summary") = false ->
  jstring_eqb tierKey (str "issues") = false ->
  jstring_eqb tierKey (str "raw") = false ->
  AiReview.strategy1 response = None ->
  AiReview.strategy2 response = None ->
  AiReview.strategy3 response = None ->
  AiReview.reviewStep tierKey labelKey setVerdict setTier
    (AiReview.Resolved (VStr response)) results
  = setVerdict (AiReview.rawVerdict response) results.
Proof.
  intros K1 K2 K3 H1 H2 H3. unfold AiReview.reviewStep.
  rewrite (parse_raw _ H1 H2 H3).
  assert (T : getProp (AiReview.rawVerdict response) tierKey = Normal VUndef).
  { unfold AiReview.rawVerdict, getProp. cbn [lookup]. rewrite K1, K2, K3. reflexivity. }
  rewrite T. reflexivity.
Qed.

(** X7. An answer that none of the three strategies can read never fails
    the review: when the security answer, and the quality answer unless the
    review is security-only, degrade to the raw verdict, the script records
    the raw verdicts, leaves both tiers [UNKNOWN], sets [passesReview] to
    [true] and exits with code 0. *)
Theorem unreadable_answers_pass_review opts codeContext security quality :
  AiReview.noCode codeContext = false ->
  AiReview.strategy1 security = None ->
  AiReview.strategy2 security = None ->
  AiReview.strategy3 security = None ->
  (AiReview.securityFocus opts = true \/
   AiReview.strategy1 quality = None /\ AiReview.strategy2 quality = None /\
   AiReview.strategy3 quality = None) ->
  AiReview.main opts codeContext (AiReview.Resolved (VStr security))
                (AiReview.Resolved (VStr quality))
  = {| AiReview.written :=
         Some (AiReview.outputPath opts,
               {| AiReview.securityReview := AiReview.rawVerdict security;
                  AiReview.qualityReview :=
                    if AiReview.securityFocus opts then VNull
                    else AiReview.rawVerdict quality;
                  AiReview.summary :=
                    {| AiReview.securityRisk := VStr (str "UNKNOWN");
                       AiReview.codeQuality := VStr (str "UNKNOWN");
                       AiReview.passesReview := VBool true |} |});
       AiReview.exitCode := 0 |}.
Proof.
  intros Hc S1 S2 S3 Hq. unfold AiReview.main. rewrite Hc.
  unfold AiReview.securityStep.
  rewrite (reviewStep_raw (str "overallRisk") _ _ _ _ _ eq_refl eq_refl eq_refl S1 S2 S3).
  destruct (AiReview.securityFocus opts) eqn:F; cbn [negb].
  - reflexivity.
  - destruct Hq as [Hq|(Q1 & Q2 & Q3)]; [discriminate|].
    unfold AiReview.qualityStep.
    rewrite (reviewStep_raw (str "overallQuality") _ _ _ _ _ eq_refl eq_refl eq_refl Q1 Q2 Q3).
    reflexivity.
Qed.

(** X8. When the logging of a parsed security verdict throws (an issue
    that is [null], issues that are an object, a tier or a field that
    cannot be converted to text), the handler replaces the verdict by the
    error while the summary keeps the tier that was already assigned, and
    the security check then passes whatever that tier is. *)
Theorem logging_error_passes_security text verdict tier message results :
  AiReview.parseGeminiResponse text = Normal verdict ->
  getProp verdict (str "overallRisk") = Normal tier ->
  (_ <- AiReview.logTier tier ;; AiReview.logIssues (str "severity") verdict)
    = Throw message ->
  let after := AiReview.securityStep (AiReview.Resolved text) results in
  AiReview.securityReview after = AiReview.errorVerdict message /\
  AiReview.securityRisk (AiReview.summary after)
    = (if truthy tier then tier else AiReview.securityRisk (AiReview.summary results)) /\
  AiReview.securityPass after = Normal true.
Proof.
  intros Hp Ht Hl after. unfold after, AiReview.securityStep, AiReview.reviewStep.
  rewrite Hp, Ht, Hl. unfold AiReview.securityPass.
  destruct (truthy tier); cbn; auto.
Qed.

End ReviewMore.

(** ** The scan of strategy 3 *)

Lemma balancedPrefix_sound (s : jstring) :
  forall d sub,
    (0 < d)%Z ->
    AiReview.balancedPrefix d s = Some sub ->
    exists rest,
      s = sub ++ rest /\ sub <> [] /\ (d + depth sub = 0)%Z /\
      (exists front, sub = front ++ [AiReview.rbrace]) /\
      forall p q, sub = p ++ q -> q <> [] -> (0 < d + depth p)%Z.
Proof.
  induction s as [|c s IH]; intros d sub Hd H; [discriminate|].
  cbn [AiReview.balancedPrefix] in H.
  assert (E : (if N.eqb c AiReview.lbrace then (d + 1)%Z
               else if N.eqb c AiReview.rbrace then (d - 1)%Z else d)
              = (d + braceStep c)%Z).
  { unfold braceStep. destruct (N.eqb c AiReview.lbrace); [lia|].
    destruct (N.eqb c AiReview.rbrace); lia. }
  rewrite E in H.
  destruct (Z.eqb_spec (d + braceStep c) 0) as [Z0|NZ].
  - injection H as <-. exists s. split; [reflexivity|]. split; [discriminate|].
    split; [cbn [depth]; lia|]. split.
    + exists []. simpl. f_equal.
      unfold braceStep in Z0. destruct (N.eqb_spec c AiReview.lbrace); [lia|].
      destruct (N.eqb_spec c AiReview.rbrace); [auto|lia].
    + intros p q Ep Hq. destruct p as [|x p]; [simpl; lia|].
      injection Ep as _ Ep. symmetry in Ep. apply app_eq_nil in Ep.
      destruct Ep as [_ Ep]. contradiction.
  - assert (Hd' : (0 < d + braceStep c)%Z).
    { unfold braceStep in *. destruct (N.eqb c AiReview.lbrace); [lia|].
      destruct (N.eqb c AiReview.rbrace); lia. }
    destruct (AiReview.balancedPrefix (d + braceStep c) s) as [sub'|] eqn:B;
      [|discriminate].
    cbn in H. injection H as <-.
    destruct (IH _ _ Hd' B) as (rest & Es & Hne & Hz & (front & Ef) & Hp).
    exists rest. split; [simpl; rewrite <- Es; reflexivity|].
    split; [discriminate|]. split; [cbn [depth]; lia|]. split.
    + exists (c :: front). simpl. rewrite Ef. reflexivity.
    + intros p q Ep Hq. destruct p as [|x p]; [simpl; lia|].
      injection Ep as <- Ep. cbn [depth].
      specialize (Hp p q Ep Hq). lia.
Qed.

Section ScanFacts.
Context {RT : Runtime}.

Lemma indexOf_split c s start :
  indexOf c s = Some start ->
  exists pre rest,
    s = pre ++ c :: rest /\ length pre = start /\ indexOf c pre = None.
Proof.
  revert start. induction s as [|x s IH]; intros start H; [discriminate|].
  simpl in H. destruct (N.eqb_spec x c) as [->|Hx].
  - injection H as <-. exists [], s. auto.
  - destruct (indexOf c s) as [n|] eqn:E; [|discriminate].
    injection H as <-. destruct (IH n eq_refl) as (pre & rest & -> & Hl & Hn).
    exists (x :: pre), rest. split; [reflexivity|]. split; [simpl; lia|].
    simpl. destruct (N.eqb_spec x c); [contradiction|]. rewrite Hn. reflexivity.
Qed.

(** X9. The text that strategy 3 hands to [JSON.parse] is the run that
    starts at the first opening brace of the response and ends at the first
    closing brace at which the braces balance: its braces are properly
    nested, it ends with a closing brace, and nothing else of the response
    is ever tried; without an opening brace, or when the braces never
    balance, strategy 3 fails. *)
Theorem strategy3_tries_first_balanced_run (response : jstring) :
  (indexOf AiReview.lbrace response = None -> AiReview.strategy3 response = None) /\
  (forall start,
     indexOf AiReview.lbrace response = Some start ->
     AiReview.balancedPrefix 0 (skipn start response) = None ->
     AiReview.strategy3 response = None) /\
  (forall start run,
     indexOf AiReview.lbrace response = Some start ->
     AiReview.balancedPrefix 0 (skipn start response) = Some run ->
     AiReview.strategy3 response = JSON_parse run /\
     properly_nested run /\
     exists prose body rest,
       response = prose ++ run ++ rest /\
       indexOf AiReview.lbrace prose = None /\
       run = AiReview.lbrace :: body ++ [AiReview.rbrace]).
Proof.
  split; [|split].
  - intros H. unfold AiReview.strategy3. rewrite H. reflexivity.
  - intros start H B. unfold AiReview.strategy3. rewrite H, B. reflexivity.
  - intros start run H B.
    split; [unfold AiReview.strategy3; rewrite H, B; reflexivity|].
    destruct (indexOf_split _ _ _ H) as (prose & tail & -> & Hl & Hn).
    rewrite <- Hl, skipn_self in B.
    cbn [AiReview.balancedPrefix] in B. rewrite N.eqb_refl in B. cbn [Z.add Z.eqb] in B.
    destruct (AiReview.balancedPrefix 1 tail) as [sub|] eqn:B1; [|discriminate].
    cbn in B. injection B as <-.
    destruct (balancedPrefix_sound tail 1 sub ltac:(lia) B1)
      as (rest & -> & Hne & Hz & (front & ->) & Hp).
    assert (S1 : braceStep AiReview.lbrace = 1%Z) by reflexivity.
    split.
    + split; [discriminate|]. split.
      * cbn [depth]. rewrite S1. lia.
      * intros p q Ep Hpne Hq. destruct p as [|x p]; [contradiction|].
        injection Ep as <- Ep. cbn [depth]. rewrite S1.
        specialize (Hp p q Ep Hq). lia.
    + exists prose, front, rest. split; [reflexivity|split; [exact Hn|reflexivity]].
Qed.

End ScanFacts.

Lemma unreadable_answers_pass_review_witness :
  AiReview.noCode Scenario.codeContext = false /\
  AiReview.strategy1 (RT := Reference.runtime) Cases.proseAnswer = None /\
  AiReview.strategy2 (RT := Reference.runtime) Cases.proseAnswer = None /\
  AiReview.strategy3 (RT := Reference.runtime) Cases.proseAnswer = None /\
  AiReview.exitCode
    (AiReview.main (RT := Reference.runtime) (AiReview.parseOptions [])
       Scenario.codeContext (AiReview.Resolved (VStr Cases.proseAnswer))
       (AiReview.Resolved (VStr Cases.proseAnswer))) = 0%Z.
Proof.
  assert (H0 : AiReview.noCode Scenario.codeContext = false) by (vm_compute; reflexivity).
  assert (H1 : AiReview.strategy1 (RT := Reference.runtime) Cases.proseAnswer = None)
    by (vm_compute; reflexivity).
  assert (H2 : AiReview.strategy2 (RT := Reference.runtime) Cases.proseAnswer = None)
    by (vm_compute; reflexivity).
  assert (H3 : AiReview.strategy3 (RT := Reference.runtime) Cases.proseAnswer = None)
    by (vm_compute; reflexivity).
  split; [exact H0|]. split; [exact H1|]. split; [exact H2|]. split; [exact H3|].
  exact (f_equal AiReview.exitCode
           (unreadable_answers_pass_review (RT := Reference.runtime)
              (AiReview.parseOptions []) Scenario.codeContext
              Cases.proseAnswer Cases.proseAnswer H0 H1 H2 H3
              (or_intror (conj H1 (conj H2 H3))))).
Defined.

Lemma logging_error_passes_security_witness :
  exists message,
    AiReview.parseGeminiResponse (RT := Reference.runtime) Cases.nullIssueAnswer
      = Normal Cases.nullIssueVerdict /\
    (_ <- AiReview.logTier (RT := Reference.runtime) (VStr (str "CRITICAL")) ;;
     AiReview.logIssues (RT := Reference.runtime) (str "severity") Cases.nullIssueVerdict)
      = Throw message /\
    AiReview.securityRisk
      (AiReview.summary
         (AiReview.securityStep (RT := Reference.runtime)
            (AiReview.Resolved Cases.nullIssueAnswer) AiReview.initialResults))
      = VStr (str "CRITICAL") /\
    AiReview.securityPass (RT := Reference.runtime)
      (AiReview.securityStep (RT := Reference.runtime)
         (AiReview.Resolved Cases.nullIssueAnswer) AiReview.initialResults)
      = Normal true.
Proof.
  eexists.
  assert (H1 : AiReview.parseGeminiResponse (RT := Reference.runtime) Cases.nullIssueAnswer
               = Normal Cases.nullIssueVerdict) by (vm_compute; reflexivity).
  split; [exact H1|].
  assert (H2 : getProp (RT := Reference.runtime) Cases.nullIssueVerdict (str "overallRisk")
               = Normal (VStr (str "CRITICAL"))) by (vm_compute; reflexivity).
  split; [vm_compute; reflexivity|].
  destruct (logging_error_passes_security (RT := Reference.runtime)
              Cases.nullIssueAnswer Cases.nullIssueVerdict (VStr (str "CRITICAL")) _
              AiReview.initialResults H1 H2 eq_refl) as (_ & A & B).
  split; [exact A|exact B].
Defined.

Lemma strategy3_tries_first_balanced_run_witness :
  indexOf AiReview.lbrace (Scenario.proseBefore ++ Scenario.verdictText ++ Scenario.proseAfter)
    = Some 33 /\
  AiReview.balancedPrefix 0
    (skipn 33 (Scenario.proseBefore ++ Scenario.verdictText ++ Scenario.proseAfter))
    = Some Scenario.verdictText /\
  properly_nested Scenario.verdictText.
Proof.
  assert (H1 : indexOf AiReview.lbrace
                 (Scenario.proseBefore ++ Scenario.verdictText ++ Scenario.proseAfter)
               = Some 33) by (vm_compute; reflexivity).
  assert (H2 : AiReview.balancedPrefix 0
                 (skipn 33 (Scenario.proseBefore ++ Scenario.verdictText
                              ++ Scenario.proseAfter))
               = Some Scenario.verdictText) by (vm_compute; reflexivity).
  split; [exact H1|]. split; [exact H2|].
  exact (proj1 (proj2 (proj2 (proj2 (strategy3_tries_first_balanced_run
                                       (RT := Reference.runtime)
                                       (Scenario.proseBefore ++ Scenario.verdictText
                                          ++ Scenario.proseAfter)))
                             33 Scenario.verdictText H1 H2))).
Defined.

(** ** The snapshot and the ship run that follows *)

Section SnapshotMore.
Context {RT : Runtime}.

Lemma setHash_fresh (f h : jstring) (m : list (jstring * jstring)) :
  ~ In f (map fst m) -> Verify.setHash f h m = m ++ [(f, h)].
Proof.
  induction m as [|[k v] m IH]; intros H; simpl; [reflexivity|].
  destruct (jstring_eqb f k) eqn:E.
  - apply jstring_eqb_eq in E. subst k. exfalso. apply H. left. reflexivity.
  - rewrite IH; [reflexivity|]. intros Hin. apply H. right. exact Hin.
Qed.

Lemma setHash_same_keys (f h : jstring) (m : list (jstring * jstring)) :
  In f (map fst m) -> map fst (Verify.setHash f h m) = map fst m.
Proof.
  induction m as [|[k v] m IH]; intros H; simpl; [contradiction|].
  destruct (jstring_eqb f k) eqn:E; simpl; [reflexivity|].
  f_equal. apply IH. destruct H as [H|H]; auto.
  cbn in H. subst k. rewrite jstring_eqb_refl in E. discriminate.
Qed.

Lemma In_dec_key (f : jstring) (ks : list jstring) : In f ks \/ ~ In f ks.
Proof.
  destruct (in_dec (list_eq_dec N.eq_dec) f ks); auto.
Qed.

Lemma setHash_NoDup (f h : jstring) (m : list (jstring * jstring)) :
  NoDup (map fst m) -> NoDup (map fst (Verify.setHash f h m)).
Proof.
  intros H. destruct (In_dec_key f (map fst m)) as [Hin|Hout].
  - rewrite setHash_same_keys; auto.
  - rewrite setHash_fresh by exact Hout. rewrite map_app. simpl.
    apply NoDup_app; auto.
    + constructor; [intros []|constructor].
    + intros x Hx [<-|[]]. contradiction.
Qed.

Lemma hashStep_cases (disk : filesystem) (f : jstring) (m : list (jstring * jstring)) :
  (if truthy (Verify.hashFile disk f)
   then match Verify.hashFile disk f with
        | VStr h => Verify.setHash f h m
        | _ => m
        end
   else m)
  = if hashable disk f then Verify.setHash f (digestOf disk f) m else m.
Proof.
  unfold hashable, digestOf.
  destruct (Verify.hashFile disk f) as [| | | |h| |]; try (destruct (truthy _); reflexivity).
  destruct h; reflexivity.
Qed.

Lemma hashAll_step (disk : filesystem) f files m :
  Verify.hashAll disk (f :: files) m
  = Verify.hashAll disk files
      (if hashable disk f then Verify.setHash f (digestOf disk f) m else m).
Proof. cbn [Verify.hashAll]. rewrite hashStep_cases. reflexivity. Qed.

Lemma hashAll_NoDup (disk : filesystem) (files : list jstring) :
  forall m, NoDup (map fst m) -> NoDup (map fst (Verify.hashAll disk files m)).
Proof.
  induction files as [|f files IH]; intros m H; [exact H|].
  rewrite hashAll_step. apply IH. destruct (hashable disk f); auto using setHash_NoDup.
Qed.

Lemma setHash_entries (f h : jstring) (m : list (jstring * jstring)) k v :
  In (k, v) (Verify.setHash f h m) -> In (k, v) m \/ (k = f /\ v = h).
Proof.
  induction m as [|[k' v'] m IH]; simpl.
  - intros [E|[]]. injection E as <- <-. auto.
  - destruct (jstring_eqb f k') eqn:E; simpl.
    + apply jstring_eqb_eq in E. subst k'. intros [H|H]; auto.
      injection H as <- <-. auto.
    + intros [H|H]; auto. destruct (IH H); auto.
Qed.

Lemma hashAll_entries (disk : filesystem) (files : list jstring) :
  forall m k v,
    In (k, v) (Verify.hashAll disk files m) ->
    In (k, v) m \/
    (In k files /\ Verify.hashFile disk k = VStr v /\ v <> []).
Proof.
  induction files as [|f files IH]; intros m k v H; [left; exact H|].
  rewrite hashAll_step in H. apply IH in H. destruct H as [H|(H1 & H2)].
  - destruct (hashable disk f) eqn:Hh; auto.
    apply setHash_entries in H. destruct H as [H|[-> ->]]; auto.
    right. split; [left; reflexivity|].
    unfold hashable, digestOf in *.
    destruct (Verify.hashFile disk f) as [| | | |h| |]; try discriminate.
    destruct h; [discriminate|]. split; [reflexivity|discriminate].
  - right. split; [right; exact H1 | exact H2].
Qed.

Lemma hashAll_closed (disk : filesystem) (files : list jstring) :
  forall m,
    NoDup files ->
    (forall f, In f files -> ~ In f (map fst m)) ->
    Verify.hashAll disk files m
    = m ++ map (fun f => (f, digestOf disk f)) (filter (hashable disk) files).
Proof.
  induction files as [|f files IH]; intros m Hnd Hfresh.
  - simpl. rewrite app_nil_r. reflexivity.
  - rewrite hashAll_step. inversion Hnd as [|? ? Hf Hnd']; subst.
    cbn [filter]. destruct (hashable disk f) eqn:Hh.
    + rewrite setHash_fresh by (apply Hfresh; left; reflexivity).
      rewrite IH; auto.
      * rewrite <- app_assoc. reflexivity.
      * intros g Hg Hin. rewrite map_app in Hin. apply in_app_or in Hin.
        destruct Hin as [Hin|[<-|[]]].
        -- apply (Hfresh g); [right; exact Hg | exact Hin].
        -- contradiction.
    + apply IH; auto. intros g Hg. apply Hfresh. right. exact Hg.
Qed.

Lemma hashAll_length (disk : filesystem) (files : list jstring) :
  forall m, length (Verify.hashAll disk files m) <= length m + length files.
Proof.
  induction files as [|f files IH]; intros m; [simpl; lia|].
  rewrite hashAll_step. etransitivity; [apply IH|].
  destruct (hashable disk f); simpl; [|lia].
  assert (length (Verify.setHash f (digestOf disk f) m) <= S (length m)); [|lia].
  clear. induction m as [|[k v] m IHm]; simpl; [lia|].
  destruct (jstring_eqb f k); simpl; lia.
Qed.

(** X10. The snapshot that verify writes has one entry per path: its
    paths are distinct even when a path was found twice, every entry is a
    found file with the digest of its content, and [files.count] is their
    number, at most the number of files found. When no path was found
    twice, the snapshot is exactly the found files that could be hashed, in
    the order found, each with its digest. *)
Theorem snapshot_is_hashed_files opts w st :
  wrote opts w st ->
  NoDup (map fst (Verify.hashes st)) /\
  (forall k v, In (k, v) (Verify.hashes st) ->
               In k (Verify.found w) /\
               Verify.hashFile (Verify.fs w) k = VStr v /\ v <> []) /\
  Verify.count st = length (Verify.hashes st) /\
  Verify.count st <= length (Verify.found w) /\
  (NoDup (Verify.found w) ->
   Verify.hashes st
   = map (fun f => (f, digestOf (Verify.fs w) f))
         (filter (hashable (Verify.fs w)) (Verify.found w))).
Proof.
  intros Hw. destruct (wrote_inv _ _ _ Hw) as (t & l & a & _ & _ & _ & ->).
  cbn [Verify.hashes Verify.count]. split; [|split; [|split; [|split]]].
  - apply hashAll_NoDup. constructor.
  - intros k v H. apply hashAll_entries in H. destruct H as [[]|H]. exact H.
  - reflexivity.
  - apply (hashAll_length (Verify.fs w) (Verify.found w) []).
  - intros Hnd. rewrite hashAll_closed; auto.
Qed.

Lemma gate_passed_shape (g : Verify.gate_result) :
  (exists why, g = Verify.skippedGate why) \/ (exists r, g = Verify.commandGate r) ->
  Verify.passed g = VBool true \/ Verify.passed g = VUndef.
Proof.
  intros [[why ->]|[r ->]]; unfold Verify.passed; cbn; auto.
  destruct (Verify.cmd_success r); cbn; auto.
Qed.

Lemma runTests_shape opts w t :
  Verify.runTests opts w = Normal t ->
  (exists why, t = Verify.skippedGate why) \/ (exists r, t = Verify.commandGate r).
Proof.
  unfold Verify.runTests. destruct (Verify.skipTests opts).
  - intros H. injection H as <-. eauto.
  - destruct (Verify.checkScript _ _).
    + intros H. injection H as <-. eauto.
    + intros H. injection H as <-. eauto.
    + unfold Verify.commandResult.
      destruct (runCommand_normal (Verify.exec w (str "npm test 2>&1"))) as [r ->].
      cbn. intros H. injection H as <-. eauto.
Qed.

Lemma runLint_shape opts w l :
  Verify.runLint opts w = Normal l ->
  (exists why, l = Verify.skippedGate why) \/ (exists r, l = Verify.commandGate r).
Proof.
  unfold Verify.runLint. destruct (Verify.skipLint opts).
  - intros H. injection H as <-. eauto.
  - destruct (Verify.checkScript _ _).
    + intros H. injection H as <-. eauto.
    + intros H. injection H as <-. eauto.
    + unfold Verify.commandResult.
      destruct (runCommand_normal (Verify.exec w (str "npm run lint 2>&1"))) as [r ->].
      cbn. intros H. injection H as <-. eauto.
Qed.

Lemma runAudit_shape w a :
  Verify.runAudit w = Normal a -> exists b, Verify.success a = VBool b.
Proof.
  unfold Verify.runAudit.
  destruct (runCommand_normal (Verify.exec w (str "npm audit --audit-level=high 2>&1")))
    as [r ->].
  cbn. intros H. injection H as <-. cbn. eauto.
Qed.

(** The gate check of ship on a state that verify wrote comes down to the
    persisted [overallPass]. *)
Lemma gatesPass_written opts w st :
  wrote opts w st ->
  Ship.gatesPass (Ship.checkGates (Ship.load st))
  = truthy (persist (Verify.overallPass (Verify.summary st))).
Proof.
  intros Hw. destruct (wrote_inv _ _ _ Hw) as (t & l & a & Ht & Hl & Ha & ->).
  destruct (gate_passed_shape t (runTests_shape _ _ _ Ht)) as [Pt|Pt];
  destruct (gate_passed_shape l (runLint_shape _ _ _ Hl)) as [Pl|Pl];
  destruct (runAudit_shape _ _ Ha) as [b Pa];
  unfold Ship.gatesPass, Ship.checkGates, Ship.flag; cbn; rewrite Pt, Pl, Pa;
    cbn; try reflexivity.
  - destruct b; cbn; [|reflexivity].
    rewrite !truthy_js_or. cbn. rewrite !orb_false_r, andb_true_r. reflexivity.
Qed.

Lemma integrity_unchanged opts w st :
  wrote opts w st ->
  Ship.verifyFileIntegrity (Ship.load st) (Verify.fs w)
  = {| Ship.verified := Verify.count st;
       Ship.modified := [];
       Ship.missing := [];
       Ship.total := Verify.count st |}.
Proof.
  intros Hw.
  assert (He : forall e, In e (Verify.hashes st) ->
                 isVerified (Verify.fs w) e = true /\
                 isModified (Verify.fs w) e = false /\
                 isMissing (Verify.fs w) e = false).
  { intros [k v] Hin.
    destruct (wrote_inv _ _ _ Hw) as (t & l & a & _ & _ & _ & Hst).
    rewrite Hst in Hin. cbn [Verify.hashes] in Hin.
    apply hashAll_entries in Hin. destruct Hin as [[]|(_ & Hh & _)].
    unfold isVerified, isModified, isMissing, Ship.existsSync, Ship.sameHash,
      Ship.hashFile. cbn [fst snd]. unfold Verify.hashFile in Hh.
    destruct (Verify.fs w k); try discriminate.
    injection Hh as ->. rewrite jstring_eqb_refl. auto. }
  rewrite integrity_closed. cbn [Ship.load Ship.hashes].
  assert (Hc : Verify.count st = length (Verify.hashes st)).
  { destruct (wrote_inv _ _ _ Hw) as (t & l & a & _ & _ & _ & ->). reflexivity. }
  rewrite Hc. clear Hc Hw.
  induction (Verify.hashes st) as [|e es IH]; [reflexivity|].
  destruct (He e (or_introl eq_refl)) as (A & B & C).
  cbn [filter]. rewrite A, B, C.
  assert (IH' := IH (fun x Hx => He x (or_intror Hx))).
  injection IH' as I1 I2 I3. cbn [length map]. rewrite I1, I2, I3. reflexivity.
Qed.

End SnapshotMore.

Lemma snapshot_is_hashed_files_witness :
  exists st,
    wrote (RT := Reference.runtime) (Verify.parseOptions []) Scenario.oneUnreadable st /\
    NoDup (map fst (Verify.hashes st)) /\
    Verify.count st <= 2.
Proof.
  eexists. split; [reflexivity|].
  destruct (snapshot_is_hashed_files (RT := Reference.runtime)
              (Verify.parseOptions []) Scenario.oneUnreadable _ eq_refl)
    as (A & _ & _ & B & _).
  split; [exact A|exact B].
Defined.

(** ** Further properties of the ship gate *)

Section ShipMore.
Context {RT : Runtime}.

(** X11. Ship accepts what verify just checked. When the state is the one
    a verify run wrote and the disk is as that run saw it, every file of
    the snapshot is verified and none is modified or missing; without
    [--create-pr], ship then exits with 0 exactly when the persisted
    [overallPass] is truthy. It exits with 1 whenever the [overallPass]
    that verify computed is not truthy, that is whenever verify exited with
    1 for any reason but a tier of the review that cannot be printed after
    the state was written. *)
Theorem ship_accepts_unchanged_tree vopts vw st sopts sw :
  wrote vopts vw st ->
  Ship.stateAt sw (Ship.statePath sopts) = Ship.StateFile (Ship.load st) ->
  Ship.fs sw = Verify.fs vw ->
  Ship.createPR sopts = false ->
  Ship.verifyFileIntegrity (Ship.load st) (Ship.fs sw)
  = {| Ship.verified := Verify.count st;
       Ship.modified := [];
       Ship.missing := [];
       Ship.total := Verify.count st |} /\
  Ship.exitCode (Ship.main sopts sw)
  = (if truthy (persist (Verify.overallPass (Verify.summary st))) then 0%Z else 1%Z) /\
  (truthy (Verify.overallPass (Verify.summary st)) = false ->
   Verify.exitCode (Verify.main vopts vw) = 1%Z /\
   Ship.exitCode (Ship.main sopts sw) = 1%Z) /\
  (Verify.exitCode (Verify.main vopts vw) = 1%Z ->
   Ship.exitCode (Ship.main sopts sw) = 1%Z \/
   exists m, Verify.printTiers (Verify.aiReview st) = Throw m) /\
  (Ship.exitCode (Ship.main sopts sw) = 0%Z ->
   In Ship.ReadyToShip (Ship.trace (Ship.main sopts sw))).
Proof.
  intros Hw Hs Hfs Hpr.
  assert (Hi := integrity_unchanged _ _ _ Hw). rewrite <- Hfs in Hi.
  assert (Hg := gatesPass_written _ _ _ Hw).
  assert (He : Ship.exitCode (Ship.main sopts sw)
               = (if truthy (persist (Verify.overallPass (Verify.summary st)))
                  then 0%Z else 1%Z) /\
               (Ship.exitCode (Ship.main sopts sw) = 0%Z ->
                In Ship.ReadyToShip (Ship.trace (Ship.main sopts sw)))).
  { unfold Ship.main, Ship.loadVerifyState. rewrite Hs, Hg.
    destruct (truthy (persist (Verify.overallPass (Verify.summary st)))); cbn [negb].
    - rewrite Hi, Hpr. cbn [Ship.modified Ship.missing Ship.exitCode Ship.trace].
      split; [reflexivity|]. intros _. apply in_or_app. left.
      apply in_or_app. right. left. reflexivity.
    - cbn [Ship.exitCode]. split; [reflexivity|discriminate]. }
  destruct He as [He Hr].
  assert (Hfail : truthy (Verify.overallPass (Verify.summary st)) = false ->
                  Ship.exitCode (Ship.main sopts sw) = 1%Z).
  { intros Ht. rewrite He, (persist_falsy _ Ht). reflexivity. }
  split; [exact Hi|]. split; [exact He|]. split; [|split; [|exact Hr]].
  - intros Ht. split; [exact (wrote_exit_failed _ _ _ Hw Ht)|exact (Hfail Ht)].
  - rewrite (wrote_exit _ _ _ Hw).
    destruct (Verify.printTiers (Verify.aiReview st)) as [u|m]; [|eauto].
    destruct (truthy (Verify.overallPass (Verify.summary st))) eqn:Ht; [discriminate|].
    intros _. left. exact (Hfail eq_refl).
Qed.

Lemma classes_partition (disk : filesystem) (entries : list (jstring * jstring)) :
  length (filter (isVerified disk) entries)
  + length (filter (isModified disk) entries)
  + length (filter (isMissing disk) entries) = length entries.
Proof.
  induction entries as [|e es IH]; [reflexivity|].
  cbn [filter length]. unfold isVerified, isModified, isMissing in *.
  destruct (Ship.existsSync disk (fst e)), (Ship.sameHash _ (snd e));
    cbn [andb negb length]; lia.
Qed.

(** X12. The integrity check puts every entry of the snapshot in exactly
    one class: the three counts add up to [total], the number of entries. A
    path is reported missing exactly when the snapshot lists it and the disk
    does not hold it, and a report of a modified file is exactly that of a
    listed path that exists and whose digest now is not the recorded one.
    Nothing else on the disk is looked at: a file that the snapshot does
    not list changes no part of the result. *)
Theorem integrity_partitions_snapshot (s : Ship.state) (disk : filesystem) :
  let ir := Ship.verifyFileIntegrity s disk in
  Ship.verified ir + length (Ship.modified ir) + length (Ship.missing ir)
  = Ship.total ir /\
  Ship.total ir = length (Ship.hashes s) /\
  (forall f, In f (Ship.missing ir) <->
             exists h, In (f, h) (Ship.hashes s) /\ disk f = Missing) /\
  (forall m, In m (Ship.modified ir) <->
             exists f h, In (f, h) (Ship.hashes s) /\ disk f <> Missing /\
                         Ship.hashFile disk f <> VStr h /\
                         m = modificationOf disk (f, h)) /\
  (forall disk', (forall f h, In (f, h) (Ship.hashes s) -> disk' f = disk f) ->
                 Ship.verifyFileIntegrity s disk' = ir).
Proof.
  intros ir. unfold ir. rewrite integrity_closed.
  cbn [Ship.verified Ship.modified Ship.missing Ship.total].
  split; [|split; [|split; [|split]]].
  - rewrite !length_map. apply classes_partition.
  - reflexivity.
  - intros f. rewrite in_map_iff. split.
    + intros [[k h] [<- Hin]]. apply filter_In in Hin. destruct Hin as [Hin Hm].
      exists h. split; [exact Hin|].
      unfold isMissing, Ship.existsSync in Hm. cbn [fst] in *.
      destruct (disk k); [reflexivity|discriminate|discriminate].
    + intros [h [Hin Hd]]. exists (f, h). split; [reflexivity|].
      apply filter_In. split; [exact Hin|].
      unfold isMissing, Ship.existsSync. cbn [fst]. rewrite Hd. reflexivity.
  - intros m. rewrite in_map_iff. split.
    + intros [[k h] [<- Hin]]. apply filter_In in Hin. destruct Hin as [Hin Hm].
      exists k, h. split; [exact Hin|].
      unfold isModified in Hm. apply andb_true_iff in Hm. destruct Hm as [He Hn].
      cbn [fst snd] in *. split; [|split; [|reflexivity]].
      * unfold Ship.existsSync in He. destruct (disk k); [discriminate| |]; discriminate.
      * intros Hx. rewrite Hx in Hn. cbn in Hn. rewrite jstring_eqb_refl in Hn.
        discriminate.
    + intros (f & h & Hin & Hd & Hh & ->). exists (f, h). split; [reflexivity|].
      apply filter_In. split; [exact Hin|].
      unfold isModified. cbn [fst snd]. apply andb_true_iff. split.
      * unfold Ship.existsSync. destruct (disk f); [contradiction| |]; reflexivity.
      * unfold Ship.sameHash. destruct (Ship.hashFile disk f) as [| | | |x| |];
          try reflexivity.
        destruct (jstring_eqb x h) eqn:E; [|reflexivity].
        apply jstring_eqb_eq in E. subst x. contradiction.
  - intros disk' Hsame. rewrite integrity_closed.
    assert (Hv : forall e, In e (Ship.hashes s) ->
                   isVerified disk' e = isVerified disk e /\
                   isModified disk' e = isModified disk e /\
                   isMissing disk' e = isMissing disk e /\
                   modificationOf disk' e = modificationOf disk e).
    { intros [f h] Hin. unfold isVerified, isModified, isMissing, modificationOf,
        Ship.existsSync, Ship.hashFile. cbn [fst snd]. rewrite (Hsame f h Hin). auto. }
    induction (Ship.hashes s) as [|e es IH]; [reflexivity|].
    destruct (Hv e (or_introl eq_refl)) as (A & B & C & D).
    assert (IH' := IH (fun f h Hin => Hsame f h (or_intror Hin))
                      (fun x Hx => Hv x (or_intror Hx))).
    injection IH' as I1 I2 I3.
    cbn [filter]. rewrite A, B, C.
    destruct (isVerified disk e), (isModified disk e), (isMissing disk e);
      cbn [length map]; rewrite ?D, ?I1, ?I2, ?I3; reflexivity.
Qed.

Lemma actualPrefix_not_null (v : value) : Ship.actualPrefix v <> str "null".
Proof.
  unfold Ship.actualPrefix. destruct v; try discriminate.
  unfold substring0.
  destruct (firstn 8 s) as [|a [|b [|c [|d [|e l]]]]]; discriminate.
Qed.

(** X13. A file of the snapshot that exists but cannot be read is
    reported as modified, with [undefined...] for its actual digest. No
    report ever shows [null]: the actual digest is [undefined...] for a file
    that cannot be read and the first eight characters of the digest of the
    content otherwise. *)
Theorem unreadable_file_reported_modified (s : Ship.state) (disk : filesystem) f h :
  In (f, h) (Ship.hashes s) ->
  disk f = Unreadable ->
  In {| Ship.mod_file := f;
        Ship.expected := substring0 8 h ++ str "...";
        Ship.actual := str "undefined..." |}
     (Ship.modified (Ship.verifyFileIntegrity s disk)) /\
  forall m, In m (Ship.modified (Ship.verifyFileIntegrity s disk)) ->
            Ship.actual m <> str "null" /\
            (disk (Ship.mod_file m) = Unreadable /\ Ship.actual m = str "undefined..." \/
             exists bytes, disk (Ship.mod_file m) = Content bytes /\
                           Ship.actual m = substring0 8 (sha256_hex bytes) ++ str "...").
Proof.
  intros Hin Hd. rewrite integrity_closed. cbn [Ship.modified]. split.
  - apply in_map_iff. exists (f, h). split.
    + unfold modificationOf, Ship.hashFile. cbn [fst snd]. rewrite Hd. reflexivity.
    + apply filter_In. split; [exact Hin|].
      unfold isModified, Ship.existsSync, Ship.hashFile. cbn [fst snd].
      rewrite Hd. reflexivity.
  - intros m Hm. apply in_map_iff in Hm. destruct Hm as [[k x] [<- Hk]].
    apply filter_In in Hk. destruct Hk as [_ Hk].
    unfold modificationOf. cbn [fst snd Ship.actual Ship.mod_file].
    split; [apply actualPrefix_not_null|].
    unfold isModified, Ship.existsSync, Ship.hashFile in *. cbn [fst snd] in Hk.
    destruct (disk k) as [| |bytes]; [discriminate| |].
    + left. split; reflexivity.
    + right. exists bytes. split; reflexivity.
Qed.

(** X14. Without a usable state nothing is checked: when the state file
    is absent, cannot be read or parsed, or holds a falsy value, ship exits
    with 1 and its trace is the banner, the notice of a dry run if it is
    one, and the report of the failed load, nothing else: no gate, integrity
    or release event happens. The report is [StateNotFound], which stands
    for the two lines printed for an absent file, or [StateParseError], the
    one line of a file that cannot be read or parsed; a state file that
    holds a falsy value, such as [null], ends the run without any report. *)
Theorem no_state_no_checks (opts : Ship.options) (w : Ship.world) :
  (forall s, Ship.stateAt w (Ship.statePath opts) <> Ship.StateFile s) ->
  Ship.exitCode (Ship.main opts w) = 1%Z /\
  (forall e, In e (Ship.trace (Ship.main opts w)) ->
             e = Ship.Banner \/ e = Ship.DryRunNotice \/
             (e = Ship.StateNotFound (Ship.statePath opts) /\
              Ship.stateAt w (Ship.statePath opts) = Ship.NoStateFile) \/
             exists m, e = Ship.StateParseError m /\
                       Ship.stateAt w (Ship.statePath opts) = Ship.BadStateFile m) /\
  (Ship.stateAt w (Ship.statePath opts) = Ship.FalsyState ->
   Ship.trace (Ship.main opts w)
   = Ship.Banner :: (if Ship.dryRun opts then [Ship.DryRunNotice] else [])) /\
  Ship.trace (Ship.main opts w)
  = Ship.Banner :: (if Ship.dryRun opts then [Ship.DryRunNotice] else [])
      ++ match Ship.stateAt w (Ship.statePath opts) with
         | Ship.NoStateFile => [Ship.StateNotFound (Ship.statePath opts)]
         | Ship.BadStateFile m => [Ship.StateParseError m]
         | _ => []
         end.
Proof.
  intros Hn. unfold Ship.main, Ship.loadVerifyState.
  destruct (Ship.stateAt w (Ship.statePath opts)) as [|m| |s] eqn:E;
    [| | |exfalso; apply (Hn s); reflexivity];
    cbn [Ship.exitCode Ship.trace]; (split; [reflexivity|]); (split; [|split]);
    try discriminate; try reflexivity;
    try (intros e He; destruct (Ship.dryRun opts); cbn in He;
         intuition (subst; eauto)).
  intros _. cbn. rewrite app_nil_r. reflexivity.
Qed.

Lemma filter_stale_notice (b : bool) :
  filter (fun e => negb (isStaleWarning e)) (if b then [Ship.StaleWarning] else []) = [].
Proof. destruct b; reflexivity. Qed.

Lemma runCommand_events (w : Ship.world) command :
  fst (Ship.runCommand w command) = [Ship.Ran command].
Proof. reflexivity. Qed.

Lemma getCurrentBranch_events (w : Ship.world) :
  fst (Ship.getCurrentBranch w) = [Ship.Ran (str "git branch --show-current")].
Proof. reflexivity. Qed.

Lemma getDefaultBranch_events (w : Ship.world) :
  forall e, In e (fst (Ship.getDefaultBranch w)) -> isRan e = true.
Proof.
  intros e. unfold Ship.getDefaultBranch, Ship.runCommand.
  destruct (Ship.exec w _) as [out|? ? ?]; cbn [Ship.cmd_success Ship.cmd_output].
  - destruct (trim out); cbn; intuition (subst; reflexivity).
  - cbn; intuition (subst; reflexivity).
Qed.

(** Everything [createPullRequest] prints or runs is an event of the
    release action. *)
Lemma createPullRequest_events opts w s ir :
  forall e, In e (fst (Ship.createPullRequest opts w s ir)) -> release_event e = true.
Proof.
  intros e. unfold Ship.createPullRequest.
  destruct (Ship.getCurrentBranch w) as [t1 branch] eqn:E1.
  destruct (Ship.getDefaultBranch w) as [t2 defaultBranch] eqn:E2.
  assert (H1 : forall x, In x t1 -> release_event x = true).
  { intros x Hx. assert (G := getCurrentBranch_events w). rewrite E1 in G.
    cbn in G. subst t1. destruct Hx as [<-|[]]. reflexivity. }
  assert (H2 : forall x, In x t2 -> release_event x = true).
  { intros x Hx. assert (G := getDefaultBranch_events w x). rewrite E2 in G.
    specialize (G Hx). destruct x; try discriminate. reflexivity. }
  assert (Ht : forall x, In x ([Ship.PreparingPR] ++ t1 ++ t2) -> release_event x = true).
  { intros x Hx. rewrite !in_app_iff in Hx. destruct Hx as [[<-|[]]|[Hx|Hx]]; auto. }
  assert (Hone : forall (tl : list Ship.event),
             (forall x, In x tl -> release_event x = true) ->
             In e (([Ship.PreparingPR] ++ t1 ++ t2) ++ tl) -> release_event e = true).
  { intros tl Htl He. apply in_app_or in He. destruct He; auto. }
  destruct branch as [[|c b]|].
  - cbn [fst]. apply Hone. intros x [<-|[]]. reflexivity.
  - destruct (jstring_eqb (c :: b) defaultBranch).
    + cbn [fst]. apply Hone. intros x [<-|[]]. reflexivity.
    + unfold Ship.runCommand.
      destruct (negb _).
      * cbn [fst]. apply Hone. intros x [<-|[<-|[]]]; reflexivity.
      * destruct (Ship.bodyOf s ir) as [prBody|m].
        -- destruct (Ship.dryRun opts).
           ++ cbn [fst]. apply Hone. intros x [<-|[<-|[]]]; reflexivity.
           ++ destruct (Ship.gh w _ _ _); cbn [fst]; apply Hone;
                intros x [<-|[<-|[<-|[]]]]; reflexivity.
        -- cbn [fst]. apply Hone. intros x [<-|[]]. reflexivity.
  - cbn [fst]. apply Hone. intros x [<-|[]]. reflexivity.
Qed.

Ltac stale_split_tac opts w n s :=
  eexists (([Ship.Banner] ++ (if Ship.dryRun opts then [Ship.DryRunNotice] else []))
             ++ [] ++ [Ship.Loaded (Ship.statePath opts) (Ship.timestamp s)]),
          _, _, (Ship.stale w s), (Ship.stale (withNow w n) s);
  cbn [Ship.exitCode Ship.trace];
  (split; [rewrite <- !app_assoc; reflexivity|]);
  (split; [rewrite <- !app_assoc; reflexivity|]);
  (split; [reflexivity|]); (split; [reflexivity|]);
  split; [|split].

(** The run is the same at any time, apart from the warning. *)
Lemma main_stale_split (opts : Ship.options) (w : Ship.world) (n : Z) :
  exists pre post code (b b' : bool),
    Ship.trace (Ship.main opts w)
    = pre ++ (if b then [Ship.StaleWarning] else []) ++ post /\
    Ship.trace (Ship.main opts (withNow w n))
    = pre ++ (if b' then [Ship.StaleWarning] else []) ++ post /\
    Ship.exitCode (Ship.main opts w) = code /\
    Ship.exitCode (Ship.main opts (withNow w n)) = code /\
    ~ In Ship.StaleWarning pre /\ ~ In Ship.StaleWarning post /\
    (b = true <->
     exists s verifyTime,
       Ship.stateAt w (Ship.statePath opts) = Ship.StateFile s /\
       Date_getTime (Ship.timestamp s) = Some verifyTime /\
       (14400000 < Ship.now w - verifyTime)%Z).
Proof.
  assert (Hc : forall s ir, Ship.createPullRequest opts (withNow w n) s ir
                            = Ship.createPullRequest opts w s ir) by reflexivity.
  assert (Hdry : ~ In Ship.StaleWarning
                     ([Ship.Banner] ++ (if Ship.dryRun opts then [Ship.DryRunNotice] else []))).
  { destruct (Ship.dryRun opts); cbn; intuition discriminate. }
  unfold Ship.main, Ship.loadVerifyState. cbn [withNow Ship.stateAt Ship.fs].
  destruct (Ship.stateAt w (Ship.statePath opts)) as [|m| |s] eqn:E;
    cbn [Ship.exitCode Ship.trace].
  1: exists (([Ship.Banner] ++ (if Ship.dryRun opts then [Ship.DryRunNotice] else []))
               ++ [Ship.StateNotFound (Ship.statePath opts)]), [], 1%Z, false, false.
  2: exists (([Ship.Banner] ++ (if Ship.dryRun opts then [Ship.DryRunNotice] else []))
               ++ [Ship.StateParseError m]), [], 1%Z, false, false.
  3: exists (([Ship.Banner] ++ (if Ship.dryRun opts then [Ship.DryRunNotice] else []))
               ++ []), [], 1%Z, false, false.
  1-3: cbn [app]; rewrite ?app_nil_r;
       (split; [reflexivity|]); (split; [reflexivity|]);
       (split; [reflexivity|]); (split; [reflexivity|]);
       (split; [destruct (Ship.dryRun opts); cbn; intuition discriminate|]);
       (split; [intros []|]);
       (split; [discriminate|intros (s & t & Hs & _); congruence]).
  assert (Hstale : Ship.stale w s = true <->
                   exists s0 verifyTime,
                     Ship.StateFile s = Ship.StateFile s0 /\
                     Date_getTime (Ship.timestamp s0) = Some verifyTime /\
                     (14400000 < Ship.now w - verifyTime)%Z).
  { unfold Ship.stale. destruct (Date_getTime (Ship.timestamp s)) as [t|] eqn:Et.
    - rewrite Z.ltb_lt. split; [intros H; exists s, t; auto|].
      intros (s' & t' & A & Ht & Hlt). injection A as <-. congruence.
    - split; [discriminate|]. intros (s' & t' & A & Ht & _). injection A as <-.
      congruence. }
  rewrite Hc.
  set (ir := Ship.verifyFileIntegrity s (Ship.fs w)).
  assert (Hge : ~ In Ship.StaleWarning (Ship.gateEvents (Ship.checkGates s))).
  { unfold Ship.gateEvents. rewrite in_map_iff. intros (x & Hx & _). discriminate. }
  assert (Hpre : ~ In Ship.StaleWarning
                   (([Ship.Banner] ++ (if Ship.dryRun opts then [Ship.DryRunNotice] else []))
                      ++ [] ++ [Ship.Loaded (Ship.statePath opts) (Ship.timestamp s)])).
  { rewrite !in_app_iff. cbn. cbn in Hdry. intuition discriminate. }
  assert (Hpr : forall tp c, Ship.createPullRequest opts w s ir = (tp, c) ->
                             ~ In Ship.StaleWarning tp).
  { intros tp c Ec Hin.
    assert (G := createPullRequest_events opts w s ir Ship.StaleWarning).
    rewrite Ec in G. specialize (G Hin). discriminate. }
  destruct (negb (Ship.gatesPass (Ship.checkGates s))).
  { stale_split_tac opts w n s; [exact Hpre| |exact Hstale].
    rewrite in_app_iff. cbn. intuition discriminate. }
  destruct (Ship.modified ir) as [|m0 ms] eqn:Em.
  2:{ stale_split_tac opts w n s; [exact Hpre| |exact Hstale].
      rewrite !in_app_iff, in_map_iff. cbn.
      intros [H|[[H|[]]|(x & Hx & _)]]; try discriminate. contradiction. }
  destruct (Ship.missing ir) as [|f0 fs0] eqn:Ef.
  2:{ stale_split_tac opts w n s; [exact Hpre| |exact Hstale].
      rewrite !in_app_iff, in_map_iff. cbn.
      intros [H|[[H|[]]|(x & Hx & _)]]; try discriminate. contradiction. }
  destruct (Ship.createPR opts).
  2:{ stale_split_tac opts w n s; [exact Hpre| |exact Hstale].
      rewrite !in_app_iff. cbn. intuition discriminate. }
  destruct (Ship.createPullRequest opts w s ir) as [tp [b|msg]] eqn:Ec;
    (stale_split_tac opts w n s; [exact Hpre| |exact Hstale]);
    rewrite !in_app_iff; cbn; assert (G := Hpr _ _ eq_refl);
    intuition discriminate.
Qed.

(** X15. The age of the verification only warns. Whatever the time of the
    run, the exit code is the same and the trace is the same apart from the
    warning, which is printed exactly when the state loads, its timestamp is
    a date and the run is more than four hours (14400000 ms) later. *)
Theorem stale_state_only_warns (opts : Ship.options) (w : Ship.world) (n : Z) :
  Ship.exitCode (Ship.main opts (withNow w n)) = Ship.exitCode (Ship.main opts w) /\
  filter (fun e => negb (isStaleWarning e)) (Ship.trace (Ship.main opts (withNow w n)))
  = filter (fun e => negb (isStaleWarning e)) (Ship.trace (Ship.main opts w)) /\
  (In Ship.StaleWarning (Ship.trace (Ship.main opts w)) <->
   exists s verifyTime,
     Ship.stateAt w (Ship.statePath opts) = Ship.StateFile s /\
     Date_getTime (Ship.timestamp s) = Some verifyTime /\
     (14400000 < Ship.now w - verifyTime)%Z).
Proof.
  destruct (main_stale_split opts w n)
    as (pre & post & code & b & b' & T & T' & C & C' & Hpre & Hpost & Hb).
  rewrite T, T', C, C'. split; [reflexivity|]. split.
  - rewrite !filter_app, !filter_stale_notice. reflexivity.
  - rewrite <- Hb, !in_app_iff. destruct b; cbn; intuition discriminate.
Qed.

End ShipMore.

Lemma ship_accepts_unchanged_tree_witness :
  exists st,
    wrote (RT := Reference.runtime) (Verify.parseOptions []) Scenario.oneUnreadable st /\
    Ship.createPR (Ship.parseOptions []) = false /\
    Ship.exitCode
      (Ship.main (RT := Reference.runtime) (Ship.parseOptions [])
         (Scenario.shipWorld (Ship.load st) (Verify.fs Scenario.oneUnreadable))) = 0%Z.
Proof.
  eexists. split; [reflexivity|]. split; [reflexivity|].
  refine (eq_trans
            (proj1 (proj2 (ship_accepts_unchanged_tree (RT := Reference.runtime)
                             (Verify.parseOptions []) Scenario.oneUnreadable _
                             (Ship.parseOptions [])
                             (Scenario.shipWorld _ (Verify.fs Scenario.oneUnreadable))
                             eq_refl eq_refl eq_refl eq_refl))) _).
  vm_compute. reflexivity.
Defined.

(** A tier that cannot be printed splits the exit codes: the review
    script, and then verify, end with code 1 after they wrote a passing
    result, and ship, run on that state and the same disk, exits with 0. *)
Example unprintable_tier_splits_exit_codes :
  exists st,
    wrote (RT := Reference.runtime) (Verify.parseOptions []) Cases.unprintableTier st /\
    Verify.overallPass (Verify.summary st) = VBool true /\
    (exists m, Verify.printTiers (RT := Reference.runtime) (Verify.aiReview st) = Throw m) /\
    Verify.exitCode (Verify.main (RT := Reference.runtime) (Verify.parseOptions [])
                                 Cases.unprintableTier) = 1%Z /\
    Ship.exitCode
      (Ship.main (RT := Reference.runtime) (Ship.parseOptions [])
         (Scenario.shipWorld (Ship.load st) (Verify.fs Cases.unprintableTier))) = 0%Z.
Proof.
  eexists. split; [reflexivity|].
  split; [vm_compute; reflexivity|]. split; [eexists; vm_compute; reflexivity|].
  split; vm_compute; reflexivity.
Qed.

Lemma unreadable_file_reported_modified_witness :
  In (str "a.txt", Reference.sha256 (Scenario.bytesOf "verified content"))
     (Ship.hashes Scenario.passingState) /\
  Cases.allUnreadable (str "a.txt") = Unreadable /\
  In {| Ship.mod_file := str "a.txt";
        Ship.expected :=
          substring0 8 (Reference.sha256 (Scenario.bytesOf "verified content")) ++ str "...";
        Ship.actual := str "undefined..." |}
     (Ship.modified
        (Ship.verifyFileIntegrity (RT := Reference.runtime) Scenario.passingState
           Cases.allUnreadable)).
Proof.
  assert (H : In (str "a.txt", Reference.sha256 (Scenario.bytesOf "verified content"))
                 (Ship.hashes Scenario.passingState)) by (left; reflexivity).
  split; [exact H|]. split; [reflexivity|].
  exact (proj1 (unreadable_file_reported_modified (RT := Reference.runtime)
                  Scenario.passingState Cases.allUnreadable (str "a.txt") _ H eq_refl)).
Defined.

Lemma no_state_no_checks_witness :
  (forall s, Ship.stateAt Scenario.customStateOnly (Ship.statePath (Ship.parseOptions []))
             <> Ship.StateFile s) /\
  Ship.exitCode (Ship.main (RT := Reference.runtime) (Ship.parseOptions [])
                           Scenario.customStateOnly) = 1%Z.
Proof.
  assert (H : forall s,
             Ship.stateAt Scenario.customStateOnly (Ship.statePath (Ship.parseOptions []))
             <> Ship.StateFile s).
  { intros s. vm_compute. discriminate. }
  split; [exact H|].
  exact (proj1 (no_state_no_checks (RT := Reference.runtime) (Ship.parseOptions [])
                  Scenario.customStateOnly H)).
Defined.

(** ** The release action *)

Section ReleaseMore.
Context {RT : Runtime}.

Lemma createPullRequest_eq opts w s ir :
  Ship.createPullRequest opts w s ir =
  let t := [Ship.PreparingPR] ++ fst (Ship.getCurrentBranch w)
             ++ fst (Ship.getDefaultBranch w) in
  let defaultBranch := snd (Ship.getDefaultBranch w) in
  let t3 := [Ship.Ran (str "which gh")] in
  match snd (Ship.getCurrentBranch w) with
  | None | Some [] => (t ++ [Ship.NoBranch], Normal false)
  | Some (c :: b) =>
      if jstring_eqb (c :: b) defaultBranch then
        (t ++ [Ship.OnDefaultBranch defaultBranch], Normal false)
      else if negb (Ship.cmd_success (snd (Ship.runCommand w (str "which gh")))) then
        (t ++ t3 ++ [Ship.NoGh], Normal false)
      else
        match Ship.bodyOf s ir with
        | Throw m => (t ++ t3, Throw m)
        | Normal prBody =>
            let prTitle := str "[Verified] " ++ c :: b in
            if Ship.dryRun opts then
              (t ++ t3 ++ [Ship.DryRunEcho prTitle defaultBranch prBody], Normal true)
            else
              match Ship.gh w prTitle defaultBranch prBody with
              | Returned out =>
                  (t ++ t3 ++ [Ship.GhPrCreate prTitle defaultBranch prBody;
                               Ship.PrCreated (trim out)], Normal true)
              | Failed _ stderr message =>
                  (t ++ t3 ++ [Ship.GhPrCreate prTitle defaultBranch prBody;
                               Ship.PrFailed (Ship.trimmedOr stderr message)],
                   Normal false)
              end
        end
  end.
Proof.
  unfold Ship.createPullRequest.
  destruct (Ship.getCurrentBranch w) as [t1 branch].
  destruct (Ship.getDefaultBranch w) as [t2 defaultBranch].
  reflexivity.
Qed.

Lemma preparing_events (w : Ship.world) :
  forall e, In e ([Ship.PreparingPR] ++ fst (Ship.getCurrentBranch w)
                    ++ fst (Ship.getDefaultBranch w)) ->
            e = Ship.PreparingPR \/ isRan e = true.
Proof.
  intros e He. rewrite !in_app_iff in He. destruct He as [[<-|[]]|[He|He]]; auto.
  - rewrite getCurrentBranch_events in He. destruct He as [<-|[]]. auto.
  - right. apply (getDefaultBranch_events w). exact He.
Qed.

Lemma not_ready_no_branch (w : Ship.world) :
  (snd (Ship.getCurrentBranch w) = None \/ snd (Ship.getCurrentBranch w) = Some []) ->
  forall b, ~ pr_ready w b.
Proof.
  intros [H|H] b (A & B & _); rewrite H in A; [discriminate|].
  injection A as <-. contradiction.
Qed.

Ltac pr_split_tac Hgit :=
  split; [split|split; [split|split; [split|apply in_or_app; left; exact Hgit]]].

Ltac in_cases H :=
  repeat (apply in_app_or in H; destruct H as [H|H]); [|cbn [In] in H..].

(** X16. The pull request is created only from a known branch that is
    not the default branch, with the hosting CLI found, and never in a dry
    run: [gh pr create] is run exactly then, with the title
    [[Verified] <branch>], the default branch as base and the body of the
    state; a dry run prints the command exactly when a real run would run
    it. The action succeeds exactly when it gets that far and it is a dry
    run or [gh] returns. The [git] command that asks for the branch runs in
    a dry run as well. *)
Theorem pull_request_guards opts w s ir title base body :
  let pr := Ship.createPullRequest opts w s ir in
  let ready :=
    exists b, pr_ready w b /\ title = str "[Verified] " ++ b /\
              base = snd (Ship.getDefaultBranch w) /\
              Ship.bodyOf s ir = Normal body in
  (In (Ship.GhPrCreate title base body) (fst pr) <->
   Ship.dryRun opts = false /\ ready) /\
  (In (Ship.DryRunEcho title base body) (fst pr) <->
   Ship.dryRun opts = true /\ ready) /\
  (snd pr = Normal true <->
   exists b prBody,
     pr_ready w b /\ Ship.bodyOf s ir = Normal prBody /\
     (Ship.dryRun opts = true \/
      exists out, Ship.gh w (str "[Verified] " ++ b) (snd (Ship.getDefaultBranch w)) prBody
                  = Returned out)) /\
  In (Ship.Ran (str "git branch --show-current")) (fst pr).
Proof.
  intros pr ready. unfold pr, ready. clear pr ready.
  rewrite createPullRequest_eq. cbv zeta.
  assert (Ht := preparing_events w).
  assert (Hgit : In (Ship.Ran (str "git branch --show-current"))
                    ([Ship.PreparingPR] ++ fst (Ship.getCurrentBranch w)
                       ++ fst (Ship.getDefaultBranch w))).
  { rewrite getCurrentBranch_events. right. left. reflexivity. }
  remember ([Ship.PreparingPR] ++ fst (Ship.getCurrentBranch w)
              ++ fst (Ship.getDefaultBranch w)) as t eqn:Et.
  clear Et.
  assert (HnoG : forall x y z, ~ In (Ship.GhPrCreate x y z) t).
  { intros x y z Hin. destruct (Ht _ Hin); discriminate. }
  assert (HnoD : forall x y z, ~ In (Ship.DryRunEcho x y z) t).
  { intros x y z Hin. destruct (Ht _ Hin); discriminate. }
  unfold pr_ready.
  destruct (snd (Ship.getCurrentBranch w)) as [[|c b]|] eqn:Eb.
  - cbn [fst snd]. pr_split_tac Hgit.
    + intros H. in_cases H; [destruct (HnoG _ _ _ H)|]. destruct H as [H|[]]. discriminate.
    + intros (_ & b & (A & B & _) & _). injection A as <-. contradiction.
    + intros H. in_cases H; [destruct (HnoD _ _ _ H)|]. destruct H as [H|[]]. discriminate.
    + intros (_ & b & (A & B & _) & _). injection A as <-. contradiction.
    + discriminate.
    + intros (b & prBody & (A & B & _) & _). injection A as <-. contradiction.
  - destruct (jstring_eqb (c :: b) (snd (Ship.getDefaultBranch w))) eqn:Ed.
    { apply jstring_eqb_eq in Ed.
      cbn [fst snd]. pr_split_tac Hgit.
      + intros H. in_cases H; [destruct (HnoG _ _ _ H)|]. destruct H as [H|[]].
        discriminate.
      + intros (_ & b' & (A & _ & C & _) & _). injection A as <-. contradiction.
      + intros H. in_cases H; [destruct (HnoD _ _ _ H)|]. destruct H as [H|[]].
        discriminate.
      + intros (_ & b' & (A & _ & C & _) & _). injection A as <-. contradiction.
      + discriminate.
      + intros (b' & prBody & (A & _ & C & _) & _). injection A as <-. contradiction. }
    assert (Hd : c :: b <> snd (Ship.getDefaultBranch w)).
    { intros Hx. rewrite <- Hx, jstring_eqb_refl in Ed. discriminate. }
    destruct (Ship.cmd_success (snd (Ship.runCommand w (str "which gh")))) eqn:Eg;
      cbn [negb].
    2:{ cbn [fst snd]. pr_split_tac Hgit.
        + intros H. in_cases H; [destruct (HnoG _ _ _ H)| |];
            destruct H as [H|[]]; discriminate.
        + intros (_ & b' & (_ & _ & _ & D) & _). discriminate.
        + intros H. in_cases H; [destruct (HnoD _ _ _ H)| |];
            destruct H as [H|[]]; discriminate.
        + intros (_ & b' & (_ & _ & _ & D) & _). discriminate.
        + discriminate.
        + intros (b' & prBody & (_ & _ & _ & D) & _). discriminate. }
    assert (Hready : Some (c :: b) = Some (c :: b) /\ c :: b <> [] /\
                     c :: b <> snd (Ship.getDefaultBranch w) /\ true = true).
    { repeat split; [discriminate|exact Hd]. }
    destruct (Ship.bodyOf s ir) as [prBody|m] eqn:Ebody.
    2:{ cbn [fst snd]. pr_split_tac Hgit.
        + intros H. in_cases H; [destruct (HnoG _ _ _ H)|].
          destruct H as [H|[]]; discriminate.
        + intros (_ & b' & _ & _ & _ & D). discriminate.
        + intros H. in_cases H; [destruct (HnoD _ _ _ H)|].
          destruct H as [H|[]]; discriminate.
        + intros (_ & b' & _ & _ & _ & D). discriminate.
        + discriminate.
        + intros (b' & prBody & _ & D & _). discriminate. }
    destruct (Ship.dryRun opts) eqn:Edry.
    { cbn [fst snd]. pr_split_tac Hgit.
      + intros H. in_cases H; [destruct (HnoG _ _ _ H)| |];
          destruct H as [H|[]]; discriminate.
      + intros [H _]. discriminate.
      + intros H. in_cases H; [destruct (HnoD _ _ _ H)| |];
          destruct H as [H|[]]; [discriminate|].
        injection H as <- <- <-. split; [reflexivity|]. exists (c :: b). auto.
      + intros (_ & b' & (A & _) & -> & -> & D). injection A as <-. injection D as <-.
        apply in_or_app. right. apply in_or_app. right. left. reflexivity.
      + intros _. exists (c :: b), prBody. auto.
      + reflexivity. }
    destruct (Ship.gh w (str "[Verified] " ++ c :: b) (snd (Ship.getDefaultBranch w)) prBody)
      as [out|so se msg] eqn:Egh.
    + cbn [fst snd]. pr_split_tac Hgit.
      * intros H. in_cases H; [destruct (HnoG _ _ _ H)| |];
          [destruct H as [H|[]]; discriminate|].
        destruct H as [H|[H|[]]]; [|discriminate].
        injection H as <- <- <-. split; [reflexivity|]. exists (c :: b). auto.
      * intros (_ & b' & (A & _) & -> & -> & D). injection A as <-. injection D as <-.
        apply in_or_app. right. apply in_or_app. right. left. reflexivity.
      * intros H. in_cases H; [destruct (HnoD _ _ _ H)| |];
          [destruct H as [H|[]]; discriminate|].
        destruct H as [H|[H|[]]]; discriminate.
      * intros [H _]. discriminate.
      * intros _. exists (c :: b), prBody. split; [exact Hready|]. split; [reflexivity|].
        right. exists out. exact Egh.
      * reflexivity.
    + cbn [fst snd]. pr_split_tac Hgit.
      * intros H. in_cases H; [destruct (HnoG _ _ _ H)| |];
          [destruct H as [H|[]]; discriminate|].
        destruct H as [H|[H|[]]]; [|discriminate].
        injection H as <- <- <-. split; [reflexivity|]. exists (c :: b). auto.
      * intros (_ & b' & (A & _) & -> & -> & D). injection A as <-. injection D as <-.
        apply in_or_app. right. apply in_or_app. right. left. reflexivity.
      * intros H. in_cases H; [destruct (HnoD _ _ _ H)| |];
          [destruct H as [H|[]]; discriminate|].
        destruct H as [H|[H|[]]]; discriminate.
      * intros [H _]. discriminate.
      * discriminate.
      * intros (b' & prBody' & (A & _) & D & [F|[out F]]); [discriminate|].
        injection A as <-. injection D as <-. rewrite Egh in F. discriminate.
  - cbn [fst snd]. pr_split_tac Hgit.
    + intros H. in_cases H; [destruct (HnoG _ _ _ H)|]. destruct H as [H|[]]. discriminate.
    + intros (_ & b & (A & _) & _). discriminate.
    + intros H. in_cases H; [destruct (HnoD _ _ _ H)|]. destruct H as [H|[]]. discriminate.
    + intros (_ & b & (A & _) & _). discriminate.
    + discriminate.
    + intros (b & prBody & (A & _) & _). discriminate.
Qed.

Lemma gates_have_summary (s : Ship.state) :
  Ship.gatesPass (Ship.checkGates s) = true -> exists sm, Ship.summary s = Some sm.
Proof.
  unfold Ship.gatesPass, Ship.checkGates, Ship.flag. cbn [forallb snd].
  destruct (Ship.summary s) as [sm|]; [eauto|]. cbn. discriminate.
Qed.

Lemma createPullRequest_no_throw opts w s ir sm :
  Ship.summary s = Some sm ->
  exists ok, snd (Ship.createPullRequest opts w s ir) = Normal ok.
Proof.
  intros Hs. rewrite createPullRequest_eq. cbv zeta.
  unfold Ship.bodyOf. rewrite Hs.
  destruct (snd (Ship.getCurrentBranch w)) as [[|c b]|]; cbn [snd]; eauto.
  destruct (jstring_eqb _ _); cbn [snd]; eauto.
  destruct (negb _); cbn [snd]; eauto.
  destruct (Ship.dryRun opts); cbn [snd]; eauto.
  destruct (Ship.gh w _ _ _); cbn [snd]; eauto.
Qed.

(** X17. Ship exits with 0 exactly when every check passes (the state
    loads, the four flags are true, no file is modified or missing) and the
    release action, if asked for, did not fail: no [--create-pr], or a dry
    run, or a pull request that was created. A dry run exits with 0 even
    when the pull request could not be prepared. The exit code is 0 or 1,
    and the run announces that it is ready to ship exactly when every check
    passes. *)
Theorem ship_exit_code (opts : Ship.options) (w : Ship.world) :
  (Ship.exitCode (Ship.main opts w) = 0%Z <->
   checks_pass opts w /\
   (Ship.createPR opts = false \/ Ship.dryRun opts = true \/
    exists s, Ship.stateAt w (Ship.statePath opts) = Ship.StateFile s /\
              snd (Ship.createPullRequest opts w s
                     (Ship.verifyFileIntegrity s (Ship.fs w))) = Normal true)) /\
  (Ship.exitCode (Ship.main opts w) = 0%Z \/ Ship.exitCode (Ship.main opts w) = 1%Z) /\
  (In Ship.ReadyToShip (Ship.trace (Ship.main opts w)) <-> checks_pass opts w).
Proof.
  unfold checks_pass, Ship.main, Ship.loadVerifyState.
  assert (Hdry : ~ In Ship.ReadyToShip
                     ([Ship.Banner] ++ (if Ship.dryRun opts then [Ship.DryRunNotice] else []))).
  { destruct (Ship.dryRun opts); cbn; intuition discriminate. }
  destruct (Ship.stateAt w (Ship.statePath opts)) as [|m| |s] eqn:E;
    cbn [Ship.exitCode Ship.trace].
  1-3: split; [split; [discriminate|intros [(s & Hs & _) _]; discriminate]|];
       (split; [right; reflexivity|]);
       (split; [|intros (s & Hs & _); discriminate]);
       intros H; apply in_app_or in H; destruct H as [H|H];
         [destruct (Hdry H)|cbn in H; intuition discriminate].
  assert (Hpre : forall b : bool,
             ~ In Ship.ReadyToShip
                 ((([Ship.Banner] ++ (if Ship.dryRun opts then [Ship.DryRunNotice] else []))
                     ++ [] ++ [Ship.Loaded (Ship.statePath opts) (Ship.timestamp s)]
                     ++ (if b then [Ship.StaleWarning] else []))
                    ++ Ship.gateEvents (Ship.checkGates s))).
  { intros b H. apply in_app_or in H. destruct H as [H|H].
    - apply in_app_or in H. destruct H as [H|H]; [destruct (Hdry H)|].
      destruct b; cbn in H; intuition discriminate.
    - unfold Ship.gateEvents in H. apply in_map_iff in H.
      destruct H as (x & Hx & _). discriminate. }
  set (ir := Ship.verifyFileIntegrity s (Ship.fs w)).
  destruct (Ship.gatesPass (Ship.checkGates s)) eqn:Hg; cbn [negb].
  2:{ cbn [Ship.exitCode Ship.trace].
      split; [split; [discriminate|]|split; [right; reflexivity|split]].
      - intros [(s' & A & B & _) _]. injection A as <-. congruence.
      - intros H. apply in_app_or in H.
        destruct H as [H|[H|[]]]; [destruct (Hpre _ H)|discriminate].
      - intros (s' & A & B & _). injection A as <-. congruence. }
  destruct (Ship.modified ir) as [|m0 ms] eqn:Em.
  2:{ cbn [Ship.exitCode Ship.trace].
      split; [split; [discriminate|]|split; [right; reflexivity|split]].
      - intros [(s' & A & _ & B & _) _]. injection A as <-. fold ir in B. congruence.
      - intros H. apply in_app_or in H. destruct H as [H|H].
        + apply in_app_or in H.
          destruct H as [H|[H|[]]]; [destruct (Hpre _ H)|discriminate].
        + apply in_map_iff in H. destruct H as (x & Hx & _). discriminate.
      - intros (s' & A & _ & B & _). injection A as <-. fold ir in B. congruence. }
  destruct (Ship.missing ir) as [|f0 fs0] eqn:Ef.
  2:{ cbn [Ship.exitCode Ship.trace].
      split; [split; [discriminate|]|split; [right; reflexivity|split]].
      - intros [(s' & A & _ & _ & B) _]. injection A as <-. fold ir in B. congruence.
      - intros H. apply in_app_or in H. destruct H as [H|H].
        + apply in_app_or in H.
          destruct H as [H|[H|[]]]; [destruct (Hpre _ H)|discriminate].
        + apply in_map_iff in H. destruct H as (x & Hx & _). discriminate.
      - intros (s' & A & _ & _ & B). injection A as <-. fold ir in B. congruence. }
  assert (Hchecks : exists s0,
             Ship.StateFile s = Ship.StateFile s0 /\
             Ship.gatesPass (Ship.checkGates s0) = true /\
             Ship.modified (Ship.verifyFileIntegrity s0 (Ship.fs w)) = [] /\
             Ship.missing (Ship.verifyFileIntegrity s0 (Ship.fs w)) = []).
  { exists s. auto. }
  destruct (Ship.createPR opts) eqn:Epr.
  2:{ cbn [Ship.exitCode Ship.trace].
      split; [split; [auto|reflexivity]|split; [left; reflexivity|split; [auto|]]].
      intros _. apply in_or_app. left. apply in_or_app. right. left. reflexivity. }
  destruct (gates_have_summary s Hg) as [sm Hsm].
  destruct (createPullRequest_no_throw opts w s ir sm Hsm) as [ok Hok].
  destruct (Ship.createPullRequest opts w s ir) as [tp c] eqn:Ec.
  cbn [snd] in Hok. subst c. cbn [Ship.exitCode Ship.trace].
  split; [|split; [destruct (negb ok && negb (Ship.dryRun opts)); auto|split; [auto|]]].
  - assert (Hsnd : snd (Ship.createPullRequest opts w s ir) = Normal ok)
      by (rewrite Ec; reflexivity).
    destruct ok, (Ship.dryRun opts) eqn:Ed; cbn [negb andb]; split.
    + intros _. split; [exact Hchecks|]. right. left. reflexivity.
    + reflexivity.
    + intros _. split; [exact Hchecks|]. right. right. exists s.
      split; [reflexivity|exact Hsnd].
    + reflexivity.
    + intros _. split; [exact Hchecks|]. right. left. reflexivity.
    + reflexivity.
    + discriminate.
    + intros [_ [H|[H|(s' & A & B)]]]; try discriminate.
      injection A as <-. fold ir in B. rewrite Hsnd in B. discriminate.
  - intros _. apply in_or_app. left. apply in_or_app. right. left. reflexivity.
Qed.

End ReleaseMore.

(** ** The scans of the source tree *)

Section TreeFacts.
Context {PL : PathLib}.
Variable extensions : list jstring.

Lemma dirent_induction (P : Tree.dirent -> Prop) :
  (forall n, P (Tree.FileEntry n)) ->
  (forall n listing, Forall P listing -> P (Tree.DirEntry n listing)) ->
  (forall n m, P (Tree.LockedDir n m)) ->
  (forall n, P (Tree.OtherEntry n)) ->
  forall e, P e.
Proof.
  intros Hf Hd Hl Ho. fix IH 1. intros [n|n listing|n m|n].
  - apply Hf.
  - apply Hd. induction listing as [|e rest IHl].
    + constructor.
    + constructor; [apply IH|exact IHl].
  - apply Hl.
  - apply Ho.
Qed.

(** The walk of a directory entry is the loop over its listing. *)
Lemma walkEntry_dir dir files n listing :
  Tree.walkEntry extensions dir files (Tree.DirEntry n listing)
  = if Tree.ignored n then Normal files
    else Tree.walkDir extensions (path_join dir n) listing files.
Proof.
  cbn [Tree.walkEntry Tree.name]. destruct (Tree.ignored n); [reflexivity|].
  revert files. induction listing as [|e rest IH]; intros files; [reflexivity|].
  cbn [Tree.walkDir]. destruct (Tree.walkEntry extensions (path_join dir n) files e);
    cbn [bind]; [apply IH|reflexivity].
Qed.

Lemma walkDir_ok entries :
  Forall (walk_ok extensions) entries ->
  forall dir files,
    match Tree.walkDir extensions dir entries files with
    | Normal files' =>
        (forall e m, In e entries -> ~ blocked_by e m) /\
        exists added, files' = files ++ added /\
                      forall p, In p added <->
                                exists e, In e entries /\ found_in extensions dir e p
    | Throw m => exists e, In e entries /\ blocked_by e m
    end.
Proof.
  induction 1 as [|e rest He Hrest IH]; intros dir files.
  - cbn. split; [intros e m []|]. exists []. rewrite app_nil_r. split; [reflexivity|].
    intros p. split; [intros []|intros (e & [] & _)].
  - cbn [Tree.walkDir]. specialize (He dir files).
    destruct (Tree.walkEntry extensions dir files e) as [files1|m]; cbn [bind].
    + destruct He as (Hnb & added1 & -> & H1).
      specialize (IH dir (files ++ added1)).
      destruct (Tree.walkDir extensions dir rest (files ++ added1)) as [files2|m].
      * destruct IH as (Hnb2 & added2 & -> & H2). split.
        -- intros x m [<-|Hx]; [apply Hnb|apply Hnb2; exact Hx].
        -- exists (added1 ++ added2). rewrite app_assoc. split; [reflexivity|].
           intros p. rewrite in_app_iff, H1, H2. split.
           ++ intros [Hp|(x & Hx & Hp)]; [exists e; auto with datatypes|].
              exists x. auto with datatypes.
           ++ intros (x & [<-|Hx] & Hp); [left; exact Hp|right; eauto].
      * destruct IH as (x & Hx & Hb). exists x. auto with datatypes.
    + exists e. auto with datatypes.
Qed.

Lemma walkEntry_ok : forall e, walk_ok extensions e.
Proof.
  apply dirent_induction.
  - intros n dir files. cbn [Tree.walkEntry Tree.name].
    destruct (Tree.ignored n) eqn:Ei.
    + split; [intros m Hb; inversion Hb|]. exists []. rewrite app_nil_r.
      split; [reflexivity|]. intros p. split; [intros []|].
      intros Hf. inversion Hf; subst. congruence.
    + destruct (array_includes extensions (path_extname n)) eqn:Ex.
      * split; [intros m Hb; inversion Hb|]. exists [path_join dir n].
        split; [reflexivity|]. intros p. split.
        -- intros [<-|[]]. constructor; assumption.
        -- intros Hf. inversion Hf; subst. left. reflexivity.
      * split; [intros m Hb; inversion Hb|]. exists []. rewrite app_nil_r.
        split; [reflexivity|]. intros p. split; [intros []|].
        intros Hf. inversion Hf; subst. congruence.
  - intros n listing Hall dir files. rewrite walkEntry_dir.
    destruct (Tree.ignored n) eqn:Ei.
    + split; [intros m Hb; inversion Hb; subst; congruence|].
      exists []. rewrite app_nil_r. split; [reflexivity|].
      intros p. split; [intros []|]. intros Hf. inversion Hf; subst. congruence.
    + assert (H := walkDir_ok listing Hall (path_join dir n) files).
      destruct (Tree.walkDir extensions (path_join dir n) listing files) as [files'|m].
      * destruct H as (Hnb & added & -> & Hin). split.
        -- intros m Hb. inversion Hb; subst. eapply Hnb; eassumption.
        -- exists added. split; [reflexivity|]. intros p. rewrite Hin. split.
           ++ intros (e & He & Hf). econstructor; eassumption.
           ++ intros Hf. inversion Hf; subst. eauto.
      * destruct H as (e & He & Hb). econstructor; eassumption.
  - intros n m dir files. cbn [Tree.walkEntry Tree.name].
    destruct (Tree.ignored n) eqn:Ei.
    + split; [intros m' Hb; inversion Hb; subst; congruence|].
      exists []. rewrite app_nil_r. split; [reflexivity|].
      intros p. split; [intros []|]. intros Hf. inversion Hf.
    + constructor. exact Ei.
  - intros n dir files. cbn [Tree.walkEntry Tree.name].
    destruct (Tree.ignored n).
    + split; [intros m Hb; inversion Hb|]. exists []. rewrite app_nil_r.
      split; [reflexivity|]. intros p. split; [intros []|]. intros Hf. inversion Hf.
    + split; [intros m Hb; inversion Hb|]. exists []. rewrite app_nil_r.
      split; [reflexivity|]. intros p. split; [intros []|]. intros Hf. inversion Hf.
Qed.

(** The walk from the top. *)
Lemma walkTop_ok dir (s : Tree.dir_state) :
  match Tree.walkTop extensions dir s with
  | Normal files =>
      (forall m, ~ unlistable s m) /\
      forall p, In p files <->
                exists entries e, s = Tree.Listing entries /\ In e entries /\
                                  found_in extensions dir e p
  | Throw m => unlistable s m
  end.
Proof.
  destruct s as [|entries|m]; cbn [Tree.walkTop].
  - split.
    + intros m [H|(entries & e & H & _)]; discriminate.
    + intros p. split; [intros []|]. intros (entries & e & H & _). discriminate.
  - assert (Hall : Forall (walk_ok extensions) entries).
    { apply Forall_forall. intros e _. apply walkEntry_ok. }
    assert (H := walkDir_ok entries Hall dir []).
    destruct (Tree.walkDir extensions dir entries []) as [files|m].
    + destruct H as (Hnb & added & -> & Hin). split.
      * intros m [H|(entries' & e & H & He & Hb)]; [discriminate|].
        injection H as <-. eapply Hnb; eassumption.
      * intros p. cbn [app]. rewrite Hin. split.
        -- intros (e & He & Hf). eauto.
        -- intros (entries' & e & H & He & Hf). injection H as <-. eauto.
    + destruct H as (e & He & Hb). right. eauto.
  - left. reflexivity.
Qed.

End TreeFacts.

(** *** The order of the snapshot *)

Lemma jstring_leb_total (a b : jstring) :
  VerifyScan.jstring_leb a b = true \/ VerifyScan.jstring_leb b a = true.
Proof.
  revert b. induction a as [|x a IH]; intros [|y b]; cbn; auto.
  destruct (N.ltb_spec x y) as [H|H]; cbn; auto.
  destruct (N.ltb_spec y x) as [H'|H']; cbn; auto.
  assert (E : x = y) by lia. subst y. rewrite N.eqb_refl. cbn. apply IH.
Qed.

Lemma HdRel_insert x y l :
  HdRel code_unit_order y l -> code_unit_order y x ->
  HdRel code_unit_order y (VerifyScan.insert x l).
Proof.
  intros Hl Hx. destruct l as [|z l]; cbn.
  - constructor. exact Hx.
  - destruct (VerifyScan.jstring_leb x z); constructor; [exact Hx|].
    inversion Hl; assumption.
Qed.

Lemma insert_sorted x l :
  Sorted code_unit_order l -> Sorted code_unit_order (VerifyScan.insert x l).
Proof.
  induction 1 as [|y l Hs IH Hd]; cbn.
  - repeat constructor.
  - destruct (VerifyScan.jstring_leb x y) eqn:E.
    + constructor; [constructor; assumption|]. constructor. exact E.
    + constructor; [exact IH|]. apply HdRel_insert; [exact Hd|].
      destruct (jstring_leb_total y x) as [H|H]; [exact H|]. congruence.
Qed.

Lemma sort_sorted l : Sorted code_unit_order (VerifyScan.sort l).
Proof. induction l; cbn; [constructor|apply insert_sorted; assumption]. Qed.

Lemma insert_perm x l : Permutation (x :: l) (VerifyScan.insert x l).
Proof.
  induction l as [|y l IH]; cbn; [reflexivity|].
  destruct (VerifyScan.jstring_leb x y); [reflexivity|].
  rewrite perm_swap. constructor. exact IH.
Qed.

Lemma sort_perm l : Permutation l (VerifyScan.sort l).
Proof.
  induction l as [|x l IH]; cbn; [constructor|].
  rewrite <- insert_perm. constructor. exact IH.
Qed.

Section ScanFacts2.
Context {RT : Runtime} {PL : PathLib}.

Lemma findFiles_walk (t : Tree.tree) :
  VerifyScan.findFiles t
  = files <- Tree.walkTop VerifyScan.DEFAULT_EXTENSIONS (scannedPath t) (scanned t) ;;
    Normal (VerifyScan.sort files).
Proof.
  unfold VerifyScan.findFiles, scanned, scannedPath.
  destruct (Tree.srcDir t); reflexivity.
Qed.

Lemma findFiles_members (t : Tree.tree) (files : list jstring) :
  VerifyScan.findFiles t = Normal files ->
  exists found,
    Tree.walkTop VerifyScan.DEFAULT_EXTENSIONS (scannedPath t) (scanned t) = Normal found /\
    files = VerifyScan.sort found /\
    forall p, In p files <->
              exists entries e,
                scanned t = Tree.Listing entries /\ In e entries /\
                found_in VerifyScan.DEFAULT_EXTENSIONS (scannedPath t) e p.
Proof.
  rewrite findFiles_walk. intros H.
  assert (W := walkTop_ok VerifyScan.DEFAULT_EXTENSIONS (scannedPath t) (scanned t)).
  destruct (Tree.walkTop VerifyScan.DEFAULT_EXTENSIONS (scannedPath t) (scanned t))
    as [found|m] eqn:E; [|discriminate].
  cbn in H. injection H as <-. destruct W as [_ W].
  exists found. split; [reflexivity|]. split; [reflexivity|].
  intros p. rewrite <- W. split.
  - apply Permutation_in. symmetry. apply sort_perm.
  - apply Permutation_in. apply sort_perm.
Qed.

(** X18. [findFiles] scans [src] when it exists and the base directory
    only otherwise. What it returns is in code-unit order and holds exactly
    the paths of the regular files below the scanned directory that have
    one of the six extensions and that the walk reaches: neither their name
    nor the name of a directory on the way starts with a dot or is
    [node_modules]. Links and other entries are never followed. *)
Theorem findFiles_lists_visible_sources (t : Tree.tree) (files : list jstring) :
  VerifyScan.findFiles t = Normal files ->
  Sorted code_unit_order files /\
  (forall p, In p files <->
             exists entries e,
               scanned t = Tree.Listing entries /\ In e entries /\
               found_in VerifyScan.DEFAULT_EXTENSIONS (scannedPath t) e p) /\
  (scanned t = Tree.Absent -> files = []) /\
  (Tree.srcDir t <> Tree.Absent ->
   scanned t = Tree.srcDir t /\ scannedPath t = path_join (str ".") (str "src")).
Proof.
  intros H. destruct (findFiles_members t files H) as (found & E & -> & Hin).
  split; [apply sort_sorted|]. split; [exact Hin|]. split.
  - intros Ha. rewrite Ha in E. cbn in E. injection E as <-. reflexivity.
  - intros Hs. unfold scanned, scannedPath. destruct (Tree.srcDir t); [contradiction| |]; auto.
Qed.

(** X19. When the scan reaches a directory that cannot be read, or [src]
    (or, without [src], the base directory) exists and cannot be listed,
    verify ends with code 1 and writes no state; in every other case it
    writes the state. *)
Theorem unreadable_directory_fails_verify opts (t : Tree.tree) (w : Verify.world) :
  (Verify.written (VerifyScan.run opts t w) = None <-> exists m, unlistable (scanned t) m) /\
  (Verify.written (VerifyScan.run opts t w) = None ->
   Verify.exitCode (VerifyScan.run opts t w) = 1%Z) /\
  (forall files,
     VerifyScan.findFiles t = Normal files ->
     VerifyScan.run opts t w = Verify.main opts (VerifyScan.withFound w files)).
Proof.
  unfold VerifyScan.run. rewrite findFiles_walk.
  assert (W := walkTop_ok VerifyScan.DEFAULT_EXTENSIONS (scannedPath t) (scanned t)).
  destruct (Tree.walkTop VerifyScan.DEFAULT_EXTENSIONS (scannedPath t) (scanned t))
    as [found|m]; cbn [bind].
  - destruct W as [Hnb _].
    destruct (verify_always_writes opts (VerifyScan.withFound w (VerifyScan.sort found)))
      as [st Hst].
    unfold wrote in Hst. rewrite Hst. split; [split|split].
    + discriminate.
    + intros [m Hm]. destruct (Hnb m Hm).
    + discriminate.
    + intros files H. injection H as <-. reflexivity.
  - split; [split|split].
    + intros _. exists m. exact W.
    + reflexivity.
    + reflexivity.
    + discriminate.
Qed.

Lemma found_in_mono (exts exts' : list jstring) dir e p :
  (forall x, In x exts -> In x exts') ->
  found_in exts dir e p -> found_in exts' dir e p.
Proof.
  intros Hsub H. induction H as [dir n Hi Hx|dir n listing e p Hi He Hf IH].
  - constructor; [exact Hi|]. apply array_includes_In. apply Hsub.
    apply array_includes_In. exact Hx.
  - econstructor; eassumption.
Qed.

(** X20. [findSourceFiles] looks in [src] only: without it the review
    script finds no file, where verify falls back to the base directory.
    With [src] it returns exactly the files the walk reaches that have one
    of its seven extensions. Every reachable file with one of the four
    extensions the two lists share is in the list [findSourceFiles] returns
    and in the list [findFiles] returns. This is about the two lists only:
    whether a listed file is then read or hashed depends on whether it can
    be read, and for the review on the mode. *)
Theorem findSourceFiles_reads_src_only (t : Tree.tree) :
  (Tree.srcDir t = Tree.Absent -> ReviewInput.findSourceFiles t = Normal []) /\
  (forall files,
     ReviewInput.findSourceFiles t = Normal files ->
     forall p, In p files <->
               exists entries e,
                 Tree.srcDir t = Tree.Listing entries /\ In e entries /\
                 found_in ReviewInput.extensions (path_join (str ".") (str "src")) e p) /\
  (forall files hashed entries e p,
     ReviewInput.findSourceFiles t = Normal files ->
     VerifyScan.findFiles t = Normal hashed ->
     Tree.srcDir t = Tree.Listing entries -> In e entries ->
     found_in COMMON_EXTENSIONS (path_join (str ".") (str "src")) e p ->
     In p files /\ In p hashed).
Proof.
  assert (Hchar : forall files,
            ReviewInput.findSourceFiles t = Normal files ->
            forall p, In p files <->
               exists entries e,
                 Tree.srcDir t = Tree.Listing entries /\ In e entries /\
                 found_in ReviewInput.extensions (path_join (str ".") (str "src")) e p).
  { intros files H p. unfold ReviewInput.findSourceFiles in H.
    assert (W := walkTop_ok ReviewInput.extensions (path_join (str ".") (str "src"))
                   (Tree.srcDir t)).
    destruct (Tree.srcDir t) as [|entries|m] eqn:Es.
    - injection H as <-. split; [intros []|]. intros (entries & e & H & _). discriminate.
    - rewrite H in W. destruct W as [_ W]. apply W.
    - discriminate. }
  split; [|split].
  - intros H. unfold ReviewInput.findSourceFiles. rewrite H. reflexivity.
  - exact Hchar.
  - intros files hashed entries e p Hf Hh Hs He Hc. split.
    + apply (Hchar files Hf). exists entries, e. split; [exact Hs|]. split; [exact He|].
      apply (found_in_mono COMMON_EXTENSIONS); [|exact Hc].
      intros x Hx. cbn in Hx |- *. intuition.
    + destruct (findFiles_members t hashed Hh) as (found & _ & _ & Hin).
      apply Hin. exists entries, e.
      unfold scanned, scannedPath. rewrite Hs. split; [reflexivity|]. split; [exact He|].
      apply (found_in_mono COMMON_EXTENSIONS); [|exact Hc].
      intros x Hx. cbn in Hx |- *. intuition.
Qed.

End ScanFacts2.

Lemma findFiles_lists_visible_sources_witness :
  VerifyScan.findFiles (PL := ReferencePath.paths) Cases.smallTree
    = Normal [str "src/b.ts"; str "src/lib/a.js"] /\
  Sorted code_unit_order [str "src/b.ts"; str "src/lib/a.js"].
Proof.
  assert (H : VerifyScan.findFiles (PL := ReferencePath.paths) Cases.smallTree
              = Normal [str "src/b.ts"; str "src/lib/a.js"]) by (vm_compute; reflexivity).
  split; [exact H|].
  exact (proj1 (findFiles_lists_visible_sources (PL := ReferencePath.paths)
                  Cases.smallTree _ H)).
Defined.

(** ** The code that is gathered for review *)

Lemma truncate_bound (text : jstring) :
  length (ReviewInput.truncate text) <= ReviewInput.MAX_FILE_SIZE + 21 /\
  (length text <= ReviewInput.MAX_FILE_SIZE -> ReviewInput.truncate text = text) /\
  (ReviewInput.MAX_FILE_SIZE < length text ->
   ReviewInput.truncate text
   = firstn ReviewInput.MAX_FILE_SIZE text ++ ReviewInput.TRUNCATED /\
   length (ReviewInput.truncate text) = ReviewInput.MAX_FILE_SIZE + 21).
Proof.
  unfold ReviewInput.truncate, substring0.
  generalize ReviewInput.MAX_FILE_SIZE as M. intros M.
  assert (HT : length ReviewInput.TRUNCATED = 21) by reflexivity.
  destruct (Nat.ltb_spec M (length text)) as [H|H].
  - rewrite length_app, length_firstn, HT. repeat split; try lia.
  - repeat split; try lia.
Qed.

(** X21. [readFilesContent] returns one element for every path that can
    be read, in the order of the paths and with the path unchanged; a path
    that cannot be read is left out and nothing is thrown. A text of at
    most 50000 code units is kept as it is; a longer one is cut to its
    first 50000 code units followed by the marker, 21 code units long. *)
Theorem readFilesContent_keeps_readable (read : jstring -> option jstring)
    (filePaths : list jstring) :
  map ReviewInput.path (ReviewInput.readFilesContent read filePaths)
  = filter (fun p => match read p with Some _ => true | None => false end) filePaths /\
  (forall f, In f (ReviewInput.readFilesContent read filePaths) ->
             exists text,
               In (ReviewInput.path f) filePaths /\
               read (ReviewInput.path f) = Some text /\
               ReviewInput.content f = ReviewInput.truncate text /\
               length (ReviewInput.content f) <= ReviewInput.MAX_FILE_SIZE + 21 /\
               (length text <= ReviewInput.MAX_FILE_SIZE -> ReviewInput.content f = text) /\
               (ReviewInput.MAX_FILE_SIZE < length text ->
                ReviewInput.content f
                = firstn ReviewInput.MAX_FILE_SIZE text ++ ReviewInput.TRUNCATED)).
Proof.
  split.
  - induction filePaths as [|p rest IH]; [reflexivity|].
    cbn [ReviewInput.readFilesContent filter]. destruct (read p); cbn [map ReviewInput.path].
    + rewrite IH. reflexivity.
    + exact IH.
  - induction filePaths as [|p rest IH]; [intros f []|].
    cbn [ReviewInput.readFilesContent]. intros f Hf.
    destruct (read p) as [text|] eqn:E.
    + destruct Hf as [<-|Hf].
      * exists text. cbn [ReviewInput.path ReviewInput.content].
        destruct (truncate_bound text) as (A & B & C).
        split; [left; reflexivity|]. split; [exact E|]. split; [reflexivity|].
        split; [exact A|]. split; [exact B|]. intros H. apply C. exact H.
      * destruct (IH f Hf) as (t & H1 & H2). exists t. split; [right; exact H1|exact H2].
    + destruct (IH f Hf) as (t & H1 & H2). exists t. split; [right; exact H1|exact H2].
Qed.

Lemma getGitDiff_cases (exec : jstring -> exec_result) :
  match ReviewInput.getGitDiff exec with
  | Some d =>
      d <> [] /\
      exists out,
        (exec (str "git diff HEAD") = Returned out \/
         (exists so se m, exec (str "git diff HEAD") = Failed so se m) /\
         exec (str "git diff --cached") = Returned out) /\
        d = ReviewInput.orNoChanges out
  | None =>
      (exists so se m, exec (str "git diff HEAD") = Failed so se m) /\
      (exists so se m, exec (str "git diff --cached") = Failed so se m)
  end.
Proof.
  assert (Hne : forall out, ReviewInput.orNoChanges out <> []).
  { intros [|c out]; discriminate. }
  unfold ReviewInput.getGitDiff.
  destruct (exec (str "git diff HEAD")) as [out|so se m] eqn:E1.
  - split; [apply Hne|]. exists out. auto.
  - destruct (exec (str "git diff --cached")) as [out|so' se' m'] eqn:E2.
    + split; [apply Hne|]. exists out. split; [|reflexivity]. right. eauto 6.
    + split; eauto.
Qed.

(** X22. [getGitDiff] returns the output of [git diff HEAD] when that
    command returns, and asks [git diff --cached] only when it throws; an
    empty output becomes the placeholder [No changes detected], so the
    result is never an empty string, and it is [null] exactly when both
    commands throw. *)
Theorem getGitDiff_falls_back_once (exec : jstring -> exec_result) :
  (forall out, exec (str "git diff HEAD") = Returned out ->
               ReviewInput.getGitDiff exec = Some (ReviewInput.orNoChanges out) /\
               forall exec', exec' (str "git diff HEAD") = Returned out ->
                             ReviewInput.getGitDiff exec' = ReviewInput.getGitDiff exec) /\
  (forall d, ReviewInput.getGitDiff exec = Some d -> d <> []) /\
  (ReviewInput.getGitDiff exec = None <->
   (exists so se m, exec (str "git diff HEAD") = Failed so se m) /\
   (exists so se m, exec (str "git diff --cached") = Failed so se m)) /\
  (exec (str "git diff HEAD") = Returned [] ->
   ReviewInput.getGitDiff exec = Some ReviewInput.NO_CHANGES).
Proof.
  split; [|split; [|split]].
  - intros out H. unfold ReviewInput.getGitDiff. rewrite H. split; [reflexivity|].
    intros exec' H'. rewrite H'. reflexivity.
  - intros d H. assert (C := getGitDiff_cases exec). rewrite H in C. apply C.
  - split.
    + intros H. assert (C := getGitDiff_cases exec). rewrite H in C. exact C.
    + intros [(so & se & m & H1) (so' & se' & m' & H2)].
      unfold ReviewInput.getGitDiff. rewrite H1, H2. reflexivity.
  - intros H. unfold ReviewInput.getGitDiff. rewrite H. reflexivity.
Qed.

Section GatherFacts.
Context {RT : Runtime} {PL : PathLib}.

(** X23. Files named with [--files] take precedence over [--diff]: they
    are the files to review, no [git] command is run and the tree is not
    scanned, so what is gathered does not depend on either; the diff is
    [null], [usedDiff] is [false] and the code context is that of the named
    files with no diff section, also when [--diff] was given. *)
Theorem named_files_override_diff (opts : AiReview.options) (w : ReviewInput.world) :
  AiReview.files opts <> [] ->
  let g := {| ReviewInput.filesToReview := AiReview.files opts;
              ReviewInput.gitDiff := None |} in
  ReviewInput.gather opts w = Normal g /\
  (forall w', ReviewInput.gather opts w' = Normal g) /\
  ReviewInput.usedDiff opts g = false /\
  (forall opts',
     AiReview.files opts' = AiReview.files opts ->
     ReviewInput.codeContextOf opts' w g = ReviewInput.codeContextOf opts w g).
Proof.
  intros Hf g.
  assert (G : forall w', ReviewInput.gather opts w' = Normal g).
  { intros w'. unfold ReviewInput.gather.
    destruct (AiReview.files opts); [contradiction|reflexivity]. }
  split; [apply G|]. split; [exact G|]. split.
  - unfold ReviewInput.usedDiff. cbn. apply andb_false_r.
  - intros opts' _. reflexivity.
Qed.

Lemma fold_sections (files : list ReviewInput.file_content) (init : jstring) :
  fold_left (fun context file => context ++ ReviewInput.fileSection file) files init
  = init ++ concat (map ReviewInput.fileSection files).
Proof.
  revert init. induction files as [|f rest IH]; intros init; cbn [fold_left map concat].
  - rewrite app_nil_r. reflexivity.
  - rewrite IH, <- app_assoc. reflexivity.
Qed.

Ltac list_eq_tac :=
  repeat (rewrite <- app_assoc || rewrite <- app_comm_cons); vm_compute; reflexivity.

Lemma fileSection_end (f : ReviewInput.file_content) :
  exists x, ReviewInput.fileSection f = x ++ fenceClose.
Proof.
  exists (str "### " ++ ReviewInput.path f ++ [10; 10]%N ++ str "```"
            ++ ReviewInput.fenceTag (ReviewInput.path f) ++ [10%N]
            ++ ReviewInput.content f ++ [10; 96; 96]%N).
  unfold ReviewInput.fileSection, fenceClose. list_eq_tac.
Qed.

Lemma sections_end (f : ReviewInput.file_content) (rest : list ReviewInput.file_content) :
  exists x, concat (map ReviewInput.fileSection (f :: rest)) = x ++ fenceClose.
Proof.
  revert f. induction rest as [|g rest IH]; intros f.
  - destruct (fileSection_end f) as [x Hx]. exists x. cbn [map concat].
    rewrite app_nil_r. exact Hx.
  - destruct (IH g) as [x Hx]. exists (ReviewInput.fileSection f ++ x).
    change (concat (map ReviewInput.fileSection (f :: g :: rest)))
      with (ReviewInput.fileSection f ++ concat (map ReviewInput.fileSection (g :: rest))).
    rewrite Hx, app_assoc. reflexivity.
Qed.

Lemma diffSection_end (d : jstring) :
  exists x, ReviewInput.diffSection d = (35%N :: x) ++ fenceClose.
Proof.
  exists (tl (str "## Git Diff (Changes to Review)" ++ [10; 10]%N ++ str "```diff" ++ [10%N])
            ++ d ++ [10; 96; 96]%N).
  unfold ReviewInput.diffSection, fenceClose. list_eq_tac.
Qed.

Lemma trimStart_spaces (sp r : jstring) (c : char) :
  forallb isWhiteSpace sp = true -> isWhiteSpace c = false ->
  trimStart (sp ++ c :: r) = c :: r.
Proof.
  intros Hs Hc. induction sp as [|a sp IH]; cbn [app trimStart].
  - rewrite Hc. reflexivity.
  - cbn [forallb] in Hs. apply andb_true_iff in Hs. destruct Hs as [Ha Hs].
    rewrite Ha. apply IH. exact Hs.
Qed.

Lemma trim_fenced (x : jstring) :
  trim ((35%N :: x) ++ fenceClose) = (35%N :: x) ++ [96%N].
Proof.
  assert (S : trimStart ((35%N :: x) ++ fenceClose) = (35%N :: x) ++ fenceClose).
  { exact (trimStart_nonspace 35%N (x ++ fenceClose) eq_refl). }
  assert (E : rev ((35%N :: x) ++ fenceClose) = [10; 10]%N ++ 96%N :: rev (35%N :: x)).
  { rewrite rev_app_distr. reflexivity. }
  unfold trim. rewrite S.
  change (trimEnd ((35%N :: x) ++ fenceClose))
    with (rev (trimStart (rev ((35%N :: x) ++ fenceClose)))).
  rewrite E.
  rewrite trimStart_spaces by reflexivity.
  change (rev (96%N :: rev (35%N :: x))) with (rev (rev (35%N :: x)) ++ [96%N]).
  rewrite rev_involutive. reflexivity.
Qed.

(** A context that is not empty starts with [#] and ends with a closing
    fence and two line feeds. *)
Lemma context_shape opts files diff :
  ReviewInput.buildCodeContext opts files diff = [] \/
  exists x, ReviewInput.buildCodeContext opts files diff = (35%N :: x) ++ fenceClose.
Proof.
  unfold ReviewInput.buildCodeContext.
  set (context := match diff with
                  | Some (c :: d) =>
                      if AiReview.useDiff opts then ReviewInput.diffSection (c :: d) else []
                  | _ => []
                  end).
  assert (Hc : context = [] \/ exists x, context = (35%N :: x) ++ fenceClose).
  { unfold context. destruct diff as [[|c d]|]; auto.
    destruct (AiReview.useDiff opts); auto. right. apply diffSection_end. }
  destruct files as [|f rest]; [exact Hc|]. right.
  rewrite fold_sections. destruct (sections_end f rest) as [y Hy]. rewrite Hy.
  destruct Hc as [->|[x ->]].
  - exists (tl (str "## Source Files" ++ [10; 10]%N) ++ y). list_eq_tac.
  - exists (x ++ fenceClose ++ str "## Source Files" ++ [10; 10]%N ++ y). list_eq_tac.
Qed.

Lemma noCode_length opts files diff :
  AiReview.noCode (ReviewInput.buildCodeContext opts files diff)
  = Nat.ltb (length (ReviewInput.buildCodeContext opts files diff)) 52.
Proof.
  destruct (context_shape opts files diff) as [->|[x ->]]; [reflexivity|].
  assert (N : AiReview.noCode ((35%N :: x) ++ fenceClose)
              = Nat.ltb (length (trim ((35%N :: x) ++ fenceClose))) 50) by reflexivity.
  rewrite N, trim_fenced, !length_app.
  apply Bool.eq_iff_eq_true. rewrite !Nat.ltb_lt. cbn [length fenceClose]. lia.
Qed.

(** X24. The review is skipped as having no code exactly when the code
    context has fewer than 52 code units, its two trailing line feeds
    included. The context is empty exactly when no file was read and there
    is no diff section. A diff section alone counts as code as soon as the
    diff has five code units, so the placeholder for no changes does; a
    single file without a diff section counts as code only when its path,
    its fence tag and its content have at least 19 code units together. *)
Theorem small_context_is_no_code (opts : AiReview.options)
    (files : list ReviewInput.file_content) (diff : option jstring) :
  let context := ReviewInput.buildCodeContext opts files diff in
  AiReview.noCode context = Nat.ltb (length context) 52 /\
  (context = [] <->
   files = [] /\ (AiReview.useDiff opts = false \/ ReviewInput.truthyText diff = false)) /\
  (forall d, files = [] -> AiReview.useDiff opts = true -> diff = Some d -> d <> [] ->
             context = ReviewInput.diffSection d /\
             length context = 47 + length d) /\
  (forall f, files = [f] ->
             AiReview.useDiff opts = false \/ ReviewInput.truthyText diff = false ->
             length context
             = 33 + length (ReviewInput.path f)
               + length (ReviewInput.fenceTag (ReviewInput.path f))
               + length (ReviewInput.content f)).
Proof.
  intros context. unfold context. split; [apply noCode_length|]. split; [|split].
  - unfold ReviewInput.buildCodeContext. split.
    + destruct files as [|f rest].
      * intros H. split; [reflexivity|].
        destruct diff as [[|c d]|]; cbn; auto.
        destruct (AiReview.useDiff opts); auto.
        destruct (diffSection_end (c :: d)) as [x Hx]. rewrite Hx in H. discriminate.
      * rewrite fold_sections. intros H. apply app_eq_nil in H. destruct H as [_ H].
        destruct (sections_end f rest) as [y Hy]. rewrite Hy in H.
        apply app_eq_nil in H. destruct H as [_ H]. discriminate.
    + intros [-> H]. destruct diff as [[|c d]|]; auto.
      destruct H as [->|H]; [reflexivity|discriminate].
  - intros d -> Hu -> Hd. unfold ReviewInput.buildCodeContext. rewrite Hu.
    destruct d as [|c d]; [contradiction|]. split; [reflexivity|].
    unfold ReviewInput.diffSection. rewrite !length_app. cbn [length str]. cbn. lia.
  - intros f -> Hd. unfold ReviewInput.buildCodeContext.
    assert (E : match diff with
                | Some (c :: d) =>
                    if AiReview.useDiff opts then ReviewInput.diffSection (c :: d) else []
                | _ => []
                end = []).
    { destruct diff as [[|c d]|]; auto. destruct Hd as [->|Hd]; [reflexivity|discriminate]. }
    rewrite E. cbn [fold_left app]. unfold ReviewInput.fileSection.
    rewrite !length_app. cbn. lia.
Qed.

(** X25. With [--diff] and no named files, the source files are read
    only when there is no diff to review: when both [git] commands throw,
    or when the diff is the placeholder. A real diff is reviewed alone: no
    file is read and the tree is not scanned, so a directory that cannot be
    read does not fail the run. The placeholder stays in the context and
    [usedDiff] stays [true]: on a clean tree the review is not skipped, the
    script sends the placeholder, with the source files if there are any. *)
Theorem diff_mode_gathers (opts : AiReview.options) (w : ReviewInput.world) :
  AiReview.files opts = [] ->
  AiReview.useDiff opts = true ->
  match ReviewInput.getGitDiff (ReviewInput.exec w) with
  | None =>
      ReviewInput.gather opts w
      = (files <- ReviewInput.findSourceFiles (ReviewInput.tree w) ;;
         Normal {| ReviewInput.filesToReview := files; ReviewInput.gitDiff := None |}) /\
      forall g, ReviewInput.gather opts w = Normal g -> ReviewInput.usedDiff opts g = false
  | Some d =>
      (d <> ReviewInput.NO_CHANGES ->
       let g := {| ReviewInput.filesToReview := [];
                   ReviewInput.gitDiff := Some d |} in
       ReviewInput.gather opts w = Normal g /\
       ReviewInput.codeContextOf opts w g = ReviewInput.diffSection d /\
       ReviewInput.usedDiff opts g = true) /\
      (d = ReviewInput.NO_CHANGES ->
       ReviewInput.gather opts w
       = (files <- ReviewInput.findSourceFiles (ReviewInput.tree w) ;;
          Normal {| ReviewInput.filesToReview := files;
                    ReviewInput.gitDiff := Some ReviewInput.NO_CHANGES |}) /\
       forall g, ReviewInput.gather opts w = Normal g ->
                 ReviewInput.usedDiff opts g = true /\
                 startsWith (ReviewInput.diffSection ReviewInput.NO_CHANGES)
                            (ReviewInput.codeContextOf opts w g) = true /\
                 AiReview.noCode (ReviewInput.codeContextOf opts w g) = false)
  end.
Proof.
  intros Hf Hu. unfold ReviewInput.gather. rewrite Hf, Hu.
  assert (C := getGitDiff_cases (ReviewInput.exec w)).
  destruct (ReviewInput.getGitDiff (ReviewInput.exec w)) as [d|] eqn:Eg.
  - destruct C as [Hne _]. destruct d as [|c d]; [contradiction|]. split.
    + intros Hd. cbn [ReviewInput.truthyText negb orb].
      destruct (jstring_eqb (c :: d) ReviewInput.NO_CHANGES) eqn:E.
      { apply jstring_eqb_eq in E. contradiction. }
      split; [reflexivity|]. split.
      * unfold ReviewInput.codeContextOf, ReviewInput.buildCodeContext. cbn. rewrite Hu.
        reflexivity.
      * unfold ReviewInput.usedDiff. cbn. rewrite Hu. reflexivity.
    + intros Hd. rewrite Hd. cbn [ReviewInput.truthyText negb orb].
      rewrite jstring_eqb_refl. split; [reflexivity|].
      intros g Hg.
      destruct (ReviewInput.findSourceFiles (ReviewInput.tree w)) as [files|m];
        [|discriminate].
      cbn in Hg. injection Hg as <-.
      assert (Hstart : startsWith (ReviewInput.diffSection ReviewInput.NO_CHANGES)
                (ReviewInput.codeContextOf opts w
                   {| ReviewInput.filesToReview := files;
                      ReviewInput.gitDiff := Some ReviewInput.NO_CHANGES |}) = true).
      { unfold ReviewInput.codeContextOf, ReviewInput.buildCodeContext.
        cbn [ReviewInput.gitDiff ReviewInput.filesToReview]. 
        change ReviewInput.NO_CHANGES with (78%N :: tl ReviewInput.NO_CHANGES) at 2.
        cbv iota. rewrite Hu.
        change (78%N :: tl ReviewInput.NO_CHANGES) with ReviewInput.NO_CHANGES.
        destruct (ReviewInput.readFilesContent (ReviewInput.readText w) files) as [|f rest].
        - rewrite <- (app_nil_r (ReviewInput.diffSection ReviewInput.NO_CHANGES)) at 2.
          apply startsWith_self.
        - rewrite fold_sections, <- app_assoc. apply startsWith_self. }
      split; [unfold ReviewInput.usedDiff; cbn; rewrite Hu; reflexivity|].
      split; [exact Hstart|].
      unfold ReviewInput.codeContextOf in *. rewrite noCode_length.
      apply Nat.ltb_ge.
      assert (L : forall p s, startsWith p s = true -> length p <= length s).
      { induction p as [|a p IH]; intros [|b s] H; cbn in *; try lia; try discriminate.
        apply andb_true_iff in H. destruct H as [_ H]. apply IH in H. lia. }
      apply L in Hstart.
      assert (E : length (ReviewInput.diffSection ReviewInput.NO_CHANGES) = 66)
        by reflexivity.
      rewrite E in Hstart. refine (Nat.le_trans _ 66 _ _ Hstart). lia.
  - split.
    + reflexivity.
    + intros g Hg.
      destruct (ReviewInput.findSourceFiles (ReviewInput.tree w)) as [files|m];
        [|discriminate].
      cbn in Hg. injection Hg as <-. unfold ReviewInput.usedDiff. cbn.
      apply andb_false_r.
Qed.

End GatherFacts.

Lemma named_files_override_diff_witness :
  AiReview.files Cases.namedFiles <> [] /\
  AiReview.useDiff Cases.namedFiles = true /\
  ReviewInput.gather (PL := ReferencePath.paths)
    Cases.namedFiles Cases.cleanTree
  = Normal {| ReviewInput.filesToReview := [str "src/a.js"; str "src/b.js"];
              ReviewInput.gitDiff := None |}.
Proof.
  assert (H : AiReview.files Cases.namedFiles <> []) by (vm_compute; discriminate).
  split; [exact H|]. split; [reflexivity|].
  exact (proj1 (named_files_override_diff (PL := ReferencePath.paths) Cases.namedFiles Cases.cleanTree H)).
Defined.

Lemma diff_mode_gathers_witness :
  AiReview.files (AiReview.parseOptions [str "--diff"]) = [] /\
  AiReview.useDiff (AiReview.parseOptions [str "--diff"]) = true /\
  AiReview.noCode
    (ReviewInput.codeContextOf (PL := ReferencePath.paths)
       (AiReview.parseOptions [str "--diff"]) Cases.cleanTree
       {| ReviewInput.filesToReview := [];
          ReviewInput.gitDiff := Some ReviewInput.NO_CHANGES |}) = false.
Proof.
  split; [reflexivity|]. split; [reflexivity|].
  assert (H := diff_mode_gathers (PL := ReferencePath.paths)
                 (AiReview.parseOptions [str "--diff"]) Cases.cleanTree eq_refl eq_refl).
  destruct H as [_ H]. destruct (H eq_refl) as [_ K].
  exact (proj2 (proj2 (K _ eq_refl))).
Defined.

(** ** Options, commands and the flags ship reads *)

Lemma argAfter_first flag before v after :
  ~ In flag before ->
  AiReview.argAfter flag (before ++ flag :: v :: after) = Some v.
Proof.
  intros H. induction before as [|a before IH]; cbn [app AiReview.argAfter].
  - rewrite jstring_eqb_refl. reflexivity.
  - destruct (jstring_eqb a flag) eqn:E.
    + apply jstring_eqb_eq in E. subst a. exfalso. apply H. left. reflexivity.
    + apply IH. intros Hin. apply H. right. exact Hin.
Qed.

Lemma argAfter_last flag before :
  ~ In flag before -> AiReview.argAfter flag (before ++ [flag]) = None.
Proof.
  intros H. induction before as [|a before IH]; cbn [app AiReview.argAfter].
  - rewrite jstring_eqb_refl. reflexivity.
  - destruct (jstring_eqb a flag) eqn:E.
    + apply jstring_eqb_eq in E. subst a. exfalso. apply H. left. reflexivity.
    + apply IH. intros Hin. apply H. right. exact Hin.
Qed.

Lemma splitComma_pieces (s cur : jstring) :
  length (AiReview.splitComma cur s) = S (count_occ N.eq_dec s comma) /\
  (~ In comma cur ->
   forall p, In p (AiReview.splitComma cur s) -> ~ In comma p).
Proof.
  revert cur. induction s as [|c s IH]; intros cur.
  - cbn. split; [reflexivity|]. intros Hc p [<-|[]]. rewrite <- in_rev. exact Hc.
  - cbn [AiReview.splitComma count_occ]. fold comma.
    destruct (N.eqb_spec c comma) as [->|Hne].
    + destruct (N.eq_dec comma comma) as [_|n]; [|contradiction].
      destruct (IH []) as [L P]. cbn [length]. rewrite L. split; [reflexivity|].
      intros Hc p [<-|Hp].
      * rewrite <- in_rev. exact Hc.
      * apply P; [intros []|exact Hp].
    + destruct (N.eq_dec c comma) as [e|_]; [contradiction|].
      destruct (IH (c :: cur)) as [L P]. split; [exact L|].
      intros Hc p Hp. apply P; [|exact Hp].
      intros [E|Hin]; [congruence|contradiction].
Qed.

(** X26. The review script takes its files from the argument that
    follows the first [--files]: the pieces between its commas, each
    trimmed, one more than it has commas, empty pieces included; an empty
    argument, or none, leaves the list empty. The argument is not consumed:
    the flags are still looked up in the whole argument list, so a flag
    given as the value of [--files] counts as a flag as well. *)
Theorem files_option_splits_on_commas (before after : list jstring) (v : jstring) :
  ~ In (str "--files") before ->
  let args := before ++ str "--files" :: v :: after in
  (v = [] -> AiReview.files (AiReview.parseOptions args) = []) /\
  (v <> [] ->
   AiReview.files (AiReview.parseOptions args) = map trim (AiReview.splitComma [] v) /\
   length (AiReview.files (AiReview.parseOptions args))
   = S (count_occ N.eq_dec v comma) /\
   forall p, In p (AiReview.splitComma [] v) -> ~ In comma p) /\
  AiReview.files (AiReview.parseOptions (before ++ [str "--files"])) = [] /\
  (AiReview.useDiff (AiReview.parseOptions args) = true <-> In (str "--diff") args) /\
  (v = str "--diff" -> AiReview.useDiff (AiReview.parseOptions args) = true).
Proof.
  intros Hb args. unfold args, AiReview.parseOptions. cbn [AiReview.files AiReview.useDiff].
  rewrite (argAfter_first _ _ _ _ Hb), (argAfter_last _ _ Hb).
  split; [|split; [|split; [|split]]].
  - intros ->. reflexivity.
  - intros Hv. destruct v as [|c v]; [contradiction|].
    destruct (splitComma_pieces (c :: v) []) as [L P].
    split; [reflexivity|]. split.
    + rewrite length_map. exact L.
    + apply P. intros [].
  - reflexivity.
  - apply array_includes_In.
  - intros ->. apply array_includes_In. apply in_or_app. right. right. left. reflexivity.
Qed.

Lemma files_option_splits_on_commas_witness :
  ~ In (str "--files") [str "--diff"] /\
  AiReview.files
    (AiReview.parseOptions [str "--diff"; str "--files"; str "src/a.js, src/b.js"])
  = [str "src/a.js"; str "src/b.js"].
Proof.
  assert (H : ~ In (str "--files") [str "--diff"]).
  { intros [E|[]]. vm_compute in E. discriminate. }
  split; [exact H|].
  refine (eq_trans
            (proj1 (proj1 (proj2 (files_option_splits_on_commas
                                    [str "--diff"] [] (str "src/a.js, src/b.js") H)) _)) _).
  - vm_compute. discriminate.
  - vm_compute. reflexivity.
Defined.

Section CommandFacts.
Context {RT : Runtime}.

(** X27. The command runners of verify and of ship return the same
    success flag and the same output for every outcome of the command.
    Their errors differ in one case only: when the command fails with a
    standard error that is not empty and holds only white space, verify
    records an empty error where ship falls back to the message. *)
Theorem command_runners_agree (w : Ship.world) (command : jstring) :
  exists v,
    Verify.runCommand (Ship.exec w command) = Normal v /\
    Ship.cmd_success (snd (Ship.runCommand w command)) = Verify.cmd_success v /\
    Ship.cmd_output (snd (Ship.runCommand w command)) = Verify.cmd_output v /\
    (Ship.cmd_error (snd (Ship.runCommand w command)) = Verify.cmd_error v \/
     exists stdout c stderr message,
       Ship.exec w command = Failed stdout (Some (c :: stderr)) message /\
       trim (c :: stderr) = [] /\
       Verify.cmd_error v = VStr [] /\
       Ship.cmd_error (snd (Ship.runCommand w command)) = VStr message).
Proof.
  unfold Ship.runCommand, Verify.runCommand. cbn [snd].
  destruct (Ship.exec w command) as [out|stdout stderr message].
  - eexists. split; [reflexivity|]. cbn. auto.
  - eexists. split; [reflexivity|].
    cbn [Ship.cmd_success Ship.cmd_output Ship.cmd_error
         Verify.cmd_success Verify.cmd_output Verify.cmd_error].
    split; [reflexivity|]. split.
    + unfold Ship.trimmedOr, Verify.trimmedOrEmpty.
      destruct stdout as [[|c t]|]; try reflexivity.
      destruct (trim (c :: t)); reflexivity.
    + unfold Ship.trimmedOr. destruct stderr as [[|c t]|]; auto.
      destruct (trim (c :: t)) eqn:E; auto.
      right. exists stdout, c, t, message. auto.
Qed.

(** X28. Ship does not read [aiReviewPass]: two states that differ in
    that flag only give the same run, trace and exit code. Whenever the
    state loads, the status of the four checked gates, and of no other, is
    printed, in the order [verificationPassed], [testsPass], [lintPass],
    [auditPass], also when the first of them fails. *)
Theorem ship_never_reads_review_flag (opts : Ship.options) (w : Ship.world)
    (s : Ship.state) (v : value) :
  Ship.main opts (withState w (withReviewFlag s v)) = Ship.main opts (withState w s) /\
  map (fun e => match e with Ship.GateStatus g _ => g | _ => [] end)
      (filter isGateStatus (Ship.trace (Ship.main opts (withState w s))))
  = [str "verificationPassed"; str "testsPass"; str "lintPass"; str "auditPass"].
Proof.
  split.
  - unfold Ship.main, Ship.loadVerifyState. cbn [withState Ship.stateAt Ship.fs].
    assert (G : Ship.checkGates (withReviewFlag s v) = Ship.checkGates s).
    { unfold Ship.checkGates, Ship.flag, withReviewFlag. cbn [Ship.summary].
      destruct (Ship.summary s); reflexivity. }
    assert (I : forall disk, Ship.verifyFileIntegrity (withReviewFlag s v) disk
                             = Ship.verifyFileIntegrity s disk) by reflexivity.
    assert (B : forall ir, Ship.bodyOf (withReviewFlag s v) ir = Ship.bodyOf s ir).
    { intros ir. unfold Ship.bodyOf, withReviewFlag. cbn [Ship.summary Ship.timestamp].
      destruct (Ship.summary s); reflexivity. }
    assert (P : forall ir, Ship.createPullRequest opts (withState w (withReviewFlag s v))
                             (withReviewFlag s v) ir
                           = Ship.createPullRequest opts (withState w s) s ir).
    { intros ir. rewrite !createPullRequest_eq. cbv zeta. rewrite B. reflexivity. }
    rewrite G, I, P. reflexivity.
  - unfold Ship.main, Ship.loadVerifyState. cbn [withState Ship.stateAt Ship.fs].
    set (ir := Ship.verifyFileIntegrity s (Ship.fs w)).
    assert (Hd : filter isGateStatus
                   (if Ship.dryRun opts then [Ship.DryRunNotice] else []) = [])
      by (destruct (Ship.dryRun opts); reflexivity).
    assert (Hs : forall b : bool,
               filter isGateStatus (if b then [Ship.StaleWarning] else []) = [])
      by (intros b; destruct b; reflexivity).
    assert (Hg : filter isGateStatus (Ship.gateEvents (Ship.checkGates s))
                 = Ship.gateEvents (Ship.checkGates s)) by reflexivity.
    assert (Hn : forall tl, (forall e, In e tl -> isGateStatus e = false) ->
                            filter isGateStatus tl = []).
    { induction tl as [|e tl IH]; intros H; [reflexivity|].
      cbn [filter]. rewrite (H e (or_introl eq_refl)). apply IH.
      intros x Hx. apply H. right. exact Hx. }
    assert (Hpr : forall tp c,
               Ship.createPullRequest opts (withState w s) s ir = (tp, c) ->
               filter isGateStatus tp = []).
    { intros tp c Ec. apply Hn. intros e He.
      assert (R := createPullRequest_events opts (withState w s) s ir e).
      rewrite Ec in R. specialize (R He). destruct e; try discriminate; reflexivity. }
    destruct (negb (Ship.gatesPass (Ship.checkGates s))).
    { cbn [Ship.trace]. rewrite !filter_app, Hd, Hs, Hg. reflexivity. }
    destruct (Ship.modified ir) as [|m0 ms] eqn:Em.
    2:{ cbn [Ship.trace]. rewrite !filter_app, Hd, Hs, Hg.
        rewrite (Hn (map Ship.ModifiedReport (m0 :: ms))).
        - reflexivity.
        - intros e He. apply in_map_iff in He. destruct He as (x & <- & _). reflexivity. }
    destruct (Ship.missing ir) as [|f0 fs0] eqn:Ef.
    2:{ cbn [Ship.trace]. rewrite !filter_app, Hd, Hs, Hg.
        rewrite (Hn (map Ship.MissingReport (f0 :: fs0))).
        - reflexivity.
        - intros e He. apply in_map_iff in He. destruct He as (x & <- & _). reflexivity. }
    destruct (Ship.createPR opts).
    2:{ cbn [Ship.trace]. rewrite !filter_app, Hd, Hs, Hg. reflexivity. }
    destruct (Ship.createPullRequest opts (withState w s) s ir) as [tp [b|msg]] eqn:Ec;
      cbn [Ship.trace]; rewrite !filter_app, Hd, Hs, Hg, (Hpr _ _ eq_refl); reflexivity.
Qed.

End CommandFacts.
